(** * mm-channel-users: the API traversal and the two serializers of main.go

    A shallow embedding of [getTeamID], [getPublicChannelsForTeam],
    [getUsersInChannels], [outputCSV] and [outputJSON], with the properties
    the specification states about them.

    Conventions.
    - A Go slice is [slice A]: the nil slice or a list of elements.
    - A Go [error] is [option error]; [None] is the nil error.
    - Go's [int] is a 64-bit two's complement integer: [page++] wraps.
    - The Mattermost client is a record of functions from the parameters of a
      request to its reply (payload, response, error): the remote system
      answers a request by its parameters, so the team does not change
      during a run.  The client always returns a response when it returns no
      error.  The requests a function issues are appended to a log that is
      threaded through it.
    - The two [for { ... }] loops have no bound in the source.  They are
      modelled with a fuel argument: [None] means the fuel ran out before the
      loop left, so "the loop never leaves" is "every fuel gives [None]".
    - [range] over a Go map visits the entries in an order the runtime
      picks; the order is an argument of [outputJSON].
    - The operating system decides whether [os.Create] and each write
      succeed; it is an argument of the serializers, which return their
      error and what they have written.  The error of the deferred [Flush]
      and [Close] is dropped by the source and is not modelled.
    - [encoding/json] and [encoding/csv] are Go's; their encoding of the
      values main.go hands them is modelled from their documentation.
    - [main] is modelled from the variables [flag.Parse] has filled in; it
      returns how the process ends, the requests issued and what was written.
    - [LogMessage] and [DebugPrint] only print; they are left out, as is
      everything else the program prints. *)

From Stdlib Require Import ZArith Ascii String Lia.
From stdpp Require Import gmap strings list fin_maps.

#[local] Open Scope string_scope.
#[local] Open Scope list_scope.
#[local] Open Scope Z_scope.

(** stdpp keeps [simpl] from unfolding the append of strings; the proofs
    about CSV text compute with it. *)
#[local] Arguments String.append !_ _ /.

(** ** Go values *)

Inductive slice (A : Type) : Type :=
| nilSlice
| Slice (l : list A).
Arguments nilSlice {A}.
Arguments Slice {A} l.

Definition elems {A} (s : slice A) : list A :=
  match s with
  | nilSlice => []
  | Slice l => l
  end.

(** [len(s)] *)
Definition len {A} (s : slice A) : nat := length (elems s).

(** [append(s, x)]: the result is never nil. *)
Definition append {A} (s : slice A) (x : A) : slice A := Slice (elems s ++ [x]).

Definition error : Type := string.

(** [errors.New] *)
Definition errors_New (msg : string) : error := msg.

(** [fmt.Errorf(prefix + ": %w", err)] *)
Definition fmt_Errorf_w (prefix : string) (e : error) : error :=
  (prefix ++ ": " ++ e)%string.

(** Go's [int] on a 64-bit platform. *)
Definition int_wrap (z : Z) : Z := (z + 2 ^ 63) mod 2 ^ 64 - 2 ^ 63.

(** [page++] *)
Definition int_incr (page : Z) : Z := int_wrap (page + 1).

(** ** The Mattermost model types (package [model]), with the fields that
    main.go reads and, for a channel, two of those it drops. *)

Module model.

Module Team.
Record t := { Id : string }.
End Team.

Module Channel.
Record t := { Id : string; TeamId : string; DisplayName : string; Name : string }.
End Channel.

Module User.
Record t := {
      Id : string;
      Username : string;
      Email : string;
      FirstName : string;
      LastName : string;
      Nickname : string;
      DeleteAt : Z;
      IsBot : bool
    }.
End User.

Record Response := { StatusCode : Z }.

End model.

(** ** The types of main.go *)

Module Channel.
Record t := { ID : string; Name : string }.
End Channel.

Module User.
Record t := {
    ChannelName : string;
    UserID : string;
    Username : string;
    Email : string;
    FirstName : string;
    LastName : string;
    Nickname : string
  }.
End User.

Module ChannelWithUsers.
Record t := { ChannelName : string; Users : slice User.t }.
End ChannelWithUsers.

Module JSONChannel.
Record t := { Channel : ChannelWithUsers.t }.
End JSONChannel.

Module JSONOutput.
Record t := { Channels : slice JSONChannel.t }.
End JSONOutput.

(** ** The remote system *)

(** What a client method returns: [(payload, response, err)]. *)
Record Reply (A : Type) : Type := {
  payload : A;
  response : model.Response;
  err : option error
}.
Arguments payload {A} r.
Arguments response {A} r.
Arguments err {A} r.

(** [model.Client4], as far as main.go uses it.  The [ctx] argument is always
    [context.Background()] and is left out. *)
Record Client4 := {
  GetTeamByName : string -> string -> Reply model.Team.t;
  GetPublicChannelsForTeam :
    string -> Z -> Z -> string -> Reply (list model.Channel.t);
  GetUsersInChannel :
    string -> Z -> Z -> string -> Reply (list model.User.t)
}.

(** The requests sent to the remote system, in the order they are issued. *)
Inductive Request :=
| ReqGetTeamByName (teamName etag : string)
| ReqGetPublicChannelsForTeam (teamID : string) (page perPage : Z) (etag : string)
| ReqGetUsersInChannel (channelID : string) (page perPage : Z) (etag : string).

Definition Log : Type := list Request.

(** ** getTeamID (main.go 106-126) *)

Definition getTeamID (mmClient : Client4) (teamName : string) (log : Log)
  : (string * option error) * Log :=
  let etag := "" in
  let r := GetTeamByName mmClient teamName etag in
  let log' := log ++ [ReqGetTeamByName teamName etag] in
  match err r with
  | Some e => (("", Some e), log')
  | None =>
      if negb (model.StatusCode (response r) =? 200)
      then (("", Some (errors_New "bad HTTP response")), log')
      else ((model.Team.Id (payload r), None), log')
  end.

(** ** getPublicChannelsForTeam (main.go 128-166) *)

(** The inner [for _, ch := range channels] of lines 155-160. *)
Definition appendChannels (allChannels : slice Channel.t)
    (channels : list model.Channel.t) : slice Channel.t :=
  fold_left
    (fun acc ch =>
       append acc {| Channel.ID := model.Channel.Id ch;
                     Channel.Name := model.Channel.Name ch |})
    channels allChannels.

(** The [for { ... }] of lines 138-163, entered with the current
    [allChannels] and [page]. *)
Fixpoint getPublicChannelsForTeam_loop (fuel : nat) (mmClient : Client4)
    (teamID : string) (perPage : Z) (etag : string)
    (allChannels : slice Channel.t) (page : Z) (log : Log)
  : option ((slice Channel.t * option error) * Log) :=
  match fuel with
  | O => None
  | S fuel' =>
      let r := GetPublicChannelsForTeam mmClient teamID page perPage etag in
      let log' := log ++ [ReqGetPublicChannelsForTeam teamID page perPage etag] in
      match err r with
      | Some e => Some ((nilSlice, Some e), log')
      | None =>
          if negb (model.StatusCode (response r) =? 200)
          then Some ((nilSlice, Some (errors_New "bad HTTP response")), log')
          else if (length (payload r) =? 0)%nat
          then Some ((allChannels, None), log')
          else getPublicChannelsForTeam_loop fuel' mmClient teamID perPage etag
                 (appendChannels allChannels (payload r)) (int_incr page) log'
      end
  end.

Definition getPublicChannelsForTeam (fuel : nat) (mmClient : Client4)
    (teamID : string) (log : Log)
  : option ((slice Channel.t * option error) * Log) :=
  let allChannels := nilSlice in
  let perPage := 50 in
  let page := 0 in
  let etag := "" in
  getPublicChannelsForTeam_loop fuel mmClient teamID perPage etag
    allChannels page log.

(** ** getUsersInChannels (main.go 168-226) *)

(** The struct literal of lines 210-218. *)
Definition toUser (channel : Channel.t) (user : model.User.t) : User.t :=
  {| User.ChannelName := Channel.Name channel;
     User.UserID := model.User.Id user;
     User.Username := model.User.Username user;
     User.Email := model.User.Email user;
     User.FirstName := model.User.FirstName user;
     User.LastName := model.User.LastName user;
     User.Nickname := model.User.Nickname user |}.

(** The [for _, user := range users] of lines 199-219; each [continue]
    leaves [allUsers] as it is. *)
Definition appendUsers (includeBots : bool) (channel : Channel.t)
    (allUsers : slice User.t) (users : list model.User.t) : slice User.t :=
  fold_left
    (fun acc user =>
       if negb (model.User.DeleteAt user =? 0) then acc
       else if model.User.IsBot user && negb includeBots then acc
       else append acc (toUser channel user))
    users allUsers.

(** How the inner [for { ... }] is left: by a [return] of the whole function
    or by [break]. *)
Inductive LoopExit (A : Type) : Type :=
| ExitReturn (result : slice A * option error)
| ExitBreak (acc : slice A).
Arguments ExitReturn {A} result.
Arguments ExitBreak {A} acc.

(** The inner [for { ... }] of lines 180-222 for one channel. *)
Fixpoint getUsersInChannels_pages (fuel : nat) (mmClient : Client4)
    (includeBots : bool) (perPage : Z) (etag : string) (channel : Channel.t)
    (allUsers : slice User.t) (page : Z) (log : Log)
  : option (LoopExit User.t * Log) :=
  match fuel with
  | O => None
  | S fuel' =>
      let r := GetUsersInChannel mmClient (Channel.ID channel) page perPage etag in
      let log' :=
        log ++ [ReqGetUsersInChannel (Channel.ID channel) page perPage etag] in
      match err r with
      | Some e => Some (ExitReturn (nilSlice, Some e), log')
      | None =>
          if negb (model.StatusCode (response r) =? 200)
          then Some (ExitReturn (nilSlice, Some (errors_New "bad HTTP response")),
                     log')
          else if (length (payload r) =? 0)%nat
          then Some (ExitBreak allUsers, log')
          else getUsersInChannels_pages fuel' mmClient includeBots perPage etag
                 channel (appendUsers includeBots channel allUsers (payload r))
                 (int_incr page) log'
      end
  end.

(** The outer [for _, channel := range channels] of lines 177-223 and the
    final [return allUsers, nil]. *)
Fixpoint getUsersInChannels_range (fuel : nat) (mmClient : Client4)
    (includeBots : bool) (perPage : Z) (etag : string)
    (channels : list Channel.t) (allUsers : slice User.t) (log : Log)
    {struct channels}
  : option ((slice User.t * option error) * Log) :=
  match channels with
  | [] => Some ((allUsers, None), log)
  | channel :: rest =>
      let page := 0 in
      match getUsersInChannels_pages fuel mmClient includeBots perPage etag
              channel allUsers page log with
      | None => None
      | Some (ExitReturn result, log') => Some (result, log')
      | Some (ExitBreak allUsers', log') =>
          getUsersInChannels_range fuel mmClient includeBots perPage etag
            rest allUsers' log'
      end
  end.

Definition getUsersInChannels (fuel : nat) (mmClient : Client4)
    (channels : slice Channel.t) (includeBots : bool) (log : Log)
  : option ((slice User.t * option error) * Log) :=
  let allUsers := nilSlice in
  let perPage := 50 in
  let etag := "" in
  getUsersInChannels_range fuel mmClient includeBots perPage etag
    (elems channels) allUsers log.

(** ** Vocabulary for the statements about the traversal *)

(** The page argument of the [i]-th request of a pagination loop. *)
Definition pageNumber (i : nat) : Z := int_wrap (Z.of_nat i).

(** The reply to the lister's request number [i], and the request itself. *)
Definition channelPage (mmClient : Client4) (teamID : string) (i : nat)
  : Reply (list model.Channel.t) :=
  GetPublicChannelsForTeam mmClient teamID (pageNumber i) 50 "".

Definition channelRequest (teamID : string) (i : nat) : Request :=
  ReqGetPublicChannelsForTeam teamID (pageNumber i) 50 "".

(** The reply to the collector's request number [i] for one channel, and the
    request itself. *)
Definition userPage (mmClient : Client4) (channel : Channel.t) (i : nat)
  : Reply (list model.User.t) :=
  GetUsersInChannel mmClient (Channel.ID channel) (pageNumber i) 50 "".

Definition userRequest (channel : Channel.t) (i : nat) : Request :=
  ReqGetUsersInChannel (Channel.ID channel) (pageNumber i) 50 "".

(** A reply with no transport error and status 200. *)
Definition succeeded {A} (r : Reply A) : Prop :=
  err r = None /\ model.StatusCode (response r) = 200.

(** A reply with a transport error or a status other than 200. *)
Definition failed {A} (r : Reply A) : Prop :=
  err r <> None \/ model.StatusCode (response r) <> 200.

Definition succeededb {A} (r : Reply A) : bool :=
  match err r with
  | Some _ => false
  | None => model.StatusCode (response r) =? 200
  end.

(** The error a failed reply makes the caller return. *)
Definition failure {A} (r : Reply A) : error :=
  match err r with
  | Some e => e
  | None => errors_New "bad HTTP response"
  end.

(** Pages [0 .. k-1] succeed and are not empty. *)
Definition fullBefore {A} (page : nat -> Reply (list A)) (k : nat) : Prop :=
  forall i, (i < k)%nat -> succeeded (page i) /\ payload (page i) <> [].

(** Page [k] is the first empty page, and no page up to it fails. *)
Definition firstEmptyAt {A} (page : nat -> Reply (list A)) (k : nat) : Prop :=
  fullBefore page k /\ succeeded (page k) /\ payload (page k) = [].

(** Page [n] fails, after [n] pages that succeed and are not empty. *)
Definition firstFailureAt {A} (page : nat -> Reply (list A)) (n : nat) : Prop :=
  fullBefore page n /\ failed (page n).

(** The payloads of pages [0 .. k-1], concatenated in arrival order. *)
Definition pagesBefore {A} (page : nat -> Reply (list A)) (k : nat) : list A :=
  concat (map (fun i => payload (page i)) (seq 0 k)).

(** The pages from [i] on, up to the first that is empty or fails (at most
    [fuel] of them), concatenated. *)
Fixpoint pagesFrom {A} (fuel : nat) (page : nat -> Reply (list A)) (i : nat)
  : list A :=
  match fuel with
  | O => []
  | S fuel' =>
      if succeededb (page i) && negb (length (payload (page i)) =? 0)%nat
      then payload (page i) ++ pagesFrom fuel' page (S i)
      else []
  end.

(** The accounts the remote system lists for the channels, each with the
    channel it is listed for, in arrival order. *)
Definition membership (fuel : nat) (mmClient : Client4)
    (channels : list Channel.t) : list (Channel.t * model.User.t) :=
  flat_map
    (fun channel => map (pair channel) (pagesFrom fuel (userPage mmClient channel) 0))
    channels.

(** The channel the lister keeps for a channel of the remote system. *)
Definition toChannel (ch : model.Channel.t) : Channel.t :=
  {| Channel.ID := model.Channel.Id ch; Channel.Name := model.Channel.Name ch |}.

(** An account passes both checks of lines 201-208: it is not deactivated,
    and it is not a bot that the flag leaves out. *)
Definition passes (includeBots : bool) (user : model.User.t) : bool :=
  (model.User.DeleteAt user =? 0) &&
  negb (model.User.IsBot user && negb includeBots).

(** The record built from an account and the channel it is listed for. *)
Definition recordOf (p : Channel.t * model.User.t) : User.t := toUser (fst p) (snd p).

(** ** Example data: the team of the specification's worked example *)

Definition reply200 {A} (x : A) : Reply A :=
  {| payload := x; response := {| model.StatusCode := 200 |}; err := None |}.

Definition replyStatus {A} (status : Z) (x : A) : Reply A :=
  {| payload := x; response := {| model.StatusCode := status |}; err := None |}.

Definition replyError {A} (e : error) (x : A) : Reply A :=
  {| payload := x; response := {| model.StatusCode := 0 |}; err := Some e |}.

Definition general : model.Channel.t :=
  {| model.Channel.Id := "c-general"; model.Channel.TeamId := "t-eng";
     model.Channel.DisplayName := "General"; model.Channel.Name := "general" |}.

Definition random : model.Channel.t :=
  {| model.Channel.Id := "c-random"; model.Channel.TeamId := "t-eng";
     model.Channel.DisplayName := "Random"; model.Channel.Name := "random" |}.

Definition account (id name : string) (deleteAt : Z) (isBot : bool) : model.User.t :=
  {| model.User.Id := id; model.User.Username := name;
     model.User.Email := (name ++ "@example.com")%string;
     model.User.FirstName := name; model.User.LastName := "Example";
     model.User.Nickname := ""; model.User.DeleteAt := deleteAt;
     model.User.IsBot := isBot |}.

(** An active human, an active bot, a deactivated human, a deactivated bot. *)
Definition alice : model.User.t := account "u-alice" "alice" 0 false.
Definition bob : model.User.t := account "u-bob" "bob" 0 true.
Definition carol : model.User.t := account "u-carol" "carol" 1700000000000 false.
Definition dave : model.User.t := account "u-dave" "dave" 1700000000000 true.

(** Two pages of one channel each, then an empty page; [general] lists four
    accounts and [random] one, each on a single page. *)
Definition exampleClient : Client4 :=
  {| GetTeamByName := fun teamName etag =>
       reply200 {| model.Team.Id := "t-eng" |};
     GetPublicChannelsForTeam := fun teamID page perPage etag =>
       if page =? 0 then reply200 [general]
       else if page =? 1 then reply200 [random]
       else reply200 [];
     GetUsersInChannel := fun channelID page perPage etag =>
       if page =? 0 then
         if String.eqb channelID "c-general" then reply200 [alice; bob; carol; dave]
         else if String.eqb channelID "c-random" then reply200 [alice]
         else reply200 []
       else reply200 [] |}.

(** The same team behind a remote system that answers with [status] where
    the example has its second page: the team lookup, the second page of
    channels and the first page of [random]. *)
Definition statusClient (status : Z) : Client4 :=
  {| GetTeamByName := fun teamName etag =>
       replyStatus status {| model.Team.Id := "t-eng" |};
     GetPublicChannelsForTeam := fun teamID page perPage etag =>
       if page =? 0 then reply200 [general; random]
       else replyStatus status [];
     GetUsersInChannel := fun channelID page perPage etag =>
       if String.eqb channelID "c-general" then
         if page =? 0 then reply200 [alice; bob] else reply200 []
       else replyStatus status [alice] |}.

(** The same, with a transport error in those places. *)
Definition brokenClient : Client4 :=
  {| GetTeamByName := fun teamName etag =>
       replyError "connection refused" {| model.Team.Id := "" |};
     GetPublicChannelsForTeam := fun teamID page perPage etag =>
       if page =? 0 then reply200 [general; random]
       else replyError "connection refused" [];
     GetUsersInChannel := fun channelID page perPage etag =>
       if String.eqb channelID "c-general" then
         if page =? 0 then reply200 [alice; bob] else reply200 []
       else replyError "connection refused" [] |}.

(** A remote system that never sends an empty page of channels. *)
Definition endlessClient : Client4 :=
  {| GetTeamByName := fun teamName etag =>
       reply200 {| model.Team.Id := "t-eng" |};
     GetPublicChannelsForTeam := fun teamID page perPage etag => reply200 [general];
     GetUsersInChannel := fun channelID page perPage etag => reply200 [alice] |}.

(** ** The operating system, as the serializers see it *)

(** Where the output goes: [os.Stdout] or the file [os.Create] returned. *)
Inductive File :=
| Stdout
| Created (filename : string).

(** [os_Create filename] is the error of [os.Create(filename)], [None] when
    the file is created.  [Write_error file n] is the error of the [n]-th
    write through the writer of [file] (for the CSV writer, [Write] number 0
    is the header and number [i+1] is row [i]; for the JSON encoder, the one
    [Encode] is number 0), [None] when it succeeds. *)
Record OS := {
  os_Create : string -> option error;
  Write_error : File -> nat -> option error
}.

(** ** outputJSON (main.go 277-316) *)

(** [channelMap[k]] for a key that may be missing: the zero value of
    [[]User] is the nil slice. *)
Definition mapIndex (channelMap : gmap string (slice User.t)) (k : string)
  : slice User.t :=
  default nilSlice (channelMap !! k).

(** Lines 279-282. *)
Definition groupUsers (users : list User.t) : gmap string (slice User.t) :=
  fold_left
    (fun channelMap user =>
       <[User.ChannelName user :=
           append (mapIndex channelMap (User.ChannelName user)) user]> channelMap)
    users (empty : gmap string (slice User.t)).

(** [for k, v := range m] visits every entry of the map once, in an order
    that Go leaves unspecified and the runtime picks.  A [MapRange] is one
    way of picking: any function that lists the entries of a map, each
    once. *)
Record MapRange := {
  rangeOrder : gmap string (slice User.t) -> list (string * slice User.t);
  rangeOrder_each_once :
    forall m, Permutation (rangeOrder m) (map_to_list m)
}.

(** Lines 285-293, for the entries in the order [range] visits them. *)
Definition buildJSONOutput (visits : list (string * slice User.t)) : JSONOutput.t :=
  fold_left
    (fun output entry =>
       let channelName := fst entry in
       let usersInChannel := snd entry in
       {| JSONOutput.Channels :=
            append (JSONOutput.Channels output)
              {| JSONChannel.Channel :=
                   {| ChannelWithUsers.ChannelName := channelName;
                      ChannelWithUsers.Users := usersInChannel |} |} |})
    visits {| JSONOutput.Channels := nilSlice |}.

(** A JSON document.  [encoding/json] writes it as text, indented by two
    spaces; the text is not modelled, the value is, and a string stands for
    itself (the escaping of the encoder, and its replacement of invalid
    UTF-8, are not modelled). *)
#[local] Set Warnings "-register-all".
Inductive JSON :=
| JNull
| JString (s : string)
| JArray (items : list JSON)
| JObject (fields : list (string * JSON)).

(** How [encoding/json] encodes the types of main.go: a struct is an object
    with its fields in declaration order, under the name of the [json] tag
    or else of the field; a nil slice is [null], any other slice an array. *)
Definition marshalSlice {A} (marshal : A -> JSON) (s : slice A) : JSON :=
  match s with
  | nilSlice => JNull
  | Slice l => JArray (map marshal l)
  end.

Definition marshalUser (u : User.t) : JSON :=
  JObject [("ChannelName", JString (User.ChannelName u));
           ("UserID", JString (User.UserID u));
           ("Username", JString (User.Username u));
           ("Email", JString (User.Email u));
           ("FirstName", JString (User.FirstName u));
           ("LastName", JString (User.LastName u));
           ("Nickname", JString (User.Nickname u))].

Definition marshalChannelWithUsers (c : ChannelWithUsers.t) : JSON :=
  JObject [("ChannelName", JString (ChannelWithUsers.ChannelName c));
           ("Users", marshalSlice marshalUser (ChannelWithUsers.Users c))].

Definition marshalJSONChannel (c : JSONChannel.t) : JSON :=
  JObject [("Channel", marshalChannelWithUsers (JSONChannel.Channel c))].

Definition marshalJSONOutput (output : JSONOutput.t) : JSON :=
  JObject [("Channels", marshalSlice marshalJSONChannel (JSONOutput.Channels output))].

(** [outputJSON]: the error it returns and the documents it has written. *)
Definition outputJSON (os : OS) (runtime : MapRange)
    (users : list User.t) (filename : string)
  : option error * list (File * JSON) :=
  let channelMap := groupUsers users in
  let output := buildJSONOutput (rangeOrder runtime channelMap) in
  let opened :=
    if negb (String.eqb filename "") then
      match os_Create os filename with
      | Some e => inr (fmt_Errorf_w "failed to create file" e)
      | None => inl (Created filename)
      end
    else inl Stdout in
  match opened with
  | inr e => (Some e, [])
  | inl file =>
      match Write_error os file 0 with
      | Some e => (Some (fmt_Errorf_w "failed to encode JSON" e), [])
      | None => (None, [(file, marshalJSONOutput output)])
      end
  end.

(** ** Vocabulary for the statements about [outputJSON] *)

(** The distinct elements of a list, in the order of their first
    occurrence. *)
Fixpoint firstSeen (names : list string) : list string :=
  match names with
  | [] => []
  | name :: rest =>
      name :: List.filter (fun other => negb (String.eqb other name)) (firstSeen rest)
  end.

(** The records of a channel name, in input order. *)
Definition usersOf (channelName : string) (users : list User.t) : list User.t :=
  List.filter (fun u => String.eqb (User.ChannelName u) channelName) users.

(** The channel groups of an output, in document order. *)
Definition groupsOf (output : JSONOutput.t) : list ChannelWithUsers.t :=
  map JSONChannel.Channel (elems (JSONOutput.Channels output)).

(** The sum of the groups' user counts. *)
Definition userCount (groups : list ChannelWithUsers.t) : nat :=
  list_sum (map (fun g => len (ChannelWithUsers.Users g)) groups).

(** The file a serializer writes to when it can open it. *)
Definition sinkOf (filename : string) : File :=
  if String.eqb filename "" then Stdout else Created filename.

(** An operating system on which the output can be opened and written. *)
Definition sinkWorks (os : OS) (filename : string) : Prop :=
  (filename = "" \/ os_Create os filename = None) /\
  forall n, Write_error os (sinkOf filename) n = None.

(** The group built from one entry of the map. *)
Definition groupOfEntry (entry : string * slice User.t) : ChannelWithUsers.t :=
  {| ChannelWithUsers.ChannelName := fst entry;
     ChannelWithUsers.Users := snd entry |}.

(** The entry of the grouping map for a channel name: none when no record
    has that name, otherwise the records of that name in input order. *)
Definition entryOf (channelName : string) (users : list User.t)
  : option (slice User.t) :=
  match usersOf channelName users with
  | [] => None
  | l => Some (Slice l)
  end.

(** The total size of the values of the grouping map. *)
Definition mapCount (m : gmap string (slice User.t)) : nat :=
  list_sum (map (fun entry => len (snd entry)) (map_to_list m)).

(** The value [outputJSON] hands to the encoder. *)
Definition encodedOutput (runtime : MapRange) (users : list User.t) : JSONOutput.t :=
  buildJSONOutput (rangeOrder runtime (groupUsers users)).

(** ** encoding/csv, as [outputCSV] uses it *)

(** [csv.NewWriter] sets [Comma] to [','] and [UseCRLF] to [false]. *)
Definition Comma : ascii := ","%char.
Definition UseCRLF : bool := false.

Definition quoteChar : ascii := "034"%char.
Definition LF : ascii := "010"%char.
Definition CR : ascii := "013"%char.

(** A string of one byte. *)
Definition byte (c : ascii) : string := String c EmptyString.

Section CSVWriter.

(** [unicode.IsSpace] of the first rune of a field that starts with a byte
    of 0x80 or more (a multi-byte or invalid UTF-8 sequence).  It belongs to
    Go's [unicode] tables; everything below holds whatever it answers. *)
Variable multibyteSpace : string -> bool.

(** [r1, _ := utf8.DecodeRuneInString(field); unicode.IsSpace(r1)]: an ASCII
    byte is its own rune, and the ASCII spaces are tab, LF, VT, FF, CR and
    the space. *)
Definition firstRuneIsSpace (field : string) : bool :=
  match field with
  | EmptyString => false
  | String c _ =>
      if (nat_of_ascii c <? 128)%nat
      then existsb (Ascii.eqb c)
             ["009"%char; "010"%char; "011"%char; "012"%char; "013"%char; " "%char]
      else multibyteSpace field
  end.

(** The byte test of [fieldNeedsQuotes]. *)
Definition isSpecial (c : ascii) : bool :=
  Ascii.eqb c LF || Ascii.eqb c CR || Ascii.eqb c quoteChar || Ascii.eqb c Comma.

(** [Writer.fieldNeedsQuotes] *)
Definition fieldNeedsQuotes (field : string) : bool :=
  if String.eqb field "" then false
  else if String.eqb field "\." then true
  else if existsb isSpecial (list_ascii_of_string field) then true
  else firstRuneIsSpace field.

(** The loop of [Writer.Write] over a field that is quoted: bytes are
    copied up to the next quote, CR or LF, which is then encoded. *)
Fixpoint writeQuoted (field : string) : string :=
  match field with
  | EmptyString => EmptyString
  | String c rest =>
      (if Ascii.eqb c quoteChar then String quoteChar (byte quoteChar)
       else if Ascii.eqb c CR then (if UseCRLF then EmptyString else byte CR)
       else if Ascii.eqb c LF then (if UseCRLF then String CR (byte LF) else byte LF)
       else byte c)
      ++ writeQuoted rest
  end%string.

Definition writeField (field : string) : string :=
  (if fieldNeedsQuotes field
   then byte quoteChar ++ writeQuoted field ++ byte quoteChar
   else field)%string.

(** [for n, field := range record], from field number [n] on. *)
Fixpoint writeFields (n : nat) (record : list string) : string :=
  match record with
  | [] => EmptyString
  | field :: rest =>
      ((if (0 <? n)%nat then byte Comma else EmptyString)
       ++ writeField field ++ writeFields (S n) rest)%string
  end.

(** The bytes [Writer.Write(record)] hands to the file. *)
Definition csv_Write (record : list string) : string :=
  (writeFields 0 record ++ (if UseCRLF then String CR (byte LF) else byte LF))%string.

(** ** outputCSV (main.go 229-275) *)

Definition header : list string :=
  ["ChannelName"; "UserID"; "Username"; "Email"; "FirstName"; "LastName"; "Nickname"].

(** The row of lines 258-266. *)
Definition rowOf (user : User.t) : list string :=
  [User.ChannelName user; User.UserID user; User.Username user; User.Email user;
   User.FirstName user; User.LastName user; User.Nickname user].

(** The [for _, user := range users] of lines 257-272; [n] numbers the
    writes and [written] is what the writer was handed so far. *)
Fixpoint writeRows (os : OS) (file : File) (n : nat) (users : list User.t)
    (written : string) : option error * string :=
  match users with
  | [] => (None, written)
  | user :: rest =>
      let row := rowOf user in
      match Write_error os file n with
      | Some e => (Some e, written)
      | None => writeRows os file (S n) rest (written ++ csv_Write row)%string
      end
  end.

(** [outputCSV]: the error it returns and, when the output was opened, the
    file and the bytes handed to its writer. *)
Definition outputCSV (os : OS) (users : list User.t) (filename : string)
  : option error * list (File * string) :=
  let opened :=
    if negb (String.eqb filename "") then
      match os_Create os filename with
      | Some e => inr e
      | None => inl (Created filename)
      end
    else inl Stdout in
  match opened with
  | inr e => (Some e, [])
  | inl file =>
      match Write_error os file 0 with
      | Some e =>
          (Some (fmt_Errorf_w "failed to write CSV header" e), [(file, EmptyString)])
      | None =>
          let result := writeRows os file 1 users (csv_Write header) in
          (fst result, [(file, snd result)])
      end
  end.

(** The text of a whole CSV file: the header line, then a line per record. *)
Definition csvDocument (users : list User.t) : string :=
  fold_left (fun text user => (text ++ csv_Write (rowOf user))%string)
    users (csv_Write header).

End CSVWriter.

(** ** A reader for the CSV format (RFC 4180 with LF as the line end)

    The repository has no reader; this one is the reference the round trip
    is stated against.  Fields are separated by commas and records ended by
    LF.  A field that starts with a quote runs to the closing quote, a
    doubled quote inside it stands for one quote, and every other byte
    inside it (commas, CR and LF included) is taken as it is.  A quote
    inside an unquoted field, or a byte other than comma or LF after a
    closing quote, is an error. *)

Inductive ReaderState :=
| FieldStart
| InUnquoted
| InQuoted
| AfterQuote.

Record Reader := {
  state : ReaderState;
  field : string;
  fields : list string;
  records : list (list string)
}.

Definition endField (r : Reader) : Reader :=
  {| state := FieldStart; field := EmptyString;
     fields := fields r ++ [field r]; records := records r |}.

Definition endRecord (r : Reader) : Reader :=
  {| state := FieldStart; field := EmptyString;
     fields := []; records := records r ++ [fields r ++ [field r]] |}.

Definition addByte (st : ReaderState) (c : ascii) (r : Reader) : Reader :=
  {| state := st; field := (field r ++ byte c)%string;
     fields := fields r; records := records r |}.

Definition setState (st : ReaderState) (r : Reader) : Reader :=
  {| state := st; field := field r; fields := fields r; records := records r |}.

Definition readByte (r : Reader) (c : ascii) : option Reader :=
  match state r with
  | FieldStart =>
      if Ascii.eqb c quoteChar then Some (setState InQuoted r)
      else if Ascii.eqb c Comma then Some (endField r)
      else if Ascii.eqb c LF then Some (endRecord r)
      else Some (addByte InUnquoted c r)
  | InUnquoted =>
      if Ascii.eqb c quoteChar then None
      else if Ascii.eqb c Comma then Some (endField r)
      else if Ascii.eqb c LF then Some (endRecord r)
      else Some (addByte InUnquoted c r)
  | InQuoted =>
      if Ascii.eqb c quoteChar then Some (setState AfterQuote r)
      else Some (addByte InQuoted c r)
  | AfterQuote =>
      if Ascii.eqb c quoteChar then Some (addByte InQuoted c r)
      else if Ascii.eqb c Comma then Some (endField r)
      else if Ascii.eqb c LF then Some (endRecord r)
      else None
  end.

Fixpoint readBytes (r : Reader) (text : string) : option Reader :=
  match text with
  | EmptyString => Some r
  | String c rest =>
      match readByte r c with
      | Some r' => readBytes r' rest
      | None => None
      end
  end.

(** The end of the text: an open quoted field is an error, and a last line
    without LF is a record. *)
Definition endOfText (r : Reader) : option (list (list string)) :=
  match state r, fields r with
  | InQuoted, _ => None
  | FieldStart, [] => Some (records r)
  | _, _ => Some (records r ++ [fields r ++ [field r]])
  end.

Definition startOfText : Reader :=
  {| state := FieldStart; field := EmptyString; fields := []; records := [] |}.

Definition parseCSV (text : string) : option (list (list string)) :=
  match readBytes startOfText text with
  | Some r => endOfText r
  | None => None
  end.

(** ** Vocabulary for the statements about [outputCSV] *)

(** A byte that an unquoted field may hold. *)
Definition plainByte (c : ascii) : bool :=
  negb (Ascii.eqb c quoteChar || Ascii.eqb c Comma || Ascii.eqb c LF).

(** The reader at the start of a field, with [fs] the fields of the record
    read so far and [rs] the records read so far. *)
Definition atFieldStart (fs : list string) (rs : list (list string)) : Reader :=
  {| state := FieldStart; field := EmptyString; fields := fs; records := rs |}.

(** The reader has just read the field [f]: whatever comes next must end
    the field. *)
Definition afterField (r : Reader) (f : string) (fs : list string)
    (rs : list (list string)) : Prop :=
  field r = f /\ fields r = fs /\ records r = rs /\
  (state r = InUnquoted \/ state r = AfterQuote \/
   (state r = FieldStart /\ f = EmptyString)).

(** ** Example data for the serializers *)

Definition record (channelName userID : string) : User.t :=
  {| User.ChannelName := channelName; User.UserID := userID;
     User.Username := userID; User.Email := ""; User.FirstName := "";
     User.LastName := ""; User.Nickname := "" |}.

(** An operating system on which everything works, and one on which no file
    can be created. *)
Definition workingOS : OS :=
  {| os_Create := fun filename => None; Write_error := fun file n => None |}.

Definition readOnlyOS : OS :=
  {| os_Create := fun filename => Some "permission denied";
     Write_error := fun file n => None |}.

(** Two ways of ranging over a map: by [map_to_list], and by its reverse. *)
Definition keyOrder : MapRange :=
  {| rangeOrder := map_to_list;
     rangeOrder_each_once := fun m => Permutation_refl (map_to_list m) |}.

Definition reverseKeyOrder : MapRange :=
  {| rangeOrder := fun m => rev (map_to_list m);
     rangeOrder_each_once :=
       fun m => Permutation_sym (Permutation_rev (map_to_list m)) |}.

(** Records of [random] and [general] with [random] seen first. *)
Definition randomFirst : list User.t :=
  [record "random" "u-alice"; record "general" "u-alice"; record "random" "u-bob"].

(** ** getEnvWithDefault (main.go 97-104) *)

(** The values of type [interface{}] that main.go passes around: strings and
    booleans. *)
Inductive any :=
| AnyString (s : string)
| AnyBool (b : bool).

(** The environment of the process: [environ !! key] is [os.LookupEnv(key)],
    [None] when the variable does not exist. *)
Definition getEnvWithDefault (environ : gmap string string) (key : string)
    (defaultValue : any) : any :=
  match environ !! key with
  | None => defaultValue
  | Some value => AnyString value
  end.

(** ** main (main.go 318-486) *)

(** How the process ends: [os.Exit(code)], or a run-time panic. *)
Inductive Outcome :=
| Exit (code : Z)
| Panic (message : string).

(** A step of [main] either goes on with a value or ends the process. *)
Inductive Step (A : Type) : Type :=
| Continue (a : A)
| Stop (o : Outcome).
Arguments Continue {A} a.
Arguments Stop {A} o.

Definition bindStep {A B} (c : Step A) (k : A -> Step B) : Step B :=
  match c with
  | Continue a => k a
  | Stop o => Stop o
  end.

Notation "x <- c ;; k" := (bindStep c (fun x => k))
  (at level 200, c at level 99, right associativity).

(** The type assertions [v.(string)] and [v.(bool)]: the one-result form
    panics when the value has another type. *)
Definition assertString (v : any) : Step string :=
  match v with
  | AnyString s => Continue s
  | AnyBool _ =>
      Stop (Panic "interface conversion: interface {} is bool, not string")
  end.

Definition assertBool (v : any) : Step bool :=
  match v with
  | AnyBool b => Continue b
  | AnyString _ =>
      Stop (Panic "interface conversion: interface {} is string, not bool")
  end.

(** The variables that [flag.Parse] fills in (lines 323-343). *)
Record Flags := {
  MattermostURL : string;
  MattermostPort : string;
  MattermostScheme : string;
  MattermostToken : string;
  MattermostTeam : string;
  OutputFileType : string;
  OutputFileName : string;
  IncludeBotsFlag : bool;
  DebugFlag : bool;
  VersionFlag : bool
}.

Definition defaultPort : string := "8065".
Definition defaultScheme : string := "http".

(** The package variable [debugMode] before [main] assigns it (line 19). *)
Definition debugMode0 : bool := false.

(** Lines 359-374: the variables after the fall-back to the environment. *)
Definition environmentFallback (environ : gmap string string) (flags : Flags)
  : Step Flags :=
  url <- (if String.eqb (MattermostURL flags) ""
          then assertString (getEnvWithDefault environ "MM_URL" (AnyString ""))
          else Continue (MattermostURL flags)) ;;
  port <- (if String.eqb (MattermostPort flags) ""
           then assertString (getEnvWithDefault environ "MM_PORT" (AnyString defaultPort))
           else Continue (MattermostPort flags)) ;;
  scheme <- (if String.eqb (MattermostScheme flags) ""
             then assertString
                    (getEnvWithDefault environ "MM_SCHEME" (AnyString defaultScheme))
             else Continue (MattermostScheme flags)) ;;
  token <- (if String.eqb (MattermostToken flags) ""
            then assertString (getEnvWithDefault environ "MM_TOKEN" (AnyString ""))
            else Continue (MattermostToken flags)) ;;
  debug <- (if negb (DebugFlag flags)
            then assertBool (getEnvWithDefault environ "MM_DEBUG" (AnyBool debugMode0))
            else Continue (DebugFlag flags)) ;;
  Continue
    {| MattermostURL := url; MattermostPort := port; MattermostScheme := scheme;
       MattermostToken := token; MattermostTeam := MattermostTeam flags;
       OutputFileType := OutputFileType flags;
       OutputFileName := OutputFileName flags;
       IncludeBotsFlag := IncludeBotsFlag flags; DebugFlag := debug;
       VersionFlag := VersionFlag flags |}.

(** Lines 392-414: [cliErrors] after the five checks, for the upper-cased
    file type. *)
Definition cliErrors (flags : Flags) (fileType : string) : bool :=
  String.eqb (MattermostURL flags) ""
  || String.eqb (MattermostScheme flags) ""
  || String.eqb (MattermostToken flags) ""
  || String.eqb (MattermostTeam flags) ""
  || (negb (String.eqb fileType "CSV") && negb (String.eqb fileType "JSON")).

(** What Go's library and the world outside the process give to [main]:
    [strings.ToUpper], [unicode.IsSpace] on a multi-byte first rune (see
    [firstRuneIsSpace]), the client that [model.NewAPIv4Client(target)]
    followed by [SetToken(token)] yields, the operating system and the order
    in which maps are ranged over. *)
Record World := {
  strings_ToUpper : string -> string;
  unicode_IsSpace_multibyte : string -> bool;
  NewAPIv4Client : string -> string -> Client4;
  opsys : OS;
  mapRange : MapRange
}.

(** What a run of [main] leaves behind: how it ended, the value of
    [debugMode], the requests it issued, and what the serializers wrote.
    What it prints is left out. *)
Record MainResult := {
  outcome : Outcome;
  debugMode : bool;
  requests : Log;
  csvFiles : list (File * string);
  jsonFiles : list (File * JSON)
}.

(** Lines 467-484: the serializers and the final [os.Exit(0)]. *)
Definition writeOutput (world : World) (fileType : string) (flags : Flags)
    (users : slice User.t) (log : Log) : MainResult :=
  let csv :=
    if String.eqb fileType "CSV"
    then outputCSV (unicode_IsSpace_multibyte world) (opsys world) (elems users)
           (OutputFileName flags)
    else (None, []) in
  match fst csv with
  | Some _ =>
      {| outcome := Exit 4; debugMode := DebugFlag flags; requests := log;
         csvFiles := snd csv; jsonFiles := [] |}
  | None =>
      let json :=
        if String.eqb fileType "JSON"
        then outputJSON (opsys world) (mapRange world) (elems users)
               (OutputFileName flags)
        else (None, []) in
      match fst json with
      | Some _ =>
          {| outcome := Exit 5; debugMode := DebugFlag flags; requests := log;
             csvFiles := snd csv; jsonFiles := snd json |}
      | None =>
          {| outcome := Exit 0; debugMode := DebugFlag flags; requests := log;
             csvFiles := snd csv; jsonFiles := snd json |}
      end
  end.

(** Lines 421-465: the connection and the three stages of the traversal,
    for the variables after the fall-back and the checks. *)
Definition traverse (fuel : nat) (world : World) (fileType : string)
    (flags : Flags) : option MainResult :=
  let mmTarget :=
    (MattermostScheme flags ++ "://" ++ MattermostURL flags ++ ":"
     ++ MattermostPort flags)%string in
  let mmClient := NewAPIv4Client world mmTarget (MattermostToken flags) in
  let exitWith code log :=
    {| outcome := Exit code; debugMode := DebugFlag flags; requests := log;
       csvFiles := []; jsonFiles := [] |} in
  match getTeamID mmClient (MattermostTeam flags) [] with
  | ((_, Some _), log) => Some (exitWith 1 log)
  | ((teamID, None), log) =>
      match getPublicChannelsForTeam fuel mmClient teamID log with
      | None => None
      | Some ((_, Some _), log) => Some (exitWith 2 log)
      | Some ((channels, None), log) =>
          match getUsersInChannels fuel mmClient channels (IncludeBotsFlag flags) log with
          | None => None
          | Some ((_, Some _), log) => Some (exitWith 3 log)
          | Some ((users, None), log) =>
              Some (writeOutput world fileType flags users log)
          end
      end
  end.

Definition main (fuel : nat) (world : World) (environ : gmap string string)
    (flags : Flags) : option MainResult :=
  let ended o debug :=
    {| outcome := o; debugMode := debug; requests := [];
       csvFiles := []; jsonFiles := [] |} in
  if VersionFlag flags then Some (ended (Exit 0) debugMode0)
  else
    match environmentFallback environ flags with
    | Stop o => Some (ended o debugMode0)
    | Continue flags' =>
        let fileType := strings_ToUpper world (OutputFileType flags') in
        if cliErrors flags' fileType
        then Some (ended (Exit 1) (DebugFlag flags'))
        else traverse fuel world fileType flags'
    end.

(** ** Vocabulary for the statements about [main] *)

(** The value a variable has after the fall-back: the command line's if it
    is not empty, else the environment's if the variable exists, else the
    default. *)
Definition effective (flagValue : string) (environ : gmap string string)
    (key : string) (defaultValue : string) : string :=
  if String.eqb flagValue "" then default defaultValue (environ !! key)
  else flagValue.

(** The variables after the fall-back, when it does not panic. *)
Definition resolved (environ : gmap string string) (flags : Flags) : Flags :=
  {| MattermostURL := effective (MattermostURL flags) environ "MM_URL" "";
     MattermostPort := effective (MattermostPort flags) environ "MM_PORT" defaultPort;
     MattermostScheme :=
       effective (MattermostScheme flags) environ "MM_SCHEME" defaultScheme;
     MattermostToken := effective (MattermostToken flags) environ "MM_TOKEN" "";
     MattermostTeam := MattermostTeam flags;
     OutputFileType := OutputFileType flags;
     OutputFileName := OutputFileName flags;
     IncludeBotsFlag := IncludeBotsFlag flags;
     DebugFlag := DebugFlag flags;
     VersionFlag := VersionFlag flags |}.

(** The client [main] talks to. *)
Definition clientOf (world : World) (environ : gmap string string) (flags : Flags)
  : Client4 :=
  NewAPIv4Client world
    (effective (MattermostScheme flags) environ "MM_SCHEME" defaultScheme
     ++ "://" ++ effective (MattermostURL flags) environ "MM_URL" ""
     ++ ":" ++ effective (MattermostPort flags) environ "MM_PORT" defaultPort)%string
    (effective (MattermostToken flags) environ "MM_TOKEN" "").

(** One of the five checks of lines 393-414 fails. *)
Definition invalid (world : World) (environ : gmap string string) (flags : Flags)
  : Prop :=
  effective (MattermostURL flags) environ "MM_URL" "" = ""
  \/ effective (MattermostScheme flags) environ "MM_SCHEME" defaultScheme = ""
  \/ effective (MattermostToken flags) environ "MM_TOKEN" "" = ""
  \/ MattermostTeam flags = ""
  \/ (strings_ToUpper world (OutputFileType flags) <> "CSV" /\
      strings_ToUpper world (OutputFileType flags) <> "JSON").

(** The fall-back of [DebugFlag] does not panic. *)
Definition debugResolves (environ : gmap string string) (flags : Flags) : Prop :=
  DebugFlag flags = true \/ environ !! "MM_DEBUG" = None.

Definition isChannelRequest (r : Request) : Prop :=
  match r with
  | ReqGetPublicChannelsForTeam _ _ _ _ => True
  | _ => False
  end.

Definition isUserRequest (r : Request) : Prop :=
  match r with
  | ReqGetUsersInChannel _ _ _ _ => True
  | _ => False
  end.

(** The requests of the collector for [channels] when it asks for pages
    [0 .. n] of each, [n] taken from [ns] channel by channel. *)
Definition collectorRequests (channels : list Channel.t) (ns : list nat) : Log :=
  concat (zip_with (fun channel n => map (userRequest channel) (seq 0 (S n)))
            channels ns).

(** The records of the collector for [channels] when pages [0 .. n-1] of
    each are consumed, [n] taken from [ns] channel by channel. *)
Definition collectorRecords (mmClient : Client4) (includeBots : bool)
    (channels : list Channel.t) (ns : list nat) : list User.t :=
  concat
    (zip_with
       (fun channel n =>
          map (toUser channel)
            (List.filter (passes includeBots)
               (pagesBefore (userPage mmClient channel) n)))
       channels ns).

(** ** Example data for [main] *)

(** The flags as [flag.Parse] leaves them when the command line is empty. *)
Definition noFlags : Flags :=
  {| MattermostURL := ""; MattermostPort := ""; MattermostScheme := "";
     MattermostToken := ""; MattermostTeam := ""; OutputFileType := "CSV";
     OutputFileName := ""; IncludeBotsFlag := false; DebugFlag := false;
     VersionFlag := false |}.

(** [-url=chat.example.com -token=secret -team=engineering] *)
Definition exampleFlags : Flags :=
  {| MattermostURL := "chat.example.com"; MattermostPort := "";
     MattermostScheme := ""; MattermostToken := "secret";
     MattermostTeam := "engineering"; OutputFileType := "CSV";
     OutputFileName := ""; IncludeBotsFlag := false; DebugFlag := false;
     VersionFlag := false |}.

(** A world in which every target is the example team, everything can be
    written, and [strings.ToUpper] is the identity (enough for file types
    given in upper case). *)
Definition exampleWorld : World :=
  {| strings_ToUpper := fun s => s;
     unicode_IsSpace_multibyte := fun field => false;
     NewAPIv4Client := fun target token => exampleClient;
     opsys := workingOS;
     mapRange := keyOrder |}.

(** The same world behind a remote system that answers with [status] where
    [statusClient] does. *)
Definition statusWorld (status : Z) : World :=
  {| strings_ToUpper := fun s => s;
     unicode_IsSpace_multibyte := fun field => false;
     NewAPIv4Client := fun target token => statusClient status;
     opsys := workingOS;
     mapRange := keyOrder |}.

(** A team without public channels. *)
Definition emptyTeamClient : Client4 :=
  {| GetTeamByName := fun teamName etag =>
       reply200 {| model.Team.Id := "t-new" |};
     GetPublicChannelsForTeam := fun teamID page perPage etag => reply200 [];
     GetUsersInChannel := fun channelID page perPage etag => reply200 [] |}.

Definition emptyTeamWorld : World :=
  {| strings_ToUpper := fun s => s;
     unicode_IsSpace_multibyte := fun field => false;
     NewAPIv4Client := fun target token => emptyTeamClient;
     opsys := workingOS;
     mapRange := keyOrder |}.

(** What the run of [main] on the example leaves behind. *)
Definition exampleRun : MainResult :=
  {| outcome := Exit 0; debugMode := false;
     requests :=
       [ReqGetTeamByName "engineering" "";
        ReqGetPublicChannelsForTeam "t-eng" 0 50 "";
        ReqGetPublicChannelsForTeam "t-eng" 1 50 "";
        ReqGetPublicChannelsForTeam "t-eng" 2 50 "";
        ReqGetUsersInChannel "c-general" 0 50 "";
        ReqGetUsersInChannel "c-general" 1 50 "";
        ReqGetUsersInChannel "c-random" 0 50 "";
        ReqGetUsersInChannel "c-random" 1 50 ""];
     csvFiles :=
       [(Stdout,
         ("ChannelName,UserID,Username,Email,FirstName,LastName,Nickname"
          ++ byte LF ++
          "general,u-alice,alice,alice@example.com,alice,Example," ++ byte LF ++
          "random,u-alice,alice,alice@example.com,alice,Example," ++ byte LF)%string)];
     jsonFiles := [] |}.

(** An operating system on which the header and the first row can be
    written and no write after them. *)
Definition fullDiskOS : OS :=
  {| os_Create := fun filename => None;
     Write_error := fun file n =>
       if (2 <=? n)%nat then Some "no space left on device" else None |}.

(** * Properties *)

(** ** Go integers and slices *)

Lemma int_incr_pageNumber (i : nat) : int_incr (pageNumber i) = pageNumber (S i).
Proof.
  unfold int_incr, pageNumber, int_wrap.
  rewrite Nat2Z.inj_succ. unfold Z.succ.
  replace ((Z.of_nat i + 2 ^ 63) mod 2 ^ 64 - 2 ^ 63 + 1 + 2 ^ 63)
    with ((Z.of_nat i + 2 ^ 63) mod 2 ^ 64 + 1) by lia.
  rewrite Zplus_mod_idemp_l. f_equal. f_equal. lia.
Qed.

Lemma pageNumber_0 : pageNumber 0 = 0.
Proof. reflexivity. Qed.

Lemma pageNumber_small (i : nat) : Z.of_nat i < 2 ^ 63 -> pageNumber i = Z.of_nat i.
Proof.
  intros Hi. unfold pageNumber, int_wrap.
  rewrite Z.mod_small by lia. lia.
Qed.

Lemma elems_append {A} (s : slice A) (x : A) : elems (append s x) = elems s ++ [x].
Proof. reflexivity. Qed.

Lemma length_nonzero_iff {A} (l : list A) : (length l =? 0)%nat = false <-> l <> [].
Proof. destruct l; simpl; split; intros H; congruence. Qed.

(** ** Replies *)

Lemma succeededb_spec {A} (r : Reply A) : succeededb r = true <-> succeeded r.
Proof.
  unfold succeededb, succeeded. destruct (err r) as [e|].
  - split; [discriminate | intros [H _]; discriminate].
  - rewrite Z.eqb_eq. split; [intros H; split; [reflexivity | exact H] | intros [_ H]; exact H].
Qed.

Lemma failed_iff_not_succeeded {A} (r : Reply A) : failed r <-> ~ succeeded r.
Proof.
  unfold failed, succeeded. split.
  - intros [H | H] [H1 H2]; contradiction.
  - intros H. destruct (err r) as [e|]; [left; discriminate |].
    right. intros Hs. apply H. split; [reflexivity | exact Hs].
Qed.

Lemma succeeded_or_failed {A} (r : Reply A) : succeeded r \/ failed r.
Proof.
  destruct (succeededb r) eqn:E.
  - left. apply succeededb_spec, E.
  - right. apply failed_iff_not_succeeded. intros H.
    apply succeededb_spec in H. congruence.
Qed.

Lemma fullBefore_S {A} (page : nat -> Reply (list A)) (k : nat) :
  fullBefore page (S k) ->
  succeeded (page 0%nat) /\ payload (page 0%nat) <> [] /\
  fullBefore (fun i => page (S i)) k.
Proof.
  intros H. destruct (H 0%nat ltac:(lia)) as [H1 H2].
  split; [exact H1 | split; [exact H2 |]].
  intros i Hi. apply (H (S i)). lia.
Qed.

Lemma pagesBefore_S {A} (page : nat -> Reply (list A)) (k : nat) :
  pagesBefore page (S k) = payload (page 0%nat) ++ pagesBefore (fun i => page (S i)) k.
Proof.
  unfold pagesBefore. simpl. f_equal. rewrite <- seq_shift, map_map. reflexivity.
Qed.

Lemma pagesBefore_ext {A} (p q : nat -> Reply (list A)) (k : nat) :
  (forall i, p i = q i) -> pagesBefore p k = pagesBefore q k.
Proof.
  intros H. unfold pagesBefore. f_equal. apply map_ext. intros i. now rewrite H.
Qed.

(** ** The channel lister *)

Lemma elems_appendChannels (channels : list model.Channel.t) :
  forall acc, elems (appendChannels acc channels) = elems acc ++ map toChannel channels.
Proof.
  unfold appendChannels.
  induction channels as [|ch channels IH]; intros acc; simpl.
  - now rewrite app_nil_r.
  - rewrite IH, elems_append, <- app_assoc. reflexivity.
Qed.

Section ListerLoop.
Variable mmClient : Client4.
Variable teamID : string.

Let page := channelPage mmClient teamID.
Let loop fuel := getPublicChannelsForTeam_loop fuel mmClient teamID 50 "".

Lemma lister_step_more fuel acc i log :
  succeeded (page i) -> payload (page i) <> [] ->
  loop (S fuel) acc (pageNumber i) log =
  loop fuel (appendChannels acc (payload (page i))) (pageNumber (S i))
    (log ++ [channelRequest teamID i]).
Proof.
  intros [He Hs] Hne. subst loop page. unfold channelPage in *. simpl.
  rewrite He, Hs. simpl.
  apply length_nonzero_iff in Hne. rewrite Hne.
  rewrite int_incr_pageNumber. reflexivity.
Qed.

Lemma lister_step_empty fuel acc i log :
  succeeded (page i) -> payload (page i) = [] ->
  loop (S fuel) acc (pageNumber i) log =
  Some ((acc, None), log ++ [channelRequest teamID i]).
Proof.
  intros [He Hs] Hnil. subst loop page. unfold channelPage in *. simpl.
  rewrite He, Hs, Hnil. reflexivity.
Qed.

Lemma lister_step_failed fuel acc i log :
  failed (page i) ->
  loop (S fuel) acc (pageNumber i) log =
  Some ((nilSlice, Some (failure (page i))), log ++ [channelRequest teamID i]).
Proof.
  intros Hf. subst loop page. unfold channelPage, failure in *. simpl.
  destruct (err (GetPublicChannelsForTeam mmClient teamID (pageNumber i) 50 ""))
    as [e|] eqn:He; [reflexivity |].
  destruct Hf as [Hf | Hf]; [rewrite He in Hf; congruence |].
  apply Z.eqb_neq in Hf. rewrite Hf. reflexivity.
Qed.

(** [n] full pages from page [i] on make the loop go round [n] times. *)
Lemma lister_advance n : forall fuel acc i log,
  fullBefore (fun j => page (i + j)%nat) n ->
  exists acc',
    elems acc' =
      elems acc ++ map toChannel (pagesBefore (fun j => page (i + j)%nat) n) /\
    loop (n + fuel)%nat acc (pageNumber i) log =
    loop fuel acc' (pageNumber (i + n)) (log ++ map (channelRequest teamID) (seq i n)).
Proof.
  induction n as [|n IH]; intros fuel acc i log Hfull.
  - exists acc. simpl. rewrite !app_nil_r, Nat.add_0_r. split; reflexivity.
  - apply fullBefore_S in Hfull. destruct Hfull as (Hs & Hne & Hfull).
    rewrite Nat.add_0_r in Hs, Hne.
    destruct (IH fuel (appendChannels acc (payload (page i))) (S i)
                (log ++ [channelRequest teamID i])) as (acc' & Hacc & Hrun).
    { intros j Hj. replace (S i + j)%nat with (i + S j)%nat by lia. apply Hfull, Hj. }
    exists acc'. split.
    + rewrite Hacc, elems_appendChannels, pagesBefore_S, map_app, <- app_assoc.
      rewrite Nat.add_0_r.
      rewrite (pagesBefore_ext (fun j => page (S i + j)%nat)
                 (fun j => page (i + S j)%nat))
        by (intros j; f_equal; lia).
      reflexivity.
    + change (S n + fuel)%nat with (S (n + fuel)).
      rewrite lister_step_more by assumption.
      rewrite Hrun. rewrite <- app_assoc. simpl.
      rewrite Nat.add_succ_r. reflexivity.
Qed.

End ListerLoop.

(** Among the first [m] pages, either all are full or there is a first page
    that is empty or fails. *)
Lemma first_stop {A} (page : nat -> Reply (list A)) (m : nat) :
  fullBefore page m \/
  exists n, (n < m)%nat /\ fullBefore page n /\
            (failed (page n) \/ succeeded (page n) /\ payload (page n) = []).
Proof.
  induction m as [|m [IH | (n & Hn & Hfull & Hstop)]].
  - left. intros i Hi. lia.
  - destruct (succeeded_or_failed (page m)) as [Hs | Hf].
    + destruct (payload (page m)) as [|x l] eqn:Hp.
      * right. exists m. split; [lia | split; [exact IH | right; split; assumption]].
      * left. intros i Hi. destruct (Nat.eq_dec i m) as [-> | Hne].
        -- split; [exact Hs | rewrite Hp; discriminate].
        -- apply IH. lia.
    + right. exists m. split; [lia | split; [exact IH | left; exact Hf]].
  - right. exists n. split; [lia | split; assumption].
Qed.

Lemma lister_returns_at_empty mmClient teamID log (k fuel : nat) :
  firstEmptyAt (channelPage mmClient teamID) k -> (k < fuel)%nat ->
  exists allChannels,
    getPublicChannelsForTeam fuel mmClient teamID log =
      Some ((allChannels, None), log ++ map (channelRequest teamID) (seq 0 (S k))) /\
    elems allChannels = map toChannel (pagesBefore (channelPage mmClient teamID) k).
Proof.
  intros (Hfull & Hs & Hnil) Hk.
  destruct (lister_advance mmClient teamID k (fuel - k) nilSlice 0%nat log Hfull)
    as (acc & Hacc & Hrun).
  exists acc. split; [| exact Hacc].
  unfold getPublicChannelsForTeam. rewrite <- pageNumber_0.
  replace fuel with (k + (fuel - k))%nat at 1 by lia. rewrite Hrun.
  destruct (fuel - k)%nat as [|f] eqn:Hf; [lia |].
  rewrite lister_step_empty by assumption.
  rewrite seq_S, map_app, app_assoc. reflexivity.
Qed.

Lemma lister_returns_at_failure mmClient teamID log (n fuel : nat) :
  firstFailureAt (channelPage mmClient teamID) n -> (n < fuel)%nat ->
  getPublicChannelsForTeam fuel mmClient teamID log =
    Some ((nilSlice, Some (failure (channelPage mmClient teamID n))),
          log ++ map (channelRequest teamID) (seq 0 (S n))).
Proof.
  intros (Hfull & Hfail) Hn.
  destruct (lister_advance mmClient teamID n (fuel - n) nilSlice 0%nat log Hfull)
    as (acc & Hacc & Hrun).
  unfold getPublicChannelsForTeam. rewrite <- pageNumber_0.
  replace fuel with (n + (fuel - n))%nat at 1 by lia. rewrite Hrun.
  destruct (fuel - n)%nat as [|f] eqn:Hf; [lia |].
  rewrite lister_step_failed by assumption.
  rewrite seq_S, map_app, app_assoc. reflexivity.
Qed.

Lemma lister_out_of_fuel mmClient teamID log (fuel : nat) :
  fullBefore (channelPage mmClient teamID) fuel ->
  getPublicChannelsForTeam fuel mmClient teamID log = None.
Proof.
  intros Hfull.
  destruct (lister_advance mmClient teamID fuel 0 nilSlice 0%nat log Hfull)
    as (acc & _ & Hrun).
  unfold getPublicChannelsForTeam. rewrite <- pageNumber_0.
  rewrite Nat.add_0_r in Hrun. rewrite Hrun. reflexivity.
Qed.

(** Whenever the lister returns, it has met a first page that is empty or
    fails, and what it returns is decided by that page. *)
Lemma lister_returns_inv mmClient teamID log fuel result :
  getPublicChannelsForTeam fuel mmClient teamID log = Some result ->
  exists n, (n < fuel)%nat /\ fullBefore (channelPage mmClient teamID) n /\
    snd result = log ++ map (channelRequest teamID) (seq 0 (S n)) /\
    (failed (channelPage mmClient teamID n) /\
       fst result = (nilSlice, Some (failure (channelPage mmClient teamID n)))
     \/
     succeeded (channelPage mmClient teamID n) /\
       payload (channelPage mmClient teamID n) = [] /\
       snd (fst result) = None /\
       elems (fst (fst result)) =
         map toChannel (pagesBefore (channelPage mmClient teamID) n)).
Proof.
  intros Hrun.
  destruct (first_stop (channelPage mmClient teamID) fuel)
    as [Hfull | (n & Hn & Hfull & [Hf | [Hs Hnil]])].
  - rewrite lister_out_of_fuel in Hrun by assumption. discriminate.
  - exists n. rewrite (lister_returns_at_failure mmClient teamID log n fuel) in Hrun
      by first [lia | split; assumption].
    injection Hrun as <-. simpl. auto 6.
  - exists n.
    destruct (lister_returns_at_empty mmClient teamID log n fuel) as (acc & Hr & Hacc);
      [split; [assumption | split; assumption] | lia |].
    rewrite Hr in Hrun. injection Hrun as <-. simpl.
    split; [lia | split; [assumption | split; [reflexivity |]]].
    right. auto.
Qed.

(** ** The member collector *)

Lemma elems_appendUsers includeBots channel (users : list model.User.t) :
  forall acc,
    elems (appendUsers includeBots channel acc users) =
    elems acc ++ map (toUser channel) (List.filter (passes includeBots) users).
Proof.
  unfold appendUsers, passes.
  induction users as [|user users IH]; intros acc; simpl.
  - now rewrite app_nil_r.
  - rewrite IH.
    destruct (model.User.DeleteAt user =? 0); simpl; [| reflexivity].
    destruct (model.User.IsBot user && negb includeBots); simpl; [reflexivity |].
    rewrite <- app_assoc. reflexivity.
Qed.

Section CollectorLoop.
Variable mmClient : Client4.
Variable includeBots : bool.
Variable channel : Channel.t.

Let page := userPage mmClient channel.
Let loop fuel :=
  getUsersInChannels_pages fuel mmClient includeBots 50 "" channel.

Lemma collector_step_more fuel acc i log :
  succeeded (page i) -> payload (page i) <> [] ->
  loop (S fuel) acc (pageNumber i) log =
  loop fuel (appendUsers includeBots channel acc (payload (page i)))
    (pageNumber (S i)) (log ++ [userRequest channel i]).
Proof.
  intros [He Hs] Hne. subst loop page. unfold userPage in *. simpl.
  rewrite He, Hs. simpl.
  apply length_nonzero_iff in Hne. rewrite Hne.
  rewrite int_incr_pageNumber. reflexivity.
Qed.

Lemma collector_step_empty fuel acc i log :
  succeeded (page i) -> payload (page i) = [] ->
  loop (S fuel) acc (pageNumber i) log =
  Some (ExitBreak acc, log ++ [userRequest channel i]).
Proof.
  intros [He Hs] Hnil. subst loop page. unfold userPage in *. simpl.
  rewrite He, Hs, Hnil. reflexivity.
Qed.

Lemma collector_step_failed fuel acc i log :
  failed (page i) ->
  loop (S fuel) acc (pageNumber i) log =
  Some (ExitReturn (nilSlice, Some (failure (page i))),
        log ++ [userRequest channel i]).
Proof.
  intros Hf. subst loop page. unfold userPage, failure in *. simpl.
  destruct (err (GetUsersInChannel mmClient (Channel.ID channel) (pageNumber i) 50 ""))
    as [e|] eqn:He; [reflexivity |].
  destruct Hf as [Hf | Hf]; [rewrite He in Hf; congruence |].
  apply Z.eqb_neq in Hf. rewrite Hf. reflexivity.
Qed.

Lemma collector_advance n : forall fuel acc i log,
  fullBefore (fun j => page (i + j)%nat) n ->
  exists acc',
    elems acc' =
      elems acc ++
      map (toUser channel)
        (List.filter (passes includeBots) (pagesBefore (fun j => page (i + j)%nat) n)) /\
    loop (n + fuel)%nat acc (pageNumber i) log =
    loop fuel acc' (pageNumber (i + n)) (log ++ map (userRequest channel) (seq i n)).
Proof.
  induction n as [|n IH]; intros fuel acc i log Hfull.
  - exists acc. simpl. rewrite !app_nil_r, Nat.add_0_r. split; reflexivity.
  - apply fullBefore_S in Hfull. destruct Hfull as (Hs & Hne & Hfull).
    rewrite Nat.add_0_r in Hs, Hne.
    destruct (IH fuel (appendUsers includeBots channel acc (payload (page i))) (S i)
                (log ++ [userRequest channel i])) as (acc' & Hacc & Hrun).
    { intros j Hj. replace (S i + j)%nat with (i + S j)%nat by lia. apply Hfull, Hj. }
    exists acc'. split.
    + rewrite Hacc, elems_appendUsers, pagesBefore_S, List.filter_app, map_app,
        <- app_assoc, Nat.add_0_r.
      rewrite (pagesBefore_ext (fun j => page (S i + j)%nat)
                 (fun j => page (i + S j)%nat))
        by (intros j; f_equal; lia).
      reflexivity.
    + change (S n + fuel)%nat with (S (n + fuel)).
      rewrite collector_step_more by assumption.
      rewrite Hrun. rewrite <- app_assoc. simpl.
      rewrite Nat.add_succ_r. reflexivity.
Qed.

Lemma pages_returns_at_empty acc log (k fuel : nat) :
  firstEmptyAt page k -> (k < fuel)%nat ->
  exists acc',
    loop fuel acc 0 log =
      Some (ExitBreak acc', log ++ map (userRequest channel) (seq 0 (S k))) /\
    elems acc' =
      elems acc ++
      map (toUser channel) (List.filter (passes includeBots) (pagesBefore page k)).
Proof.
  intros (Hfull & Hs & Hnil) Hk.
  destruct (collector_advance k (fuel - k) acc 0%nat log Hfull) as (acc' & Hacc & Hrun).
  exists acc'. split; [| exact Hacc].
  rewrite <- pageNumber_0.
  replace fuel with (k + (fuel - k))%nat at 1 by lia. rewrite Hrun.
  destruct (fuel - k)%nat as [|f] eqn:Hf; [lia |].
  rewrite collector_step_empty by assumption.
  rewrite seq_S, map_app, app_assoc. reflexivity.
Qed.

Lemma pages_returns_at_failure acc log (n fuel : nat) :
  firstFailureAt page n -> (n < fuel)%nat ->
  loop fuel acc 0 log =
    Some (ExitReturn (nilSlice, Some (failure (page n))),
          log ++ map (userRequest channel) (seq 0 (S n))).
Proof.
  intros (Hfull & Hfail) Hn.
  destruct (collector_advance n (fuel - n) acc 0%nat log Hfull) as (acc' & Hacc & Hrun).
  rewrite <- pageNumber_0.
  replace fuel with (n + (fuel - n))%nat at 1 by lia. rewrite Hrun.
  destruct (fuel - n)%nat as [|f] eqn:Hf; [lia |].
  rewrite collector_step_failed by assumption.
  rewrite seq_S, map_app, app_assoc. reflexivity.
Qed.

Lemma pages_out_of_fuel acc log (fuel : nat) :
  fullBefore page fuel -> loop fuel acc 0 log = None.
Proof.
  intros Hfull.
  destruct (collector_advance fuel 0 acc 0%nat log Hfull) as (acc' & _ & Hrun).
  rewrite <- pageNumber_0. rewrite Nat.add_0_r in Hrun. rewrite Hrun. reflexivity.
Qed.

Lemma pages_returns_inv acc log fuel exit log' :
  loop fuel acc 0 log = Some (exit, log') ->
  exists n, (n < fuel)%nat /\
    (firstFailureAt page n /\
       exit = ExitReturn (nilSlice, Some (failure (page n)))
     \/
     firstEmptyAt page n /\
       exists acc', exit = ExitBreak acc' /\
         elems acc' =
           elems acc ++
           map (toUser channel)
             (List.filter (passes includeBots) (pagesBefore page n))).
Proof.
  intros Hrun.
  destruct (first_stop page fuel) as [Hfull | (n & Hn & Hfull & [Hf | [Hs Hnil]])].
  - rewrite pages_out_of_fuel in Hrun by assumption. discriminate.
  - exists n. split; [exact Hn | left].
    rewrite (pages_returns_at_failure acc log n fuel) in Hrun
      by first [lia | split; assumption].
    injection Hrun as <- <-. split; [split; assumption | reflexivity].
  - exists n. split; [exact Hn | right].
    assert (Hk : firstEmptyAt page n) by (split; [assumption | split; assumption]).
    destruct (pages_returns_at_empty acc log n fuel Hk Hn) as (acc' & Hr & Hacc).
    rewrite Hr in Hrun. injection Hrun as <- <-.
    split; [exact Hk | exists acc'; split; [reflexivity | exact Hacc]].
Qed.

End CollectorLoop.

Lemma pagesFrom_stops {A} (page : nat -> Reply (list A)) (n : nat) :
  forall fuel i,
    fullBefore (fun j => page (i + j)%nat) n ->
    ~ (succeeded (page (i + n)%nat) /\ payload (page (i + n)%nat) <> []) ->
    (n < fuel)%nat ->
    pagesFrom fuel page i = pagesBefore (fun j => page (i + j)%nat) n.
Proof.
  induction n as [|n IH]; intros fuel i Hfull Hstop Hlt;
    (destruct fuel as [|fuel]; [lia |]); simpl.
  - rewrite Nat.add_0_r in Hstop.
    destruct (succeededb (page i)) eqn:Hs; simpl; [| reflexivity].
    destruct (length (payload (page i)) =? 0)%nat eqn:Hl; simpl; [reflexivity |].
    exfalso. apply Hstop. split; [apply succeededb_spec, Hs |].
    apply length_nonzero_iff, Hl.
  - apply fullBefore_S in Hfull. destruct Hfull as (Hs & Hne & Hfull).
    rewrite Nat.add_0_r in Hs, Hne.
    apply succeededb_spec in Hs. apply length_nonzero_iff in Hne.
    rewrite Hs, Hne. simpl.
    rewrite pagesBefore_S, Nat.add_0_r. f_equal.
    rewrite (IH fuel (S i)).
    + apply pagesBefore_ext. intros j. f_equal. lia.
    + intros j Hj. replace (S i + j)%nat with (i + S j)%nat by lia. apply Hfull, Hj.
    + replace (S i + n)%nat with (i + S n)%nat by lia. exact Hstop.
    + lia.
Qed.

Lemma pagesFrom_firstEmptyAt {A} (page : nat -> Reply (list A)) (k fuel : nat) :
  firstEmptyAt page k -> (k < fuel)%nat -> pagesFrom fuel page 0 = pagesBefore page k.
Proof.
  intros (Hfull & Hs & Hnil) Hk.
  apply (pagesFrom_stops page k fuel 0%nat); [exact Hfull | | exact Hk].
  simpl. intros [_ Hne]. contradiction.
Qed.

Lemma membership_cons fuel mmClient channel channels :
  membership fuel mmClient (channel :: channels) =
  map (pair channel) (pagesFrom fuel (userPage mmClient channel) 0) ++
  membership fuel mmClient channels.
Proof. reflexivity. Qed.

Lemma kept_of_channel includeBots channel (users : list model.User.t) :
  map recordOf
    (List.filter (fun p => passes includeBots (snd p)) (map (pair channel) users)) =
  map (toUser channel) (List.filter (passes includeBots) users).
Proof.
  induction users as [|user users IH]; simpl; [reflexivity |].
  destruct (passes includeBots user); simpl; now rewrite IH.
Qed.

(** What the loop over the channels returns, whenever it returns: either
    every record that passes the two checks, channel by channel, or nil and
    the error of the first failed page. *)
Lemma range_returns_inv fuel mmClient includeBots (channels : list Channel.t) :
  forall acc log result log',
    getUsersInChannels_range fuel mmClient includeBots 50 "" channels acc log =
      Some (result, log') ->
    (snd result = None /\
     Forall (fun channel =>
               exists k, (k < fuel)%nat /\ firstEmptyAt (userPage mmClient channel) k)
            channels /\
     elems (fst result) =
       elems acc ++
       map recordOf
         (List.filter (fun p => passes includeBots (snd p))
            (membership fuel mmClient channels)))
    \/
    (exists before channel after n,
       channels = before ++ channel :: after /\
       (n < fuel)%nat /\
       firstFailureAt (userPage mmClient channel) n /\
       result = (nilSlice, Some (failure (userPage mmClient channel n)))).
Proof.
  induction channels as [|channel channels IH]; intros acc log result log' Hrun.
  - simpl in Hrun. injection Hrun as <- <-. left. simpl.
    rewrite app_nil_r. split; [reflexivity | split; [constructor | reflexivity]].
  - simpl in Hrun.
    destruct (getUsersInChannels_pages fuel mmClient includeBots 50 "" channel acc 0 log)
      as [[exit log1]|] eqn:Hpages; [| discriminate].
    apply pages_returns_inv in Hpages.
    destruct Hpages as (n & Hn & [[Hfail ->] | [Hempty (acc' & -> & Hacc)]]).
    + injection Hrun as <- <-. right.
      exists [], channel, channels, n. auto.
    + apply IH in Hrun. destruct Hrun as [(Herr & Hall & Hel) | Hfail].
      * left. split; [exact Herr | split].
        -- constructor; [exists n; split; assumption | exact Hall].
        -- rewrite Hel, Hacc, membership_cons, List.filter_app, map_app, kept_of_channel.
           rewrite (pagesFrom_firstEmptyAt _ n fuel Hempty Hn).
           rewrite <- app_assoc. reflexivity.
      * right. destruct Hfail as (before & ch & after & m & -> & Hm & Hf & ->).
        exists (channel :: before), ch, after, m. auto.
Qed.

(** If every channel has a first empty page within the fuel, the loop over
    the channels returns. *)
Lemma range_returns fuel mmClient includeBots (channels : list Channel.t) :
  Forall (fun channel =>
            exists k, (k < fuel)%nat /\ firstEmptyAt (userPage mmClient channel) k)
         channels ->
  forall acc log,
    exists allUsers log',
      getUsersInChannels_range fuel mmClient includeBots 50 "" channels acc log =
        Some ((allUsers, None), log').
Proof.
  induction 1 as [|channel channels (k & Hk & Hempty) _ IH]; intros acc log.
  - exists acc, log. reflexivity.
  - destruct (pages_returns_at_empty mmClient includeBots channel acc log k fuel Hempty Hk)
      as (acc' & Hr & _).
    simpl. rewrite Hr. apply IH.
Qed.

(** If the channels before [channel] each have a first empty page and the
    pagination of [channel] fails, the loop over the channels returns nil and
    the error of the failed page. *)
Lemma range_fails fuel mmClient includeBots (before : list Channel.t)
    channel after (n : nat) :
  Forall (fun channel' =>
            exists k, (k < fuel)%nat /\ firstEmptyAt (userPage mmClient channel') k)
         before ->
  firstFailureAt (userPage mmClient channel) n -> (n < fuel)%nat ->
  forall acc log,
    exists log',
      getUsersInChannels_range fuel mmClient includeBots 50 ""
        (before ++ channel :: after) acc log =
      Some ((nilSlice, Some (failure (userPage mmClient channel n))), log').
Proof.
  intros Hbefore Hfail Hn.
  induction Hbefore as [|channel' before (k & Hk & Hempty) _ IH]; intros acc log.
  - simpl.
    rewrite (pages_returns_at_failure mmClient includeBots channel acc log n fuel Hfail Hn).
    eexists. reflexivity.
  - destruct (pages_returns_at_empty mmClient includeBots channel' acc log k fuel Hempty Hk)
      as (acc' & Hr & _).
    simpl. rewrite Hr. apply IH.
Qed.

(** ** Concrete page sequences *)

Ltac concrete_full :=
  let i := fresh "i" in
  let Hi := fresh "Hi" in
  intros i Hi;
  repeat first
    [ lia
    | destruct i as [|i];
      [ split; [split; reflexivity | discriminate] | ] ].

Ltac concrete_first_empty :=
  split; [concrete_full | split; [split; reflexivity | reflexivity]].

Ltac concrete_first_failure :=
  split; [concrete_full | first [left; discriminate | right; discriminate]].

(** ** What the channel lister returns, and when *)

(** C1.  When the remote system sends [k] non-empty pages of channels and
    then an empty one (page [k] is the first empty page), the lister, whose
    requests carry the page numbers 0, 1, 2, ... and the page size 50,
    returns without error the channels of pages [0 .. k-1] in arrival order,
    each reduced to its id and name, and issues exactly [k+1] requests: those
    for pages [0 .. k].  Any fuel above [k] is enough.  The pages may hold
    any number of channels; at most 50 is a special case. *)
Theorem lister_returns_pages_in_arrival_order
    (mmClient : Client4) (teamID : string) (log : Log) (k fuel : nat) :
  firstEmptyAt (channelPage mmClient teamID) k ->
  (k < fuel)%nat ->
  exists allChannels requests,
    getPublicChannelsForTeam fuel mmClient teamID log =
      Some ((allChannels, None), log ++ requests) /\
    elems allChannels =
      map toChannel (pagesBefore (channelPage mmClient teamID) k) /\
    requests = map (channelRequest teamID) (seq 0 (S k)) /\
    length requests = S k /\
    (Z.of_nat k < 2 ^ 63 ->
     requests =
       map (fun i => ReqGetPublicChannelsForTeam teamID (Z.of_nat i) 50 "")
         (seq 0 (S k))).
Proof.
  intros Hempty Hk.
  destruct (lister_returns_at_empty mmClient teamID log k fuel Hempty Hk)
    as (allChannels & Hrun & Hel).
  exists allChannels, (map (channelRequest teamID) (seq 0 (S k))).
  split; [exact Hrun | split; [exact Hel | split; [reflexivity |]]].
  split; [now rewrite length_map, length_seq |].
  intros Hbound. apply map_ext_in. intros i Hi.
  apply in_seq in Hi. unfold channelRequest.
  rewrite pageNumber_small by lia. reflexivity.
Qed.

Lemma lister_returns_pages_in_arrival_order_witness :
  firstEmptyAt (channelPage exampleClient "t-eng") 2 /\
  exists allChannels,
    getPublicChannelsForTeam 3 exampleClient "t-eng" [] =
      Some ((allChannels, None),
            [ReqGetPublicChannelsForTeam "t-eng" 0 50 "";
             ReqGetPublicChannelsForTeam "t-eng" 1 50 "";
             ReqGetPublicChannelsForTeam "t-eng" 2 50 ""]) /\
    elems allChannels =
      [ {| Channel.ID := "c-general"; Channel.Name := "general" |};
        {| Channel.ID := "c-random"; Channel.Name := "random" |} ].
Proof.
  assert (H : firstEmptyAt (channelPage exampleClient "t-eng") 2)
    by concrete_first_empty.
  split; [exact H |].
  destruct (lister_returns_pages_in_arrival_order exampleClient "t-eng" [] 2 3 H
              ltac:(lia))
    as (allChannels & requests & Hrun & Hel & Hreq & _).
  exists allChannels. subst requests. split; [exact Hrun | exact Hel].
Defined.

(** C8.  The pagination loop of the lister leaves (some fuel is enough for
    [getPublicChannelsForTeam] to return) if and only if some page of the
    sequence of replies is empty or fails.  In particular it leaves when
    some page succeeds and is empty, and it never leaves (no fuel is ever
    enough) when every page succeeds and is not empty. *)
Theorem lister_terminates_iff_some_page_stops
    (mmClient : Client4) (teamID : string) (log : Log) :
  ((exists fuel result,
      getPublicChannelsForTeam fuel mmClient teamID log = Some result)
   <->
   (exists n, payload (channelPage mmClient teamID n) = [] \/
              failed (channelPage mmClient teamID n)))
  /\
  ((exists n, succeeded (channelPage mmClient teamID n) /\
              payload (channelPage mmClient teamID n) = []) ->
   exists fuel result,
     getPublicChannelsForTeam fuel mmClient teamID log = Some result)
  /\
  ((forall n, succeeded (channelPage mmClient teamID n) /\
              payload (channelPage mmClient teamID n) <> []) ->
   forall fuel, getPublicChannelsForTeam fuel mmClient teamID log = None).
Proof.
  assert (Hstop : forall n,
             payload (channelPage mmClient teamID n) = [] \/
             failed (channelPage mmClient teamID n) ->
             exists fuel result,
               getPublicChannelsForTeam fuel mmClient teamID log = Some result).
  { intros n Hn.
    destruct (first_stop (channelPage mmClient teamID) (S n))
      as [Hfull | (m & Hm & Hfull & [Hf | [Hs Hnil]])].
    - exfalso. destruct (Hfull n ltac:(lia)) as [Hs Hne].
      destruct Hn as [Hnil | Hf]; [contradiction |].
      apply failed_iff_not_succeeded in Hf. contradiction.
    - exists (S m). eexists.
      apply (lister_returns_at_failure mmClient teamID log m (S m));
        [split; assumption | lia].
    - destruct (lister_returns_at_empty mmClient teamID log m (S m))
        as (acc & Hrun & _); [split; [assumption | split; assumption] | lia |].
      exists (S m). eexists. exact Hrun. }
  split; [split | split].
  - intros (fuel & result & Hrun).
    apply lister_returns_inv in Hrun.
    destruct Hrun as (n & _ & _ & _ & [[Hf _] | (_ & Hnil & _)]);
      exists n; [right | left]; assumption.
  - intros (n & Hn). apply (Hstop n Hn).
  - intros (n & _ & Hnil). apply (Hstop n). left. exact Hnil.
  - intros Hall fuel. apply lister_out_of_fuel. intros i _. apply Hall.
Qed.

Lemma lister_terminates_iff_some_page_stops_witness :
  (exists fuel result,
     getPublicChannelsForTeam fuel exampleClient "t-eng" [] = Some result) /\
  (forall fuel, getPublicChannelsForTeam fuel endlessClient "t-eng" [] = None).
Proof.
  split.
  - apply (lister_terminates_iff_some_page_stops exampleClient "t-eng" []).
    exists 2%nat. split; [split |]; reflexivity.
  - apply (lister_terminates_iff_some_page_stops endlessClient "t-eng" []).
    intros n. split; [split; reflexivity | discriminate].
Defined.

(** ** Failed pages and statuses other than 200 *)

Lemma lister_error_is_nil mmClient teamID log fuel allChannels e log' :
  getPublicChannelsForTeam fuel mmClient teamID log =
    Some ((allChannels, Some e), log') ->
  allChannels = nilSlice.
Proof.
  intros Hrun. apply lister_returns_inv in Hrun. simpl in Hrun.
  destruct Hrun as (n & _ & _ & _ & [[_ Heq] | (_ & _ & Hnone & _)]);
    congruence.
Qed.

Lemma collector_error_is_nil mmClient channels includeBots log fuel allUsers e log' :
  getUsersInChannels fuel mmClient channels includeBots log =
    Some ((allUsers, Some e), log') ->
  allUsers = nilSlice.
Proof.
  intros Hrun. apply range_returns_inv in Hrun. simpl in Hrun.
  destruct Hrun as [(Hnone & _) | (before & channel & after & n & _ & _ & _ & Heq)];
    congruence.
Qed.

(** C4.  When a page request fails (a transport error or a status other than
    200) the lister and the collector return the error of that page together
    with the nil slice: nothing that earlier pages, or for the collector
    earlier channels, contributed is returned.  The third and fourth parts
    say the same of every return: an error never comes with a non-nil
    result. *)
Theorem failed_page_discards_partial_result
    (mmClient : Client4) (fuel : nat) (log : Log) :
  (forall teamID n,
     firstFailureAt (channelPage mmClient teamID) n -> (n < fuel)%nat ->
     exists log',
       getPublicChannelsForTeam fuel mmClient teamID log =
         Some ((nilSlice, Some (failure (channelPage mmClient teamID n))), log'))
  /\
  (forall includeBots channels before channel after n,
     elems channels = before ++ channel :: after ->
     Forall (fun channel' =>
               exists k, (k < fuel)%nat /\
                         firstEmptyAt (userPage mmClient channel') k) before ->
     firstFailureAt (userPage mmClient channel) n -> (n < fuel)%nat ->
     exists log',
       getUsersInChannels fuel mmClient channels includeBots log =
         Some ((nilSlice, Some (failure (userPage mmClient channel n))), log'))
  /\
  (forall teamID allChannels e log',
     getPublicChannelsForTeam fuel mmClient teamID log =
       Some ((allChannels, Some e), log') ->
     allChannels = nilSlice)
  /\
  (forall includeBots channels allUsers e log',
     getUsersInChannels fuel mmClient channels includeBots log =
       Some ((allUsers, Some e), log') ->
     allUsers = nilSlice).
Proof.
  split; [| split; [| split]].
  - intros teamID n Hfail Hn. eexists.
    apply lister_returns_at_failure; assumption.
  - intros includeBots channels before channel after n Hch Hbefore Hfail Hn.
    unfold getUsersInChannels. rewrite Hch.
    apply range_fails; assumption.
  - intros teamID allChannels e log'. apply lister_error_is_nil.
  - intros includeBots channels allUsers e log'. apply collector_error_is_nil.
Qed.

Lemma failed_page_discards_partial_result_witness :
  (exists log',
     getPublicChannelsForTeam 2 brokenClient "t-eng" [] =
       Some ((nilSlice, Some "connection refused"), log'))
  /\
  (exists log',
     getUsersInChannels 2 brokenClient
       (Slice [toChannel general; toChannel random]) true [] =
       Some ((nilSlice, Some "connection refused"), log')).
Proof.
  destruct (failed_page_discards_partial_result brokenClient 2 []) as (H1 & H2 & _).
  split.
  - apply (H1 "t-eng" 1%nat); [concrete_first_failure | lia].
  - apply (H2 true (Slice [toChannel general; toChannel random])
             [toChannel general] (toChannel random) [] 0%nat).
    + reflexivity.
    + constructor; [| constructor].
      exists 1%nat. split; [lia | concrete_first_empty].
    + concrete_first_failure.
    + lia.
Defined.

(** C9.  Success needs status 200 exactly.  [getTeamID] returns no error if
    and only if the reply has no transport error and status 200; with any
    other status (201 and 204 included) it returns the empty identifier and
    an error.  The lister and the collector return nil and an error as soon
    as a page they request has a status other than 200, and when they return
    no error every page they consumed had status 200. *)
Theorem status_other_than_200_is_an_error
    (mmClient : Client4) (fuel : nat) (log : Log) :
  (forall teamName,
     (snd (fst (getTeamID mmClient teamName log)) = None <->
      succeeded (GetTeamByName mmClient teamName ""))
     /\
     (model.StatusCode (response (GetTeamByName mmClient teamName "")) <> 200 ->
      exists e,
        getTeamID mmClient teamName log =
          (("", Some e), log ++ [ReqGetTeamByName teamName ""])))
  /\
  (forall teamID n,
     fullBefore (channelPage mmClient teamID) n ->
     model.StatusCode (response (channelPage mmClient teamID n)) <> 200 ->
     (n < fuel)%nat ->
     exists e log',
       getPublicChannelsForTeam fuel mmClient teamID log =
         Some ((nilSlice, Some e), log'))
  /\
  (forall includeBots channels before channel after n,
     elems channels = before ++ channel :: after ->
     Forall (fun channel' =>
               exists k, (k < fuel)%nat /\
                         firstEmptyAt (userPage mmClient channel') k) before ->
     fullBefore (userPage mmClient channel) n ->
     model.StatusCode (response (userPage mmClient channel n)) <> 200 ->
     (n < fuel)%nat ->
     exists e log',
       getUsersInChannels fuel mmClient channels includeBots log =
         Some ((nilSlice, Some e), log'))
  /\
  (forall teamID allChannels log',
     getPublicChannelsForTeam fuel mmClient teamID log =
       Some ((allChannels, None), log') ->
     exists k,
       log' = log ++ map (channelRequest teamID) (seq 0 (S k)) /\
       forall i, (i <= k)%nat ->
         model.StatusCode (response (channelPage mmClient teamID i)) = 200)
  /\
  (forall includeBots channels allUsers log',
     getUsersInChannels fuel mmClient channels includeBots log =
       Some ((allUsers, None), log') ->
     Forall (fun channel =>
               exists k,
                 firstEmptyAt (userPage mmClient channel) k /\
                 forall i, (i <= k)%nat ->
                   model.StatusCode (response (userPage mmClient channel i)) = 200)
            (elems channels)).
Proof.
  assert (Hupto : forall A (page : nat -> Reply (list A)) k,
             firstEmptyAt page k ->
             forall i, (i <= k)%nat -> model.StatusCode (response (page i)) = 200).
  { intros A page k (Hfull & [_ Hs] & _) i Hi.
    destruct (Nat.eq_dec i k) as [-> | Hne]; [exact Hs |].
    apply (Hfull i). lia. }
  split; [| split; [| split; [| split]]].
  - intros teamName. unfold getTeamID, succeeded.
    destruct (err (GetTeamByName mmClient teamName "")) as [e|] eqn:He.
    + split; [split; [discriminate | intros [H _]; discriminate] |].
      intros _. exists e. reflexivity.
    + destruct (Z.eqb_spec
                  (model.StatusCode (response (GetTeamByName mmClient teamName ""))) 200)
        as [Hs | Hs]; simpl.
      * split; [split; [auto | reflexivity] | contradiction].
      * split; [split; [discriminate | intros [_ H]; contradiction] |].
        intros _. eexists. reflexivity.
  - intros teamID n Hfull Hstatus Hn. do 2 eexists.
    apply (lister_returns_at_failure mmClient teamID log n fuel); [| exact Hn].
    split; [exact Hfull | right; exact Hstatus].
  - intros includeBots channels before channel after n Hch Hbefore Hfull Hstatus Hn.
    unfold getUsersInChannels. rewrite Hch.
    destruct (range_fails fuel mmClient includeBots before channel after n Hbefore)
      with (acc := @nilSlice User.t) (log := log) as (log' & Hrun);
      [split; [exact Hfull | right; exact Hstatus] | exact Hn |].
    do 2 eexists. exact Hrun.
  - intros teamID allChannels log' Hrun.
    apply lister_returns_inv in Hrun. simpl in Hrun.
    destruct Hrun as (n & _ & Hfull & Hlog & [[_ Heq] | (Hs & Hnil & _)]);
      [congruence |].
    exists n. split; [exact Hlog |].
    apply Hupto. split; [exact Hfull | split; assumption].
  - intros includeBots channels allUsers log' Hrun.
    apply range_returns_inv in Hrun. simpl in Hrun.
    destruct Hrun as [(_ & Hall & _) | (before & channel & after & n & _ & _ & _ & Heq)];
      [| congruence].
    eapply Forall_impl; [exact Hall |].
    intros channel (k & _ & Hk). exists k. split; [exact Hk | apply Hupto, Hk].
Qed.

Lemma status_other_than_200_is_an_error_witness :
  getTeamID (statusClient 201) "engineering" [] =
    (("", Some "bad HTTP response"), [ReqGetTeamByName "engineering" ""])
  /\
  (exists e log',
     getPublicChannelsForTeam 2 (statusClient 204) "t-eng" [] =
       Some ((nilSlice, Some e), log'))
  /\
  (exists e log',
     getUsersInChannels 2 (statusClient 204)
       (Slice [toChannel general; toChannel random]) false [] =
       Some ((nilSlice, Some e), log')).
Proof.
  split; [| split].
  - destruct (status_other_than_200_is_an_error (statusClient 201) 0 [])
      as (H1 & _).
    destruct (H1 "engineering") as (_ & H). destruct H as (e & He).
    + discriminate.
    + reflexivity.
  - destruct (status_other_than_200_is_an_error (statusClient 204) 2 [])
      as (_ & H2 & _).
    apply (H2 "t-eng" 1%nat); [concrete_full | discriminate | lia].
  - destruct (status_other_than_200_is_an_error (statusClient 204) 2 [])
      as (_ & _ & H3 & _).
    apply (H3 false (Slice [toChannel general; toChannel random])
             [toChannel general] (toChannel random) [] 0%nat).
    + reflexivity.
    + constructor; [| constructor].
      exists 1%nat. split; [lia | concrete_first_empty].
    + concrete_full.
    + discriminate.
    + lia.
Defined.

(** ** The two checks of the member collector *)

Lemma sublist_filter_bool {A} (f : A -> bool) (l : list A) :
  sublist (List.filter f l) l.
Proof.
  induction l as [|x l IH]; simpl; [constructor |].
  destruct (f x); [apply sublist_skip | apply sublist_cons]; exact IH.
Qed.

Lemma passes_spec includeBots user :
  passes includeBots user = true <->
  model.User.DeleteAt user = 0 /\
  (model.User.IsBot user = true -> includeBots = true).
Proof.
  unfold passes. rewrite andb_true_iff, Z.eqb_eq, negb_true_iff, andb_false_iff,
    negb_false_iff.
  split; intros [H1 H2]; (split; [exact H1 |]).
  - intros Hbot. destruct H2 as [H2 | H2]; congruence.
  - destruct (model.User.IsBot user); [right; auto | left; reflexivity].
Qed.

(** The records the collector returns are those of the listed accounts that
    pass the two checks, in arrival order; on an error there are none. *)
Lemma collector_returns_kept mmClient fuel channels includeBots log allUsers e log' :
  getUsersInChannels fuel mmClient channels includeBots log =
    Some ((allUsers, e), log') ->
  elems allUsers =
    match e with
    | None =>
        map recordOf
          (List.filter (fun p => passes includeBots (snd p))
             (membership fuel mmClient (elems channels)))
    | Some _ => []
    end.
Proof.
  intros Hrun. apply range_returns_inv in Hrun. simpl in Hrun.
  destruct Hrun as [(-> & _ & Hel) | (before & channel & after & n & _ & _ & _ & Heq)].
  - exact Hel.
  - injection Heq as -> ->. reflexivity.
Qed.

(** The collector does return when every channel has a first empty page
    within the fuel, and then it returns no error. *)
Lemma collector_returns mmClient fuel channels includeBots log :
  Forall (fun channel =>
            exists k, (k < fuel)%nat /\ firstEmptyAt (userPage mmClient channel) k)
         (elems channels) ->
  exists allUsers log',
    getUsersInChannels fuel mmClient channels includeBots log =
      Some ((allUsers, None), log') /\
    elems allUsers =
      map recordOf
        (List.filter (fun p => passes includeBots (snd p))
           (membership fuel mmClient (elems channels))).
Proof.
  intros Hall.
  destruct (range_returns fuel mmClient includeBots (elems channels) Hall nilSlice log)
    as (allUsers & log' & Hrun).
  exists allUsers, log'. split; [exact Hrun |].
  apply (collector_returns_kept mmClient fuel channels includeBots log allUsers None log').
  exact Hrun.
Qed.

(** C2.  Whatever the channels, the pages and the flag, every record the
    collector returns is built from an account the remote system listed with
    deactivation timestamp 0: the output is the image of a sublist [kept] of
    the listed accounts, and no listed account with a non-zero timestamp is
    in [kept]. *)
Theorem deactivated_accounts_never_collected
    (mmClient : Client4) (fuel : nat) (channels : slice Channel.t)
    (includeBots : bool) (log : Log)
    (allUsers : slice User.t) (e : option error) (log' : Log) :
  getUsersInChannels fuel mmClient channels includeBots log =
    Some ((allUsers, e), log') ->
  exists kept : list (Channel.t * model.User.t),
    sublist kept (membership fuel mmClient (elems channels)) /\
    elems allUsers = map recordOf kept /\
    Forall (fun p => model.User.DeleteAt (snd p) = 0) kept /\
    (forall p, In p (membership fuel mmClient (elems channels)) ->
               model.User.DeleteAt (snd p) <> 0 -> ~ In p kept).
Proof.
  intros Hrun. apply collector_returns_kept in Hrun.
  assert (Hkept : forall p,
             In p (List.filter (fun p => passes includeBots (snd p))
                     (membership fuel mmClient (elems channels))) ->
             model.User.DeleteAt (snd p) = 0).
  { intros p Hp. apply List.filter_In in Hp. destruct Hp as [_ Hp].
    apply passes_spec in Hp. tauto. }
  destruct e as [e|].
  - exists []. split; [apply sublist_nil_l | split; [exact Hrun |]].
    split; [constructor | intros p _ _ []].
  - exists (List.filter (fun p => passes includeBots (snd p))
              (membership fuel mmClient (elems channels))).
    split; [apply sublist_filter_bool | split; [exact Hrun |]].
    split.
    + apply List.Forall_forall. exact Hkept.
    + intros p _ Hdel Hin. apply Hdel, Hkept, Hin.
Qed.

Lemma deactivated_accounts_never_collected_witness :
  getUsersInChannels 2 exampleClient (Slice [toChannel general; toChannel random])
    true [] =
    Some ((Slice [toUser (toChannel general) alice; toUser (toChannel general) bob;
                  toUser (toChannel random) alice], None),
          [ReqGetUsersInChannel "c-general" 0 50 "";
           ReqGetUsersInChannel "c-general" 1 50 "";
           ReqGetUsersInChannel "c-random" 0 50 "";
           ReqGetUsersInChannel "c-random" 1 50 ""])
  /\
  exists kept : list (Channel.t * model.User.t),
    [toUser (toChannel general) alice; toUser (toChannel general) bob;
     toUser (toChannel random) alice] = map recordOf kept /\
    ~ In (toChannel general, carol) kept /\
    ~ In (toChannel general, dave) kept.
Proof.
  assert (Hrun :
    getUsersInChannels 2 exampleClient (Slice [toChannel general; toChannel random])
      true [] =
    Some ((Slice [toUser (toChannel general) alice; toUser (toChannel general) bob;
                  toUser (toChannel random) alice], None),
          [ReqGetUsersInChannel "c-general" 0 50 "";
           ReqGetUsersInChannel "c-general" 1 50 "";
           ReqGetUsersInChannel "c-random" 0 50 "";
           ReqGetUsersInChannel "c-random" 1 50 ""])) by reflexivity.
  split; [exact Hrun |].
  destruct (deactivated_accounts_never_collected _ _ _ _ _ _ _ _ Hrun)
    as (kept & _ & Hel & _ & Hnot).
  exists kept. split; [exact Hel |].
  split; apply Hnot; simpl; try discriminate; auto 6.
Defined.

(** The worked example of the specification: [general] lists alice and the
    bot bob (and here two deactivated accounts as well), [random] lists
    alice.  Without bots the collector returns two records, with bots
    three. *)
Lemma worked_example_of_the_specification :
  (fst <$> getUsersInChannels 2 exampleClient
             (Slice [toChannel general; toChannel random]) false []) =
    Some (Slice [toUser (toChannel general) alice; toUser (toChannel random) alice],
          None)
  /\
  (fst <$> getUsersInChannels 2 exampleClient
             (Slice [toChannel general; toChannel random]) true []) =
    Some (Slice [toUser (toChannel general) alice; toUser (toChannel general) bob;
                 toUser (toChannel random) alice],
          None).
Proof. split; reflexivity. Qed.

(** C3, as the code has it.  When the collector returns without error, a bot
    account that the remote system listed is among the accounts whose records
    are returned if and only if the flag is true and the account's
    deactivation timestamp is 0.  (The check of line 201 comes first: a
    deactivated bot is left out whatever the flag.) *)
Theorem active_bots_collected_iff_flag
    (mmClient : Client4) (fuel : nat) (channels : slice Channel.t)
    (includeBots : bool) (log : Log) (allUsers : slice User.t) (log' : Log) :
  getUsersInChannels fuel mmClient channels includeBots log =
    Some ((allUsers, None), log') ->
  exists kept : list (Channel.t * model.User.t),
    sublist kept (membership fuel mmClient (elems channels)) /\
    elems allUsers = map recordOf kept /\
    (forall p, In p (membership fuel mmClient (elems channels)) ->
               model.User.IsBot (snd p) = true ->
               (In p kept <->
                includeBots = true /\ model.User.DeleteAt (snd p) = 0)).
Proof.
  intros Hrun. apply collector_returns_kept in Hrun.
  exists (List.filter (fun p => passes includeBots (snd p))
            (membership fuel mmClient (elems channels))).
  split; [apply sublist_filter_bool | split; [exact Hrun |]].
  intros p Hin Hbot. rewrite List.filter_In, passes_spec. tauto.
Qed.

Lemma active_bots_collected_iff_flag_witness :
  (exists kept : list (Channel.t * model.User.t),
     [toUser (toChannel general) alice; toUser (toChannel general) bob] =
       map recordOf kept /\
     In (toChannel general, bob) kept /\ ~ In (toChannel general, dave) kept)
  /\
  (exists kept : list (Channel.t * model.User.t),
     [toUser (toChannel general) alice] = map recordOf kept /\
     ~ In (toChannel general, bob) kept).
Proof.
  assert (Hin : forall user, In user [alice; bob; carol; dave] ->
                  In (toChannel general, user)
                    (membership 2 exampleClient [toChannel general])).
  { intros user Hu. change (membership 2 exampleClient [toChannel general])
      with (map (pair (toChannel general)) [alice; bob; carol; dave]).
    apply in_map, Hu. }
  split.
  - destruct (active_bots_collected_iff_flag exampleClient 2
                (Slice [toChannel general]) true []
                (Slice [toUser (toChannel general) alice;
                        toUser (toChannel general) bob])
                [ReqGetUsersInChannel "c-general" 0 50 "";
                 ReqGetUsersInChannel "c-general" 1 50 ""] eq_refl)
      as (kept & _ & Hel & Hiff).
    exists kept. split; [exact Hel | split].
    + apply Hiff; [apply Hin; simpl; auto | reflexivity | split; reflexivity].
    + intros Hd. apply Hiff in Hd; [| apply Hin; simpl; auto | reflexivity].
      destruct Hd as [_ Hd]. discriminate.
  - destruct (active_bots_collected_iff_flag exampleClient 2
                (Slice [toChannel general]) false []
                (Slice [toUser (toChannel general) alice])
                [ReqGetUsersInChannel "c-general" 0 50 "";
                 ReqGetUsersInChannel "c-general" 1 50 ""] eq_refl)
      as (kept & _ & Hel & Hiff).
    exists kept. split; [exact Hel |].
    intros Hb. apply Hiff in Hb; [| apply Hin; simpl; auto | reflexivity].
    destruct Hb as [Hb _]. discriminate.
Defined.

(** C3, as it is stated, fails: with the flag true, the deactivated bot
    [dave] is listed for [general], the collector returns without error, and
    no record of [dave] is in what it returns. *)
Lemma deactivated_bot_absent_with_flag_true :
  getUsersInChannels 2 exampleClient (Slice [toChannel general]) true [] =
    Some ((Slice [toUser (toChannel general) alice; toUser (toChannel general) bob],
           None),
          [ReqGetUsersInChannel "c-general" 0 50 "";
           ReqGetUsersInChannel "c-general" 1 50 ""])
  /\ In dave (payload (userPage exampleClient (toChannel general) 0))
  /\ model.User.IsBot dave = true
  /\ ~ (In (toUser (toChannel general) dave)
          [toUser (toChannel general) alice; toUser (toChannel general) bob]
        <-> true = true).
Proof.
  split; [reflexivity | split; [simpl; auto | split; [reflexivity |]]].
  intros [_ H]. destruct (H eq_refl) as [Hd | [Hd | []]]; discriminate.
Qed.

(** ** The JSON serializer *)

Lemma usersOf_app channelName (l1 l2 : list User.t) :
  usersOf channelName (l1 ++ l2) = usersOf channelName l1 ++ usersOf channelName l2.
Proof. apply List.filter_app. Qed.

Lemma groupUsers_fold (rest : list User.t) :
  forall (seen : list User.t) (m : gmap string (slice User.t)),
    (forall k, m !! k = entryOf k seen) ->
    forall k,
      fold_left
        (fun channelMap user =>
           <[User.ChannelName user :=
               append (mapIndex channelMap (User.ChannelName user)) user]> channelMap)
        rest m !! k = entryOf k (seen ++ rest).
Proof.
  induction rest as [|u rest IH]; intros seen m Hm k; simpl.
  - rewrite app_nil_r. apply Hm.
  - replace (seen ++ u :: rest) with ((seen ++ [u]) ++ rest)
      by (rewrite <- app_assoc; reflexivity).
    apply IH. clear k. intros k.
    unfold entryOf. rewrite usersOf_app. unfold usersOf at 2. simpl.
    destruct (String.eqb_spec (User.ChannelName u) k) as [<- | Hne].
    + rewrite lookup_insert_eq. unfold mapIndex, append. rewrite Hm. unfold entryOf.
      destruct (usersOf (User.ChannelName u) seen) as [|x l]; reflexivity.
    + rewrite lookup_insert_ne by exact Hne. rewrite Hm, app_nil_r. reflexivity.
Qed.

Lemma groupUsers_lookup (users : list User.t) (k : string) :
  groupUsers users !! k = entryOf k users.
Proof.
  unfold groupUsers.
  apply (groupUsers_fold users [] (empty : gmap string (slice User.t))).
  intros k'. rewrite lookup_empty. reflexivity.
Qed.

Lemma entryOf_Some channelName users v :
  entryOf channelName users = Some v ->
  v = Slice (usersOf channelName users) /\ usersOf channelName users <> [].
Proof.
  unfold entryOf. destruct (usersOf channelName users) as [|x l]; [discriminate |].
  intros [= <-]. split; [reflexivity | discriminate].
Qed.

Lemma In_usersOf channelName users u :
  In u (usersOf channelName users) <-> In u users /\ User.ChannelName u = channelName.
Proof. unfold usersOf. rewrite List.filter_In, String.eqb_eq. reflexivity. Qed.

Lemma usersOf_nonempty channelName users :
  usersOf channelName users <> [] <-> In channelName (map User.ChannelName users).
Proof.
  rewrite in_map_iff. split.
  - destruct (usersOf channelName users) as [|u l] eqn:E; [congruence |].
    intros _. exists u. assert (H : In u (usersOf channelName users)) by (rewrite E; left; reflexivity).
    apply In_usersOf in H. tauto.
  - intros (u & Hname & Hin) E.
    assert (H : In u (usersOf channelName users)) by (apply In_usersOf; tauto).
    rewrite E in H. exact H.
Qed.

Lemma list_sum_Permutation (l1 l2 : list nat) :
  Permutation l1 l2 -> list_sum l1 = list_sum l2.
Proof. induction 1; simpl; lia. Qed.

Lemma mapCount_insert (m : gmap string (slice User.t)) k u :
  mapCount (<[k := append (mapIndex m k) u]> m) = S (mapCount m).
Proof.
  unfold mapCount, mapIndex.
  destruct (m !! k) as [v|] eqn:Hk; simpl.
  - rewrite <- insert_delete_eq.
    rewrite (list_sum_Permutation _ _
               (Permutation_map _ (map_to_list_insert (delete k m) k _ (lookup_delete_eq m k)))).
    rewrite <- (list_sum_Permutation _ _
                  (Permutation_map _ (map_to_list_delete m k v Hk))).
    simpl. unfold len. simpl. rewrite length_app. simpl. lia.
  - rewrite (list_sum_Permutation _ _
               (Permutation_map _ (map_to_list_insert m k _ Hk))).
    reflexivity.
Qed.

Lemma mapCount_groupUsers (users : list User.t) :
  mapCount (groupUsers users) = length users.
Proof.
  unfold groupUsers.
  assert (H : forall rest (m : gmap string (slice User.t)),
             mapCount
               (fold_left
                  (fun channelMap user =>
                     <[User.ChannelName user :=
                         append (mapIndex channelMap (User.ChannelName user)) user]>
                       channelMap)
                  rest m) = (length rest + mapCount m)%nat).
  { induction rest as [|u rest IH]; intros m; simpl; [reflexivity |].
    rewrite IH, mapCount_insert. lia. }
  rewrite H. unfold mapCount. rewrite map_to_list_empty. simpl. lia.
Qed.

Lemma buildJSONOutput_fold (visits : list (string * slice User.t)) :
  forall output,
    JSONOutput.Channels
      (fold_left
         (fun output entry =>
            {| JSONOutput.Channels :=
                 append (JSONOutput.Channels output)
                   {| JSONChannel.Channel :=
                        {| ChannelWithUsers.ChannelName := fst entry;
                           ChannelWithUsers.Users := snd entry |} |} |})
         visits output) =
    match visits with
    | [] => JSONOutput.Channels output
    | _ =>
        Slice (elems (JSONOutput.Channels output) ++
               map (fun entry => {| JSONChannel.Channel := groupOfEntry entry |}) visits)
    end.
Proof.
  induction visits as [|entry visits IH]; intros output; [reflexivity |].
  simpl. rewrite IH. simpl.
  destruct visits as [|entry' visits]; [reflexivity |].
  rewrite <- app_assoc. reflexivity.
Qed.

Lemma groupsOf_buildJSONOutput (visits : list (string * slice User.t)) :
  groupsOf (buildJSONOutput visits) = map groupOfEntry visits.
Proof.
  unfold groupsOf, buildJSONOutput. rewrite buildJSONOutput_fold.
  destruct visits as [|entry visits]; [reflexivity |].
  simpl. rewrite map_map. reflexivity.
Qed.

Lemma In_rangeOrder runtime (users : list User.t) (entry : string * slice User.t) :
  In entry (rangeOrder runtime (groupUsers users)) <->
  snd entry = Slice (usersOf (fst entry) users) /\ usersOf (fst entry) users <> [].
Proof.
  destruct entry as [k v]. simpl.
  rewrite <- list_elem_of_In.
  rewrite (rangeOrder_each_once runtime (groupUsers users)).
  rewrite elem_of_map_to_list, groupUsers_lookup.
  split.
  - apply entryOf_Some.
  - intros [-> Hne]. unfold entryOf.
    destruct (usersOf k users); [congruence | reflexivity].
Qed.

Lemma NoDup_rangeOrder_names runtime (m : gmap string (slice User.t)) :
  NoDup (map fst (rangeOrder runtime m)).
Proof.
  rewrite (Permutation_map fst (rangeOrder_each_once runtime m)).
  apply (NoDup_fst_map_to_list m).
Qed.

Lemma outputJSON_written os runtime users filename written :
  outputJSON os runtime users filename = (None, written) ->
  written = [(sinkOf filename, marshalJSONOutput (encodedOutput runtime users))].
Proof.
  unfold outputJSON, sinkOf, encodedOutput.
  destruct (String.eqb filename ""); simpl.
  - destruct (Write_error os Stdout 0); intros [= <-]. reflexivity.
  - destruct (os_Create os filename); [discriminate |].
    destruct (Write_error os (Created filename) 0); intros [= <-]. reflexivity.
Qed.

Lemma outputJSON_succeeds os runtime users filename :
  sinkWorks os filename ->
  outputJSON os runtime users filename =
    (None, [(sinkOf filename, marshalJSONOutput (encodedOutput runtime users))]).
Proof.
  unfold sinkWorks, outputJSON, sinkOf, encodedOutput.
  intros [Hopen Hwrite]. specialize (Hwrite 0%nat).
  destruct (String.eqb_spec filename "") as [-> | Hne]; simpl.
  - simpl in Hwrite. rewrite Hwrite. reflexivity.
  - destruct Hopen as [-> | Hopen]; [contradiction |].
    rewrite Hopen, Hwrite. reflexivity.
Qed.

Lemma groups_of_encodedOutput runtime users :
  groupsOf (encodedOutput runtime users) =
  map groupOfEntry (rangeOrder runtime (groupUsers users)).
Proof. apply groupsOf_buildJSONOutput. Qed.

Lemma In_groups runtime users g :
  In g (groupsOf (encodedOutput runtime users)) <->
  ChannelWithUsers.Users g = Slice (usersOf (ChannelWithUsers.ChannelName g) users) /\
  usersOf (ChannelWithUsers.ChannelName g) users <> [].
Proof.
  rewrite groups_of_encodedOutput, in_map_iff. split.
  - intros (entry & <- & Hin). apply In_rangeOrder in Hin. exact Hin.
  - intros H. exists (ChannelWithUsers.ChannelName g, ChannelWithUsers.Users g).
    split; [destruct g; reflexivity | apply In_rangeOrder; exact H].
Qed.

Lemma group_names runtime users :
  map ChannelWithUsers.ChannelName (groupsOf (encodedOutput runtime users)) =
  map fst (rangeOrder runtime (groupUsers users)).
Proof. rewrite groups_of_encodedOutput, map_map. reflexivity. Qed.

(** C6.  In the document [outputJSON] writes, the channel groups have
    pairwise different names, every input record is in exactly one group,
    that group has the record's channel name, the groups hold input records
    only, and the user counts of the groups add up to the number of input
    records.  This holds for every order in which the runtime ranges over
    the map. *)
Theorem json_groups_partition_records
    (os : OS) (runtime : MapRange) (users : list User.t) (filename : string) :
  let output := encodedOutput runtime users in
  let groups := groupsOf output in
  (forall written,
     outputJSON os runtime users filename = (None, written) ->
     written = [(sinkOf filename, marshalJSONOutput output)])
  /\
  (sinkWorks os filename ->
   outputJSON os runtime users filename =
     (None, [(sinkOf filename, marshalJSONOutput output)]))
  /\
  NoDup (map ChannelWithUsers.ChannelName groups)
  /\
  (forall u, In u users ->
     exists g,
       In g groups /\
       In u (elems (ChannelWithUsers.Users g)) /\
       ChannelWithUsers.ChannelName g = User.ChannelName u /\
       forall g', In g' groups -> In u (elems (ChannelWithUsers.Users g')) -> g' = g)
  /\
  (forall g u, In g groups -> In u (elems (ChannelWithUsers.Users g)) ->
     In u users /\ User.ChannelName u = ChannelWithUsers.ChannelName g)
  /\
  userCount groups = length users.
Proof.
  intros output groups. subst output groups.
  split; [apply outputJSON_written |].
  split; [apply outputJSON_succeeds |].
  split; [rewrite group_names; apply NoDup_rangeOrder_names |].
  split; [| split].
  - intros u Hu.
    assert (Hin : In u (usersOf (User.ChannelName u) users))
      by (apply In_usersOf; split; [exact Hu | reflexivity]).
    exists {| ChannelWithUsers.ChannelName := User.ChannelName u;
              ChannelWithUsers.Users := Slice (usersOf (User.ChannelName u) users) |}.
    split; [| split; [exact Hin | split; [reflexivity |]]].
    + apply In_groups. simpl. split; [reflexivity |].
      intros E. rewrite E in Hin. exact Hin.
    + intros g' Hg' Hu'. apply In_groups in Hg'. destruct Hg' as [Hus _].
      rewrite Hus in Hu'. simpl in Hu'. apply In_usersOf in Hu'.
      destruct Hu' as [_ Hname]. destruct g' as [name' users']. simpl in *.
      subst name' users'. reflexivity.
  - intros g u Hg Hu. apply In_groups in Hg. destruct Hg as [Hus _].
    rewrite Hus in Hu. simpl in Hu. apply In_usersOf in Hu. exact Hu.
  - unfold userCount. rewrite groups_of_encodedOutput, map_map. simpl.
    rewrite (list_sum_Permutation _ _
               (Permutation_map _ (rangeOrder_each_once runtime (groupUsers users)))).
    apply mapCount_groupUsers.
Qed.

Lemma NoDup_firstSeen (names : list string) : NoDup (firstSeen names).
Proof.
  induction names as [|name names IH]; simpl; constructor.
  - rewrite list_elem_of_In, List.filter_In, String.eqb_refl.
    intros [_ H]. discriminate.
  - apply (sublist_NoDup _ (firstSeen names)); [exact IH | apply sublist_filter_bool].
Qed.

Lemma In_firstSeen (names : list string) (name : string) :
  In name (firstSeen names) <-> In name names.
Proof.
  induction names as [|first names IH]; simpl; [reflexivity |].
  rewrite List.filter_In, IH, negb_true_iff, String.eqb_neq.
  destruct (String.eqb_spec first name) as [-> | Hne]; [tauto |].
  split; [tauto |]. intros [H | H]; [tauto | right; split; [exact H | congruence]].
Qed.

(** C7, as the code has it.  The names of the channel groups are the distinct
    channel names of the input, each once, in the order in which the runtime
    ranges over the map (some permutation of the first-seen order), and
    within each group the records are those of that name in input order. *)
Theorem json_groups_keep_input_order_within_group
    (os : OS) (runtime : MapRange) (users : list User.t) (filename : string) :
  let output := encodedOutput runtime users in
  let groups := groupsOf output in
  (forall written,
     outputJSON os runtime users filename = (None, written) ->
     written = [(sinkOf filename, marshalJSONOutput output)])
  /\
  Permutation (map ChannelWithUsers.ChannelName groups)
    (firstSeen (map User.ChannelName users))
  /\
  (forall g, In g groups ->
     elems (ChannelWithUsers.Users g) =
       usersOf (ChannelWithUsers.ChannelName g) users).
Proof.
  intros output groups. subst output groups.
  split; [apply outputJSON_written | split].
  - apply NoDup_Permutation.
    + rewrite group_names. apply NoDup_rangeOrder_names.
    + apply NoDup_firstSeen.
    + intros name.
      rewrite !list_elem_of_In, In_firstSeen, <- usersOf_nonempty, in_map_iff. split.
      * intros (g & <- & Hg). apply In_groups in Hg. tauto.
      * intros Hne.
        exists {| ChannelWithUsers.ChannelName := name;
                  ChannelWithUsers.Users := Slice (usersOf name users) |}.
        split; [reflexivity | apply In_groups; simpl; auto].
  - intros g Hg. apply In_groups in Hg. destruct Hg as [-> _]. reflexivity.
Qed.

(** C7, as it is stated, fails: for records of [random], [general],
    [random], in this order, a runtime that ranges over the map in the order
    of [map_to_list] writes the group of [general] first. *)
Lemma json_groups_not_in_first_seen_order :
  firstSeen (map User.ChannelName randomFirst) = ["random"; "general"]
  /\
  map ChannelWithUsers.ChannelName (groupsOf (encodedOutput keyOrder randomFirst))
    = ["general"; "random"]
  /\
  map ChannelWithUsers.ChannelName (groupsOf (encodedOutput keyOrder randomFirst))
    <> firstSeen (map User.ChannelName randomFirst)
  /\
  outputJSON workingOS keyOrder randomFirst "" =
    (None,
     [(Stdout,
       JObject
         [("Channels",
           JArray
             [JObject
                [("Channel",
                  JObject
                    [("ChannelName", JString "general");
                     ("Users", JArray [marshalUser (record "general" "u-alice")])])];
              JObject
                [("Channel",
                  JObject
                    [("ChannelName", JString "random");
                     ("Users",
                      JArray [marshalUser (record "random" "u-alice");
                              marshalUser (record "random" "u-bob")])])]])])]).
Proof. split; [| split; [| split]]; vm_compute; solve [reflexivity | discriminate]. Qed.

(** Where no file can be created, [outputJSON] returns the wrapped error of
    [os.Create] and writes nothing, whatever the records. *)
Lemma outputJSON_create_fails :
  outputJSON readOnlyOS keyOrder [] "channels.json" =
    (Some "failed to create file: permission denied", []).
Proof. reflexivity. Qed.

(** C10.  For no records at all, on an operating system where the output can
    be opened and written, [outputJSON] returns no error and writes the
    document whose [Channels] field is [null]: the slice of groups is still
    the nil slice, so the field is not the empty array. *)
Theorem empty_input_encodes_null_channels
    (os : OS) (runtime : MapRange) (filename : string) :
  sinkWorks os filename ->
  outputJSON os runtime [] filename =
    (None, [(sinkOf filename, JObject [("Channels", JNull)])])
  /\ JSONOutput.Channels (encodedOutput runtime []) = nilSlice
  /\ marshalJSONOutput (encodedOutput runtime []) <> JObject [("Channels", JArray [])].
Proof.
  intros Hworks.
  assert (Hvisits : rangeOrder runtime (groupUsers []) = []).
  { apply Permutation_nil. symmetry.
    rewrite (rangeOrder_each_once runtime (groupUsers [])).
    unfold groupUsers. simpl. rewrite map_to_list_empty. reflexivity. }
  assert (Hout : encodedOutput runtime [] = {| JSONOutput.Channels := nilSlice |}).
  { unfold encodedOutput. rewrite Hvisits. reflexivity. }
  split; [| split].
  - rewrite (outputJSON_succeeds os runtime [] filename Hworks), Hout. reflexivity.
  - rewrite Hout. reflexivity.
  - rewrite Hout. discriminate.
Qed.

Lemma empty_input_encodes_null_channels_witness :
  sinkWorks workingOS "channels.json" /\
  outputJSON workingOS reverseKeyOrder [] "channels.json" =
    (None, [(Created "channels.json", JObject [("Channels", JNull)])]).
Proof.
  assert (H : sinkWorks workingOS "channels.json")
    by (split; [right; reflexivity | intros n; reflexivity]).
  split; [exact H |].
  apply (empty_input_encodes_null_channels workingOS reverseKeyOrder "channels.json" H).
Defined.

(** ** The CSV serializer *)

Lemma string_app_assoc (a b c : string) : ((a ++ b) ++ c = a ++ (b ++ c))%string.
Proof. induction a as [|x a IH]; simpl; [reflexivity | now rewrite IH]. Qed.

Lemma string_app_nil_r (a : string) : (a ++ EmptyString)%string = a.
Proof. induction a as [|x a IH]; simpl; [reflexivity | now rewrite IH]. Qed.

Lemma readBytes_app (a b : string) : forall r,
  readBytes r (a ++ b) =
  match readBytes r a with
  | Some r' => readBytes r' b
  | None => None
  end.
Proof.
  induction a as [|c a IH]; intros r; simpl; [reflexivity |].
  destruct (readByte r c) as [r'|]; [apply IH | reflexivity].
Qed.

Lemma plainByte_spec (c : ascii) :
  plainByte c = true ->
  Ascii.eqb c quoteChar = false /\ Ascii.eqb c Comma = false /\ Ascii.eqb c LF = false.
Proof.
  unfold plainByte. rewrite negb_true_iff, !orb_false_iff. tauto.
Qed.

Lemma isSpecial_plainByte (c : ascii) : isSpecial c = false -> plainByte c = true.
Proof.
  unfold isSpecial, plainByte. rewrite !orb_false_iff, negb_true_iff, !orb_false_iff.
  tauto.
Qed.

Ltac after_field :=
  unfold afterField; simpl;
  repeat (split; [reflexivity |]);
  first [ left; reflexivity
        | right; left; reflexivity
        | right; right; split; reflexivity ].

(** Plain bytes extend an unquoted field. *)
Lemma read_plain (f : string) : forall b fs rs,
  forallb plainByte (list_ascii_of_string f) = true ->
  readBytes {| state := InUnquoted; field := b; fields := fs; records := rs |} f =
  Some {| state := InUnquoted; field := (b ++ f)%string; fields := fs; records := rs |}.
Proof.
  induction f as [|c f IH]; intros b fs rs Hplain; simpl.
  - now rewrite string_app_nil_r.
  - simpl in Hplain. apply andb_true_iff in Hplain. destruct Hplain as [Hc Hf].
    apply plainByte_spec in Hc. destruct Hc as (Hq & Hco & Hlf).
    unfold readByte. simpl. rewrite Hq, Hco, Hlf.
    unfold addByte. simpl. rewrite IH by exact Hf.
    rewrite string_app_assoc. reflexivity.
Qed.

(** A field written without quotes is read back. *)
Lemma read_unquoted (f : string) fs rs :
  forallb plainByte (list_ascii_of_string f) = true ->
  exists r,
    readBytes (atFieldStart fs rs) f = Some r /\ afterField r f fs rs.
Proof.
  destruct f as [|c f]; intros Hplain.
  - exists (atFieldStart fs rs). split; [reflexivity |].
    after_field.
  - simpl in Hplain. apply andb_true_iff in Hplain. destruct Hplain as [Hc Hf].
    apply plainByte_spec in Hc. destruct Hc as (Hq & Hco & Hlf).
    eexists. split.
    + simpl. unfold readByte. simpl. rewrite Hq, Hco, Hlf.
      unfold addByte. simpl. apply read_plain, Hf.
    + after_field.
Qed.

(** The bytes of a quoted field extend it, a doubled quote by one quote. *)
Lemma read_quoted_bytes (f : string) : forall b fs rs,
  readBytes {| state := InQuoted; field := b; fields := fs; records := rs |}
    (writeQuoted f) =
  Some {| state := InQuoted; field := (b ++ f)%string; fields := fs; records := rs |}.
Proof.
  induction f as [|c f IH]; intros b fs rs; simpl.
  - now rewrite string_app_nil_r.
  - replace (b ++ String c f)%string with ((b ++ byte c) ++ f)%string
      by (rewrite string_app_assoc; reflexivity).
    destruct (Ascii.eqb_spec c quoteChar) as [-> | Hq].
    + simpl. apply IH.
    + assert (Hstep : forall r, state r = InQuoted ->
                 readByte r c = Some (addByte InQuoted c r)).
      { intros r Hr. unfold readByte. rewrite Hr.
        destruct (Ascii.eqb_spec c quoteChar); [contradiction | reflexivity]. }
      destruct (Ascii.eqb_spec c CR) as [-> | Hcr]; [simpl; apply IH |].
      destruct (Ascii.eqb_spec c LF) as [-> | Hlf]; [simpl; apply IH |].
      simpl. rewrite Hstep by reflexivity. apply IH.
Qed.

(** A field written in quotes is read back. *)
Lemma read_quoted (f : string) fs rs :
  exists r,
    readBytes (atFieldStart fs rs) (byte quoteChar ++ writeQuoted f ++ byte quoteChar)
      = Some r /\
    afterField r f fs rs.
Proof.
  eexists. split.
  - simpl. unfold setState. simpl.
    rewrite readBytes_app, read_quoted_bytes. simpl. reflexivity.
  - after_field.
Qed.

Lemma after_field_comma r f fs rs :
  afterField r f fs rs -> readByte r Comma = Some (atFieldStart (fs ++ [f]) rs).
Proof.
  intros (<- & <- & <- & [Hs | [Hs | [Hs _]]]);
    unfold readByte; rewrite Hs; reflexivity.
Qed.

Lemma after_field_LF r f fs rs :
  afterField r f fs rs -> readByte r LF = Some (atFieldStart [] (rs ++ [fs ++ [f]])).
Proof.
  intros (<- & <- & <- & [Hs | [Hs | [Hs _]]]);
    unfold readByte; rewrite Hs; reflexivity.
Qed.

Section CSVRoundTrip.
Variable multibyteSpace : string -> bool.

Lemma unquoted_field_is_plain (f : string) :
  fieldNeedsQuotes multibyteSpace f = false ->
  forallb plainByte (list_ascii_of_string f) = true.
Proof.
  unfold fieldNeedsQuotes.
  destruct (String.eqb_spec f "") as [-> | Hne]; [reflexivity |].
  destruct (String.eqb f "\."); [discriminate |].
  destruct (existsb isSpecial (list_ascii_of_string f)) eqn:Hsp; [discriminate |].
  intros _. apply forallb_forall. intros c Hc. apply isSpecial_plainByte.
  destruct (isSpecial c) eqn:E; [| reflexivity].
  assert (H : existsb isSpecial (list_ascii_of_string f) = true)
    by (apply existsb_exists; exists c; auto).
  congruence.
Qed.

(** Whatever [writeField] writes for a field, the reader reads that field. *)
Lemma read_field (f : string) fs rs :
  exists r,
    readBytes (atFieldStart fs rs) (writeField multibyteSpace f) = Some r /\
    afterField r f fs rs.
Proof.
  unfold writeField.
  destruct (fieldNeedsQuotes multibyteSpace f) eqn:Hq.
  - apply read_quoted.
  - apply read_unquoted, unquoted_field_is_plain, Hq.
Qed.

(** A field, the fields after it and the LF are read as the rest of a
    record. *)
Lemma read_rest_of_record (more : list string) : forall f n fs rs,
  readBytes (atFieldStart fs rs)
    (writeField multibyteSpace f ++ writeFields multibyteSpace (S n) more ++ byte LF) =
  Some (atFieldStart [] (rs ++ [fs ++ f :: more])).
Proof.
  induction more as [|g more IH]; intros f n fs rs;
    destruct (read_field f fs rs) as (r & Hread & Hafter);
    rewrite readBytes_app, Hread.
  - simpl. rewrite (after_field_LF r f fs rs Hafter). reflexivity.
  - simpl. rewrite (after_field_comma r f fs rs Hafter).
    rewrite string_app_assoc, IH, <- app_assoc. reflexivity.
Qed.

(** A record of at least one field, as [Write] writes it, is read as that
    record. *)
Lemma read_record (record : list string) rs :
  record <> [] ->
  readBytes (atFieldStart [] rs) (csv_Write multibyteSpace record) =
  Some (atFieldStart [] (rs ++ [record])).
Proof.
  destruct record as [|f more]; [congruence | intros _].
  unfold csv_Write. simpl. rewrite string_app_assoc.
  apply (read_rest_of_record more f 0 [] rs).
Qed.

Lemma read_rows (users : list User.t) : forall text rs,
  readBytes startOfText text = Some (atFieldStart [] rs) ->
  readBytes startOfText
    (fold_left (fun text user => (text ++ csv_Write multibyteSpace (rowOf user))%string)
       users text) =
  Some (atFieldStart [] (rs ++ map rowOf users)).
Proof.
  induction users as [|user users IH]; intros text rs Htext; simpl.
  - rewrite app_nil_r. exact Htext.
  - rewrite (IH _ (rs ++ [rowOf user])).
    + rewrite <- app_assoc. reflexivity.
    + rewrite readBytes_app, Htext. apply read_record. discriminate.
Qed.

Lemma parse_csvDocument (users : list User.t) :
  parseCSV (csvDocument multibyteSpace users) = Some (header :: map rowOf users).
Proof.
  unfold parseCSV, csvDocument.
  rewrite (read_rows users (csv_Write multibyteSpace header) [header]).
  - reflexivity.
  - apply (read_record header []). discriminate.
Qed.

Lemma writeRows_returns os file (users : list User.t) : forall n written text,
  writeRows multibyteSpace os file n users written = (None, text) ->
  text =
    fold_left (fun text user => (text ++ csv_Write multibyteSpace (rowOf user))%string)
      users written.
Proof.
  induction users as [|user users IH]; intros n written text; simpl.
  - intros [= <-]. reflexivity.
  - destruct (Write_error os file n); [discriminate | apply IH].
Qed.

Lemma writeRows_succeeds os file (users : list User.t) : forall n written,
  (forall i, Write_error os file i = None) ->
  writeRows multibyteSpace os file n users written =
    (None,
     fold_left (fun text user => (text ++ csv_Write multibyteSpace (rowOf user))%string)
       users written).
Proof.
  induction users as [|user users IH]; intros n written Hw; simpl.
  - reflexivity.
  - rewrite Hw. apply IH, Hw.
Qed.

Lemma csvDocument_lines (users : list User.t) :
  csvDocument multibyteSpace users =
  (csv_Write multibyteSpace header ++
   String.concat "" (map (fun user => csv_Write multibyteSpace (rowOf user)) users))%string.
Proof.
  unfold csvDocument.
  assert (H : forall text,
             fold_left
               (fun text user => (text ++ csv_Write multibyteSpace (rowOf user))%string)
               users text =
             (text ++ fold_right (fun user rest =>
                                    (csv_Write multibyteSpace (rowOf user) ++ rest)%string)
                        EmptyString users)%string).
  { induction users as [|user users IH]; intros text; simpl.
    - now rewrite string_app_nil_r.
    - rewrite IH, string_app_assoc. reflexivity. }
  rewrite H. f_equal.
  clear H. induction users as [|user users IH]; simpl; [reflexivity |].
  rewrite IH. destruct users as [|user' users]; simpl; [| reflexivity].
  now rewrite string_app_nil_r.
Qed.

End CSVRoundTrip.

Lemma outputCSV_written multibyteSpace os users filename written :
  outputCSV multibyteSpace os users filename = (None, written) ->
  written = [(sinkOf filename, csvDocument multibyteSpace users)].
Proof.
  unfold outputCSV, sinkOf, csvDocument.
  assert (H : forall file,
             match Write_error os file 0 with
             | Some e =>
                 (Some (fmt_Errorf_w "failed to write CSV header" e),
                  [(file, EmptyString)])
             | None =>
                 (fst (writeRows multibyteSpace os file 1 users
                         (csv_Write multibyteSpace header)),
                  [(file, snd (writeRows multibyteSpace os file 1 users
                                 (csv_Write multibyteSpace header)))])
             end = (None, written) ->
             written =
               [(file,
                 fold_left
                   (fun text user =>
                      (text ++ csv_Write multibyteSpace (rowOf user))%string)
                   users (csv_Write multibyteSpace header))]).
  { intros file. destruct (Write_error os file 0); [discriminate |].
    destruct (writeRows multibyteSpace os file 1 users (csv_Write multibyteSpace header))
      as [e text] eqn:Hrows.
    simpl. intros [= -> <-]. apply writeRows_returns in Hrows. now subst text. }
  destruct (String.eqb filename ""); simpl.
  - apply H.
  - destruct (os_Create os filename); [discriminate | apply H].
Qed.

Lemma outputCSV_succeeds multibyteSpace os users filename :
  sinkWorks os filename ->
  outputCSV multibyteSpace os users filename =
    (None, [(sinkOf filename, csvDocument multibyteSpace users)]).
Proof.
  unfold sinkWorks, outputCSV, sinkOf, csvDocument.
  intros [Hopen Hwrite].
  destruct (String.eqb_spec filename "") as [-> | Hne]; simpl.
  - simpl in Hwrite. rewrite Hwrite, writeRows_succeeds by exact Hwrite. reflexivity.
  - destruct Hopen as [-> | Hopen]; [contradiction |].
    rewrite Hopen, Hwrite, writeRows_succeeds by exact Hwrite. reflexivity.
Qed.

(** C5.  What [outputCSV] writes, when it returns no error, is the header
    line with the seven fixed column names followed by one line per input
    record in input order, each as [csv.Writer] quotes it; read back, this
    text gives the header and then, for [N] records, [N] rows that hold the
    seven fields of the records in input order.  On an operating system
    where the output can be opened and written, [outputCSV] does return no
    error. *)
Theorem csv_round_trip
    (multibyteSpace : string -> bool) (os : OS) (users : list User.t)
    (filename : string) :
  let text := csvDocument multibyteSpace users in
  (forall written,
     outputCSV multibyteSpace os users filename = (None, written) ->
     written = [(sinkOf filename, text)])
  /\
  (sinkWorks os filename ->
   outputCSV multibyteSpace os users filename = (None, [(sinkOf filename, text)]))
  /\
  text =
    (csv_Write multibyteSpace header ++
     String.concat ""
       (map (fun user => csv_Write multibyteSpace (rowOf user)) users))%string
  /\
  csv_Write multibyteSpace header =
    ("ChannelName,UserID,Username,Email,FirstName,LastName,Nickname" ++ byte LF)%string
  /\
  parseCSV text = Some (header :: map rowOf users)
  /\
  length (map rowOf users) = length users.
Proof.
  intros text. subst text.
  split; [apply outputCSV_written |].
  split; [apply outputCSV_succeeds |].
  split; [apply csvDocument_lines |].
  split; [reflexivity |].
  split; [apply parse_csvDocument | apply length_map].
Qed.

Lemma csv_round_trip_witness :
  sinkWorks workingOS "users.csv" /\
  outputCSV (fun field => false) workingOS
    [toUser (toChannel general) alice;
     record "town, square" ("u-" ++ byte quoteChar ++ "q" ++ byte quoteChar)]
    "users.csv" =
    (None,
     [(Created "users.csv",
       ("ChannelName,UserID,Username,Email,FirstName,LastName,Nickname" ++ byte LF ++
        "general,u-alice,alice,alice@example.com,alice,Example," ++ byte LF ++
        byte quoteChar ++ "town, square" ++ byte quoteChar ++ "," ++
        byte quoteChar ++ "u-" ++ byte quoteChar ++ byte quoteChar ++ "q" ++
        byte quoteChar ++ byte quoteChar ++ byte quoteChar ++ "," ++
        byte quoteChar ++ "u-" ++ byte quoteChar ++ byte quoteChar ++ "q" ++
        byte quoteChar ++ byte quoteChar ++ byte quoteChar ++ ",,,," ++ byte LF)%string)]).
Proof.
  assert (H : sinkWorks workingOS "users.csv")
    by (split; [right; reflexivity | intros n; reflexivity]).
  split; [exact H |].
  destruct (csv_round_trip (fun field => false) workingOS
              [toUser (toChannel general) alice;
               record "town, square" ("u-" ++ byte quoteChar ++ "q" ++ byte quoteChar)]
              "users.csv") as (_ & Hrun & _).
  rewrite (Hrun H). reflexivity.
Defined.

(** * Further properties *)

(** ** The environment and the checks of [main] *)

Lemma fallback_of_string environ flagValue key defaultValue :
  (if String.eqb flagValue ""
   then assertString (getEnvWithDefault environ key (AnyString defaultValue))
   else Continue flagValue) =
  Continue (effective flagValue environ key defaultValue).
Proof.
  unfold effective, getEnvWithDefault.
  destruct (String.eqb flagValue ""); [| reflexivity].
  destruct (environ !! key); reflexivity.
Qed.

Lemma environmentFallback_resolves environ flags :
  debugResolves environ flags ->
  environmentFallback environ flags = Continue (resolved environ flags).
Proof.
  intros Hdebug. unfold environmentFallback.
  rewrite !fallback_of_string. simpl. unfold resolved.
  destruct (DebugFlag flags) eqn:Hflag; simpl; [reflexivity |].
  destruct Hdebug as [Hd | Hd]; [congruence |].
  unfold getEnvWithDefault. rewrite Hd. reflexivity.
Qed.

Lemma environmentFallback_panics environ flags value :
  DebugFlag flags = false -> environ !! "MM_DEBUG" = Some value ->
  environmentFallback environ flags =
    Stop (Panic "interface conversion: interface {} is string, not bool").
Proof.
  intros Hflag Hset. unfold environmentFallback.
  rewrite !fallback_of_string. simpl. rewrite Hflag. simpl.
  unfold getEnvWithDefault. rewrite Hset. reflexivity.
Qed.

Lemma debugResolves_dec environ flags :
  debugResolves environ flags \/
  (DebugFlag flags = false /\ exists value, environ !! "MM_DEBUG" = Some value).
Proof.
  unfold debugResolves.
  destruct (DebugFlag flags); [left; left; reflexivity |].
  destruct (environ !! "MM_DEBUG") as [value|]; [right | left; right; reflexivity].
  split; [reflexivity | exists value; reflexivity].
Qed.

Lemma cliErrors_spec world environ flags :
  cliErrors (resolved environ flags)
    (strings_ToUpper world (OutputFileType flags)) = true <->
  invalid world environ flags.
Proof.
  unfold cliErrors, invalid. simpl.
  rewrite !orb_true_iff, andb_true_iff, !negb_true_iff, !String.eqb_eq, !String.eqb_neq.
  tauto.
Qed.

Lemma main_checked fuel world environ flags :
  VersionFlag flags = false -> debugResolves environ flags ->
  main fuel world environ flags =
    if cliErrors (resolved environ flags) (strings_ToUpper world (OutputFileType flags))
    then Some {| outcome := Exit 1; debugMode := DebugFlag flags; requests := [];
                 csvFiles := []; jsonFiles := [] |}
    else traverse fuel world (strings_ToUpper world (OutputFileType flags))
           (resolved environ flags).
Proof.
  intros Hv Hd. unfold main. rewrite Hv, (environmentFallback_resolves _ _ Hd).
  reflexivity.
Qed.

(** ** The requests of the three stages *)

Lemma getTeamID_log mmClient teamName log :
  snd (getTeamID mmClient teamName log) = log ++ [ReqGetTeamByName teamName ""].
Proof.
  unfold getTeamID. destruct (err _); [reflexivity |].
  destruct (negb _); reflexivity.
Qed.

Lemma pages_returns_log mmClient includeBots channel acc log fuel exit log' :
  getUsersInChannels_pages fuel mmClient includeBots 50 "" channel acc 0 log =
    Some (exit, log') ->
  exists n, (n < fuel)%nat /\
    log' = log ++ map (userRequest channel) (seq 0 (S n)) /\
    (firstFailureAt (userPage mmClient channel) n /\
       exit = ExitReturn (nilSlice, Some (failure (userPage mmClient channel n)))
     \/
     firstEmptyAt (userPage mmClient channel) n /\ exists acc', exit = ExitBreak acc').
Proof.
  intros Hrun.
  destruct (first_stop (userPage mmClient channel) fuel)
    as [Hfull | (n & Hn & Hfull & [Hf | [Hs Hnil]])].
  - rewrite pages_out_of_fuel in Hrun by assumption. discriminate.
  - exists n. split; [exact Hn |].
    assert (Hfail : firstFailureAt (userPage mmClient channel) n) by (split; assumption).
    rewrite (pages_returns_at_failure mmClient includeBots channel acc log n fuel Hfail Hn)
      in Hrun.
    injection Hrun as <- <-. split; [reflexivity | left; split; [exact Hfail | reflexivity]].
  - exists n. split; [exact Hn |].
    assert (Hk : firstEmptyAt (userPage mmClient channel) n)
      by (split; [assumption | split; assumption]).
    destruct (pages_returns_at_empty mmClient includeBots channel acc log n fuel Hk Hn)
      as (acc' & Hr & _).
    rewrite Hr in Hrun. injection Hrun as <- <-.
    split; [reflexivity | right; split; [exact Hk | exists acc'; reflexivity]].
Qed.

Lemma range_returns_log fuel mmClient includeBots (channels : list Channel.t) :
  forall acc log result log',
    getUsersInChannels_range fuel mmClient includeBots 50 "" channels acc log =
      Some (result, log') ->
    exists ns,
      (length ns <= length channels)%nat /\
      log' = log ++ collectorRequests channels ns /\
      (snd result = None ->
       Forall2 (fun channel n =>
                  (n < fuel)%nat /\ firstEmptyAt (userPage mmClient channel) n)
               channels ns).
Proof.
  induction channels as [|channel channels IH]; intros acc log result log' Hrun;
    simpl in Hrun.
  - injection Hrun as <- <-. exists []. simpl.
    split; [lia | split; [now rewrite app_nil_r | constructor]].
  - destruct (getUsersInChannels_pages fuel mmClient includeBots 50 "" channel acc 0 log)
      as [[exit log1]|] eqn:Hpages; [| discriminate].
    apply pages_returns_log in Hpages.
    destruct Hpages as (n & Hn & -> & [[Hfail ->] | [Hempty (acc' & ->)]]).
    + injection Hrun as <- <-. exists [n]. unfold collectorRequests. simpl.
      split; [lia | split; [| discriminate]].
      destruct channels; simpl; now rewrite app_nil_r.
    + apply IH in Hrun. destruct Hrun as (ns & Hlen & -> & Hall).
      exists (n :: ns). unfold collectorRequests. simpl.
      split; [lia | split; [now rewrite <- app_assoc |]].
      intros Hnone. constructor; [split; assumption | apply Hall, Hnone].
Qed.

Lemma collectorRequests_are_user_requests (channels : list Channel.t) :
  forall ns, Forall isUserRequest (collectorRequests channels ns).
Proof.
  unfold collectorRequests.
  induction channels as [|channel channels IH]; intros [|n ns];
    [constructor | constructor | constructor |].
  cbn [zip_with concat].
  apply Forall_app. split; [| apply IH].
  apply List.Forall_forall. intros r Hr. apply in_map_iff in Hr.
  destruct Hr as (i & <- & _). exact I.
Qed.

Lemma writeOutput_requests world fileType flags users log :
  requests (writeOutput world fileType flags users log) = log.
Proof.
  unfold writeOutput. destruct (fst _); [reflexivity |].
  destruct (fst _); reflexivity.
Qed.

Lemma writeOutput_debugMode world fileType flags users log :
  debugMode (writeOutput world fileType flags users log) = DebugFlag flags.
Proof.
  unfold writeOutput. destruct (fst _); [reflexivity |].
  destruct (fst _); reflexivity.
Qed.

(** Whatever [traverse] returns, it asked for the team first, then for
    pages of channels, then for pages of members. *)
Lemma traverse_requests fuel world fileType flags r :
  traverse fuel world fileType flags = Some r ->
  debugMode r = DebugFlag flags /\
  exists channelRequests userRequests,
    requests r =
      ReqGetTeamByName (MattermostTeam flags) "" :: channelRequests ++ userRequests /\
    Forall isChannelRequest channelRequests /\
    Forall isUserRequest userRequests.
Proof.
  unfold traverse.
  set (mmClient := NewAPIv4Client world _ _).
  pose proof (getTeamID_log mmClient (MattermostTeam flags) []) as Hlog1.
  destruct (getTeamID mmClient (MattermostTeam flags) []) as [[teamID e] log1].
  simpl in Hlog1. subst log1.
  destruct e as [e|].
  { intros [= <-]. split; [reflexivity |]. exists [], []. simpl.
    split; [reflexivity | split; constructor]. }
  destruct (getPublicChannelsForTeam fuel mmClient teamID _)
    as [[[channels e] log2]|] eqn:Hlist; [| discriminate].
  apply lister_returns_inv in Hlist. destruct Hlist as (n & _ & _ & Hlog2 & _).
  simpl in Hlog2. subst log2.
  assert (Hch : Forall isChannelRequest (map (channelRequest teamID) (seq 0 (S n)))).
  { apply List.Forall_forall. intros q Hq. apply in_map_iff in Hq.
    destruct Hq as (i & <- & _). exact I. }
  destruct e as [e|].
  { intros [= <-]. split; [reflexivity |].
    exists (map (channelRequest teamID) (seq 0 (S n))), [].
    split; [simpl; now rewrite app_nil_r | split; [exact Hch | constructor]]. }
  destruct (getUsersInChannels fuel mmClient channels (IncludeBotsFlag flags) _)
    as [[[users e] log3]|] eqn:Hcollect; [| discriminate].
  apply range_returns_log in Hcollect. destruct Hcollect as (ns & _ & -> & _).
  assert (Hshape :
    exists channelRequests userRequests,
      ([ReqGetTeamByName (MattermostTeam flags) ""] ++
       map (channelRequest teamID) (seq 0 (S n))) ++
      collectorRequests (elems channels) ns =
      ReqGetTeamByName (MattermostTeam flags) "" :: channelRequests ++ userRequests /\
      Forall isChannelRequest channelRequests /\
      Forall isUserRequest userRequests).
  { exists (map (channelRequest teamID) (seq 0 (S n))),
      (collectorRequests (elems channels) ns).
    split; [reflexivity | split; [exact Hch |]].
    apply collectorRequests_are_user_requests. }
  destruct e as [e|]; intros [= <-].
  - split; [reflexivity | exact Hshape].
  - rewrite writeOutput_requests, writeOutput_debugMode.
    split; [reflexivity | exact Hshape].
Qed.

(** ** The stages of [main] *)

Lemma getTeamID_cases mmClient teamName log :
  let r := GetTeamByName mmClient teamName "" in
  (succeeded r /\
   getTeamID mmClient teamName log =
     ((model.Team.Id (payload r), None), log ++ [ReqGetTeamByName teamName ""]))
  \/
  (failed r /\
   getTeamID mmClient teamName log =
     (("", Some (failure r)), log ++ [ReqGetTeamByName teamName ""])).
Proof.
  intros r. subst r. unfold getTeamID, succeeded, failed, failure.
  destruct (err (GetTeamByName mmClient teamName "")) as [e|].
  - right. split; [left; discriminate | reflexivity].
  - destruct (Z.eqb_spec
                (model.StatusCode (response (GetTeamByName mmClient teamName ""))) 200)
      as [Hs | Hs]; simpl.
    + left. split; [split; [reflexivity | exact Hs] | reflexivity].
    + right. split; [right; exact Hs | reflexivity].
Qed.

Lemma succeeded_not_failed {A} (r : Reply A) : succeeded r -> failed r -> False.
Proof. intros Hs Hf. apply failed_iff_not_succeeded in Hf. contradiction. Qed.

(** The first page that is empty or fails is unique. *)
Lemma first_stop_unique {A} (page : nat -> Reply (list A)) (n m : nat) :
  fullBefore page n -> fullBefore page m ->
  (failed (page n) \/ payload (page n) = []) ->
  (failed (page m) \/ payload (page m) = []) ->
  n = m.
Proof.
  assert (H : forall a b, fullBefore page b ->
                (failed (page a) \/ payload (page a) = []) -> ~ (a < b)%nat).
  { intros a b Hfull Hstop Hlt. destruct (Hfull a Hlt) as [Hs Hne].
    destruct Hstop as [Hf | Hnil]; [exact (succeeded_not_failed _ Hs Hf) | contradiction]. }
  intros Hn Hm Hsn Hsm.
  pose proof (H n m Hm Hsn). pose proof (H m n Hn Hsm). lia.
Qed.

(** What [traverse] does, stage by stage. *)
Lemma traverse_cases fuel world fileType flags r :
  let mmClient :=
    NewAPIv4Client world
      (MattermostScheme flags ++ "://" ++ MattermostURL flags ++ ":"
       ++ MattermostPort flags)%string (MattermostToken flags) in
  let team := GetTeamByName mmClient (MattermostTeam flags) "" in
  let teamID := model.Team.Id (payload team) in
  traverse fuel world fileType flags = Some r ->
  (failed team /\ outcome r = Exit 1 /\ csvFiles r = [] /\ jsonFiles r = [])
  \/
  (succeeded team /\
   exists n, firstFailureAt (channelPage mmClient teamID) n /\
     outcome r = Exit 2 /\ csvFiles r = [] /\ jsonFiles r = [])
  \/
  (succeeded team /\
   exists n, firstEmptyAt (channelPage mmClient teamID) n /\
     ((exists before channel after m,
         map toChannel (pagesBefore (channelPage mmClient teamID) n) =
           before ++ channel :: after /\
         firstFailureAt (userPage mmClient channel) m /\
         outcome r = Exit 3 /\ csvFiles r = [] /\ jsonFiles r = [])
      \/
      (exists users log,
         elems users =
           map recordOf
             (List.filter (fun p => passes (IncludeBotsFlag flags) (snd p))
                (membership fuel mmClient
                   (map toChannel (pagesBefore (channelPage mmClient teamID) n)))) /\
         r = writeOutput world fileType flags users log))).
Proof.
  intros mmClient team teamID Hrun. unfold traverse in Hrun. fold mmClient in Hrun.
  destruct (getTeamID_cases mmClient (MattermostTeam flags) [])
    as [[Hteam Heq] | [Hteam Heq]]; rewrite Heq in Hrun; clear Heq;
    fold team in Hteam, Hrun; fold teamID in Hrun.
  2:{ injection Hrun as <-. left. auto. }
  right.
  destruct (getPublicChannelsForTeam fuel mmClient teamID _)
    as [[[channels e] log2]|] eqn:Hlist; [| discriminate].
  apply lister_returns_inv in Hlist. simpl in Hlist.
  destruct Hlist as (n & _ & Hfull & _ & [[Hf Heq] | (Hs & Hnil & -> & Hel)]).
  { injection Heq as -> ->. injection Hrun as <-. left.
    split; [exact Hteam |]. exists n. split; [split; assumption | auto]. }
  right. split; [exact Hteam |]. exists n.
  split; [split; [assumption | split; assumption] |].
  destruct (getUsersInChannels fuel mmClient channels (IncludeBotsFlag flags) log2)
    as [[[users e] log3]|] eqn:Hcollect; [| discriminate].
  rewrite <- Hel.
  destruct e as [e|]; injection Hrun as <-.
  - left. apply range_returns_inv in Hcollect. simpl in Hcollect.
    destruct Hcollect as [(Hnone & _) | (before & channel & after & m & Hch & _ & Hfail & _)];
      [discriminate |].
    exists before, channel, after, m. auto.
  - right. exists users, log3. split; [| reflexivity].
    apply (collector_returns_kept mmClient fuel channels (IncludeBotsFlag flags)
             log2 users None log3 Hcollect).
Qed.

Lemma outputJSON_error_writes_nothing os runtime users filename e written :
  outputJSON os runtime users filename = (Some e, written) -> written = [].
Proof.
  unfold outputJSON.
  destruct (negb (String.eqb filename "")); simpl.
  - destruct (os_Create os filename); simpl; [intros H; now inversion H |].
    destruct (Write_error os (Created filename) 0); intros H; now inversion H.
  - destruct (Write_error os Stdout 0); intros H; now inversion H.
Qed.

(** What [writeOutput] leaves behind, by exit code. *)
Lemma writeOutput_cases world fileType flags users log :
  let r := writeOutput world fileType flags users log in
  (outcome r = Exit 0 /\
   csvFiles r =
     (if String.eqb fileType "CSV"
      then [(sinkOf (OutputFileName flags),
             csvDocument (unicode_IsSpace_multibyte world) (elems users))]
      else []) /\
   jsonFiles r =
     (if String.eqb fileType "JSON"
      then [(sinkOf (OutputFileName flags),
             marshalJSONOutput (encodedOutput (mapRange world) (elems users)))]
      else []))
  \/ (outcome r = Exit 4 /\ fileType = "CSV" /\ jsonFiles r = [])
  \/ (outcome r = Exit 5 /\ fileType = "JSON" /\ jsonFiles r = [] /\
      csvFiles r = (if String.eqb fileType "CSV"
                    then [(sinkOf (OutputFileName flags),
                           csvDocument (unicode_IsSpace_multibyte world) (elems users))]
                    else [])).
Proof.
  intros r. subst r. unfold writeOutput.
  assert (Hcsv : forall csv,
            csv = (if String.eqb fileType "CSV"
                   then outputCSV (unicode_IsSpace_multibyte world) (opsys world)
                          (elems users) (OutputFileName flags)
                   else (None, [])) ->
            fst csv = None ->
            snd csv =
              (if String.eqb fileType "CSV"
               then [(sinkOf (OutputFileName flags),
                      csvDocument (unicode_IsSpace_multibyte world) (elems users))]
               else [])).
  { intros [e w] Heq He. simpl in He. subst e. simpl.
    destruct (String.eqb fileType "CSV"); [| now injection Heq as ->].
    symmetry in Heq. apply outputCSV_written in Heq. exact Heq. }
  destruct (fst (if String.eqb fileType "CSV" then _ else _)) as [e|] eqn:Hc.
  - right. left. simpl.
    destruct (String.eqb_spec fileType "CSV") as [-> | Hne]; [auto | discriminate].
  - specialize (Hcsv _ eq_refl Hc).
    destruct (if String.eqb fileType "JSON" then _ else _) as [ej wj] eqn:Hj.
    simpl. destruct ej as [e|]; simpl.
    + right. right.
      destruct (String.eqb_spec fileType "JSON") as [-> | Hne]; [| discriminate].
      apply outputJSON_error_writes_nothing in Hj. subst wj. auto.
    + left. split; [reflexivity | split; [exact Hcsv |]].
      destruct (String.eqb fileType "JSON"); [| now injection Hj as <-].
      apply outputJSON_written in Hj. exact Hj.
Qed.

Lemma main_of_valid fuel world environ flags :
  VersionFlag flags = false -> debugResolves environ flags ->
  ~ invalid world environ flags ->
  main fuel world environ flags =
    traverse fuel world (strings_ToUpper world (OutputFileType flags))
      (resolved environ flags).
Proof.
  intros Hv Hd Hvalid. rewrite main_checked by assumption.
  destruct (cliErrors _ _) eqn:Hcli; [| reflexivity].
  apply cliErrors_spec in Hcli. contradiction.
Qed.

Lemma main_of_invalid fuel world environ flags :
  VersionFlag flags = false -> debugResolves environ flags ->
  invalid world environ flags ->
  main fuel world environ flags =
    Some {| outcome := Exit 1; debugMode := DebugFlag flags; requests := [];
            csvFiles := []; jsonFiles := [] |}.
Proof.
  intros Hv Hd Hinvalid. rewrite main_checked by assumption.
  apply cliErrors_spec in Hinvalid. rewrite Hinvalid. reflexivity.
Qed.

Lemma invalid_dec world environ flags :
  invalid world environ flags \/ ~ invalid world environ flags.
Proof.
  destruct (cliErrors (resolved environ flags)
              (strings_ToUpper world (OutputFileType flags))) eqn:Hcli.
  - left. apply cliErrors_spec, Hcli.
  - right. intros H. apply cliErrors_spec in H. congruence.
Qed.

Lemma valid_file_type world environ flags :
  ~ invalid world environ flags ->
  strings_ToUpper world (OutputFileType flags) = "CSV" \/
  strings_ToUpper world (OutputFileType flags) = "JSON".
Proof.
  intros Hvalid.
  destruct (String.eqb_spec (strings_ToUpper world (OutputFileType flags)) "CSV");
    [left; assumption |].
  destruct (String.eqb_spec (strings_ToUpper world (OutputFileType flags)) "JSON");
    [right; assumption |].
  exfalso. apply Hvalid. unfold invalid. auto 6.
Qed.

(** A run of [main] that is not ended by [-version] or by a panic and that
    issued a request went through [traverse]. *)
Lemma main_cases fuel world environ flags r :
  main fuel world environ flags = Some r ->
  (VersionFlag flags = true /\
   r = {| outcome := Exit 0; debugMode := debugMode0; requests := [];
          csvFiles := []; jsonFiles := [] |})
  \/
  (VersionFlag flags = false /\ DebugFlag flags = false /\
   (exists value, environ !! "MM_DEBUG" = Some value) /\
   r = {| outcome := Panic "interface conversion: interface {} is string, not bool";
          debugMode := debugMode0; requests := [];
          csvFiles := []; jsonFiles := [] |})
  \/
  (VersionFlag flags = false /\ debugResolves environ flags /\
   invalid world environ flags /\
   r = {| outcome := Exit 1; debugMode := DebugFlag flags; requests := [];
          csvFiles := []; jsonFiles := [] |})
  \/
  (VersionFlag flags = false /\ debugResolves environ flags /\
   ~ invalid world environ flags /\
   traverse fuel world (strings_ToUpper world (OutputFileType flags))
     (resolved environ flags) = Some r).
Proof.
  intros Hrun.
  destruct (VersionFlag flags) eqn:Hv.
  { left. unfold main in Hrun. rewrite Hv in Hrun. injection Hrun as <-. auto. }
  right.
  destruct (debugResolves_dec environ flags) as [Hd | (Hflag & value & Hset)].
  - right. destruct (invalid_dec world environ flags) as [Hi | Hvalid].
    + left. rewrite main_of_invalid in Hrun by assumption. injection Hrun as <-. auto.
    + right. rewrite main_of_valid in Hrun by assumption. auto.
  - left. unfold main in Hrun.
    rewrite Hv, (environmentFallback_panics environ flags value Hflag Hset) in Hrun.
    injection Hrun as <-. split; [reflexivity | split; [exact Hflag |]].
    split; [exists value; exact Hset | reflexivity].
Qed.

(** ** Properties of [main] and [getEnvWithDefault] *)

(** X1.  When [MM_DEBUG] exists in the environment, whatever its value, and
    neither [-debug] nor [-version] is given, [main] panics in the type
    assertion of line 373 before it checks a parameter or issues a request.
    So the environment can never switch debug mode on: whenever a run ends
    with [debugMode] true, [-debug] was on the command line. *)
Theorem MM_DEBUG_panics_instead_of_enabling_debug
    (fuel : nat) (world : World) (environ : gmap string string) (flags : Flags) :
  (VersionFlag flags = false -> DebugFlag flags = false ->
   forall value, environ !! "MM_DEBUG" = Some value ->
     main fuel world environ flags =
       Some {| outcome :=
                 Panic "interface conversion: interface {} is string, not bool";
               debugMode := false; requests := [];
               csvFiles := []; jsonFiles := [] |})
  /\
  (forall r, main fuel world environ flags = Some r ->
             debugMode r = true -> DebugFlag flags = true).
Proof.
  split.
  - intros Hv Hflag value Hset. unfold main.
    rewrite Hv, (environmentFallback_panics environ flags value Hflag Hset).
    reflexivity.
  - intros r Hrun Hdebug.
    apply main_cases in Hrun.
    destruct Hrun as [(_ & ->) | [(_ & _ & _ & ->) | [(_ & _ & _ & ->) | (_ & _ & _ & Hrun)]]];
      simpl in Hdebug; try discriminate; try assumption.
    apply traverse_requests in Hrun. destruct Hrun as [Hd _].
    rewrite Hd in Hdebug. exact Hdebug.
Qed.

Lemma MM_DEBUG_panics_instead_of_enabling_debug_witness :
  main 3 exampleWorld (<["MM_DEBUG" := "true"]> (empty : gmap string string))
    exampleFlags =
    Some {| outcome := Panic "interface conversion: interface {} is string, not bool";
            debugMode := false; requests := []; csvFiles := []; jsonFiles := [] |}.
Proof.
  destruct (MM_DEBUG_panics_instead_of_enabling_debug 3 exampleWorld
              (<["MM_DEBUG" := "true"]> (empty : gmap string string)) exampleFlags)
    as [H _].
  apply (H eq_refl eq_refl "true"). reflexivity.
Defined.

(** X2.  When a required parameter is missing after the fall-back to the
    environment (URL, scheme, token or team empty) or the file type is
    neither CSV nor JSON once upper-cased, [main] exits with code 1 without
    a request and without a file; and a run that ends without any request
    ended that way. *)
Theorem invalid_parameters_exit_before_any_request
    (fuel : nat) (world : World) (environ : gmap string string) (flags : Flags) :
  VersionFlag flags = false ->
  debugResolves environ flags ->
  (invalid world environ flags ->
   main fuel world environ flags =
     Some {| outcome := Exit 1; debugMode := DebugFlag flags; requests := [];
             csvFiles := []; jsonFiles := [] |})
  /\
  (forall r, main fuel world environ flags = Some r -> requests r = [] ->
             invalid world environ flags /\ outcome r = Exit 1).
Proof.
  intros Hv Hd. split; [apply main_of_invalid; assumption |].
  intros r Hrun Hnone.
  destruct (invalid_dec world environ flags) as [Hi | Hvalid].
  - rewrite main_of_invalid in Hrun by assumption. injection Hrun as <-. auto.
  - rewrite main_of_valid in Hrun by assumption.
    apply traverse_requests in Hrun.
    destruct Hrun as (_ & l2 & l3 & Hreq & _). rewrite Hreq in Hnone. discriminate.
Qed.

Lemma invalid_parameters_exit_before_any_request_witness :
  invalid exampleWorld (<["MM_URL" := "chat.example.com"]> (empty : gmap string string))
    noFlags /\
  main 3 exampleWorld (<["MM_URL" := "chat.example.com"]> (empty : gmap string string))
    noFlags =
    Some {| outcome := Exit 1; debugMode := false; requests := [];
            csvFiles := []; jsonFiles := [] |}.
Proof.
  assert (Hi : invalid exampleWorld
                 (<["MM_URL" := "chat.example.com"]> (empty : gmap string string))
                 noFlags).
  { right. right. left. reflexivity. }
  split; [exact Hi |].
  destruct (invalid_parameters_exit_before_any_request 3 exampleWorld
              (<["MM_URL" := "chat.example.com"]> (empty : gmap string string)) noFlags)
    as [H _]; [reflexivity | right; reflexivity |].
  apply H, Hi.
Defined.

(** X3.  [main] reads a variable of the environment only where the command
    line left the parameter empty (for [MM_DEBUG]: where [-debug] is not
    given), and it reads no other variable: two environments that agree
    there give the same run.  In particular a value on the command line
    wins over the environment. *)
Theorem environment_read_only_where_flag_is_absent
    (fuel : nat) (world : World) (environ environ' : gmap string string)
    (flags : Flags) :
  (MattermostURL flags = "" -> environ !! "MM_URL" = environ' !! "MM_URL") ->
  (MattermostPort flags = "" -> environ !! "MM_PORT" = environ' !! "MM_PORT") ->
  (MattermostScheme flags = "" -> environ !! "MM_SCHEME" = environ' !! "MM_SCHEME") ->
  (MattermostToken flags = "" -> environ !! "MM_TOKEN" = environ' !! "MM_TOKEN") ->
  (DebugFlag flags = false -> environ !! "MM_DEBUG" = environ' !! "MM_DEBUG") ->
  main fuel world environ flags = main fuel world environ' flags.
Proof.
  intros Hurl Hport Hscheme Htoken Hdebug.
  assert (Hstring : forall flagValue key defaultValue,
             (flagValue = "" -> environ !! key = environ' !! key) ->
             (if String.eqb flagValue ""
              then assertString (getEnvWithDefault environ key (AnyString defaultValue))
              else Continue flagValue) =
             (if String.eqb flagValue ""
              then assertString (getEnvWithDefault environ' key (AnyString defaultValue))
              else Continue flagValue)).
  { intros flagValue key defaultValue H.
    destruct (String.eqb_spec flagValue "") as [He | _]; [| reflexivity].
    unfold getEnvWithDefault. rewrite (H He). reflexivity. }
  assert (Hfallback : environmentFallback environ flags =
                      environmentFallback environ' flags).
  { unfold environmentFallback.
    rewrite (Hstring _ _ _ Hurl), (Hstring _ _ _ Hport), (Hstring _ _ _ Hscheme),
      (Hstring _ _ _ Htoken).
    destruct (DebugFlag flags) eqn:Hflag; simpl; [reflexivity |].
    unfold getEnvWithDefault. rewrite (Hdebug eq_refl). reflexivity. }
  unfold main. rewrite Hfallback. reflexivity.
Qed.

Lemma environment_read_only_where_flag_is_absent_witness :
  main 3 exampleWorld
    (<["MM_URL" := "other.example.com"]>
       (<["MM_TOKEN" := "other"]> (<["HOME" := "/root"]> (empty : gmap string string))))
    exampleFlags =
  main 3 exampleWorld (empty : gmap string string) exampleFlags.
Proof.
  apply environment_read_only_where_flag_is_absent;
    solve [ intros H; discriminate H | intros _; reflexivity ].
Defined.

Lemma traverse_cases_of_main fuel world environ flags r :
  let mmClient := clientOf world environ flags in
  let team := GetTeamByName mmClient (MattermostTeam flags) "" in
  let teamID := model.Team.Id (payload team) in
  traverse fuel world (strings_ToUpper world (OutputFileType flags))
    (resolved environ flags) = Some r ->
  (failed team /\ outcome r = Exit 1 /\ csvFiles r = [] /\ jsonFiles r = [])
  \/
  (succeeded team /\
   exists n, firstFailureAt (channelPage mmClient teamID) n /\
     outcome r = Exit 2 /\ csvFiles r = [] /\ jsonFiles r = [])
  \/
  (succeeded team /\
   exists n, firstEmptyAt (channelPage mmClient teamID) n /\
     ((exists before channel after m,
         map toChannel (pagesBefore (channelPage mmClient teamID) n) =
           before ++ channel :: after /\
         firstFailureAt (userPage mmClient channel) m /\
         outcome r = Exit 3 /\ csvFiles r = [] /\ jsonFiles r = [])
      \/
      (exists users log,
         elems users =
           map recordOf
             (List.filter (fun p => passes (IncludeBotsFlag flags) (snd p))
                (membership fuel mmClient
                   (map toChannel (pagesBefore (channelPage mmClient teamID) n)))) /\
         r = writeOutput world (strings_ToUpper world (OutputFileType flags))
               (resolved environ flags) users log))).
Proof.
  exact (traverse_cases fuel world (strings_ToUpper world (OutputFileType flags))
           (resolved environ flags) r).
Qed.

Lemma empty_excludes_failure {A} (page : nat -> Reply (list A)) (n m : nat) :
  firstEmptyAt page n -> firstFailureAt page m -> False.
Proof.
  intros (Hfn & Hsn & Hnil) (Hfm & Hfail).
  assert (n = m) by (apply (first_stop_unique page); auto).
  subst m. exact (succeeded_not_failed _ Hsn Hfail).
Qed.

Lemma writeOutput_exit_code world fileType flags users log :
  outcome (writeOutput world fileType flags users log) = Exit 0 \/
  outcome (writeOutput world fileType flags users log) = Exit 4 \/
  outcome (writeOutput world fileType flags users log) = Exit 5.
Proof.
  destruct (writeOutput_cases world fileType flags users log)
    as [(H & _) | [(H & _) | (H & _)]]; auto.
Qed.

(** X4.  The exit code tells what was written.  With code 1, 2 or 3, and
    after a panic, no file was opened; with code 0 exactly one document was
    written (none for [-version]), a CSV text or a JSON document according to
    the upper-cased file type, to [-file] or to the standard output; code 4
    comes from the CSV serializer only and code 5 from the JSON serializer
    only, and no other code occurs.  The two serializers never both write. *)
Theorem exit_code_tells_what_was_written
    (fuel : nat) (world : World) (environ : gmap string string) (flags : Flags)
    (r : MainResult) :
  main fuel world environ flags = Some r ->
  let fileType := strings_ToUpper world (OutputFileType flags) in
  let sink := sinkOf (OutputFileName flags) in
  match outcome r with
  | Panic _ => requests r = [] /\ csvFiles r = [] /\ jsonFiles r = []
  | Exit code =>
      (code = 0 /\ VersionFlag flags = true /\ csvFiles r = [] /\ jsonFiles r = [])
      \/ (code = 0 /\ fileType = "CSV" /\
          (exists text, csvFiles r = [(sink, text)]) /\ jsonFiles r = [])
      \/ (code = 0 /\ fileType = "JSON" /\
          csvFiles r = [] /\ exists doc, jsonFiles r = [(sink, doc)])
      \/ ((code = 1 \/ code = 2 \/ code = 3) /\ csvFiles r = [] /\ jsonFiles r = [])
      \/ (code = 4 /\ fileType = "CSV" /\ jsonFiles r = [])
      \/ (code = 5 /\ fileType = "JSON" /\ csvFiles r = [] /\ jsonFiles r = [])
  end.
Proof.
  intros Hrun fileType sink.
  apply main_cases in Hrun.
  destruct Hrun as [(Hv & ->) | [(_ & _ & _ & ->) | [(_ & _ & _ & ->) | (_ & _ & Hvalid & Hrun)]]];
    simpl; [auto | auto | right; right; right; left; auto |].
  apply traverse_cases_of_main in Hrun.
  destruct Hrun as [(_ & -> & Hc & Hj) | [(_ & n & _ & -> & Hc & Hj) | (_ & n & _ & Hrun)]];
    [right; right; right; left; auto | right; right; right; left; auto |].
  destruct Hrun as [(b & c & a & m & _ & _ & -> & Hc & Hj) | (users & log & _ & ->)];
    [right; right; right; left; auto |].
  apply valid_file_type in Hvalid. fold fileType in Hvalid |- *.
  destruct (writeOutput_cases world fileType (resolved environ flags) users log)
    as [(-> & Hc & Hj) | [(-> & Ht & Hj) | (-> & Ht & Hj & Hc)]];
    rewrite ?Hc, ?Hj; simpl OutputFileName; fold sink.
  - destruct Hvalid as [Ht | Ht]; rewrite Ht; simpl.
    + right. left. split; [reflexivity | split; [reflexivity |]].
      split; [eexists; reflexivity | reflexivity].
    + right. right. left. split; [reflexivity | split; [reflexivity |]].
      split; [reflexivity | eexists; reflexivity].
  - do 4 right. left. auto.
  - do 5 right. rewrite Ht. simpl. auto.
Qed.

Lemma exit_code_tells_what_was_written_witness :
  exists r,
    main 3 exampleWorld (empty : gmap string string) exampleFlags = Some r /\
    outcome r = Exit 0 /\ (exists text, csvFiles r = [(Stdout, text)]) /\
    jsonFiles r = [].
Proof.
  eexists. split; [reflexivity |].
  pose proof (exit_code_tells_what_was_written 3 exampleWorld
                (empty : gmap string string) exampleFlags _ eq_refl) as H.
  split; [reflexivity |].
  destruct H as [(_ & H & _) | [(_ & _ & Ht & Hj) | [(_ & H & _) | [(H & _) | [(H & _) | (H & _)]]]]];
    try discriminate H.
  - split; assumption.
  - destruct H as [H | [H | H]]; discriminate H.
Defined.

(** X5.  For parameters that pass the checks, the exit code names the stage
    that failed: 1 exactly when the team lookup has a transport error or a
    status other than 200; 2 exactly when the lookup succeeds and the first
    page of channels that is not full fails; 3 only when the channels were
    all listed and the pagination of one of them failed; and 0, 4 and 5 only
    when the channels were all listed. *)
Theorem exit_code_names_the_failed_stage
    (fuel : nat) (world : World) (environ : gmap string string) (flags : Flags)
    (r : MainResult) :
  VersionFlag flags = false ->
  debugResolves environ flags ->
  ~ invalid world environ flags ->
  main fuel world environ flags = Some r ->
  let mmClient := clientOf world environ flags in
  let team := GetTeamByName mmClient (MattermostTeam flags) "" in
  let teamID := model.Team.Id (payload team) in
  (outcome r = Exit 1 <-> failed team)
  /\
  (outcome r = Exit 2 <->
   succeeded team /\ exists n, firstFailureAt (channelPage mmClient teamID) n)
  /\
  (outcome r = Exit 3 ->
   succeeded team /\
   exists n before channel after m,
     firstEmptyAt (channelPage mmClient teamID) n /\
     map toChannel (pagesBefore (channelPage mmClient teamID) n) =
       before ++ channel :: after /\
     firstFailureAt (userPage mmClient channel) m)
  /\
  (outcome r = Exit 0 \/ outcome r = Exit 4 \/ outcome r = Exit 5 ->
   succeeded team /\ exists n, firstEmptyAt (channelPage mmClient teamID) n).
Proof.
  intros Hv Hd Hvalid Hrun mmClient team teamID.
  rewrite main_of_valid in Hrun by assumption.
  apply traverse_cases_of_main in Hrun.
  fold mmClient in Hrun. fold team in Hrun. fold teamID in Hrun.
  assert (Hcodes : forall c : Z, Exit c = Exit 0 \/ Exit c = Exit 4 \/ Exit c = Exit 5 ->
                     c = 0 \/ c = 4 \/ c = 5).
  { intros c [H | [H | H]]; injection H as ->; auto. }
  destruct Hrun as [(Hteam & Ho & _) | [(Hteam & n & Hfail & Ho & _) | (Hteam & n & Hempty & Hrun)]].
  - rewrite Ho. split; [| split; [| split]].
    + split; [intros _; exact Hteam | reflexivity].
    + split; [discriminate |].
      intros [Hs _]. exfalso. exact (succeeded_not_failed _ Hs Hteam).
    + discriminate.
    + intros H. apply Hcodes in H. lia.
  - rewrite Ho. split; [| split; [| split]].
    + split; [discriminate |].
      intros Hf. exfalso. exact (succeeded_not_failed _ Hteam Hf).
    + split; [| reflexivity].
      intros _. split; [exact Hteam | exists n; exact Hfail].
    + discriminate.
    + intros H. apply Hcodes in H. lia.
  - assert (Hno1 : ~ failed team)
      by (intros Hf; exact (succeeded_not_failed _ Hteam Hf)).
    assert (Hno2 : ~ (succeeded team /\
                      exists n', firstFailureAt (channelPage mmClient teamID) n')).
    { intros (_ & n' & Hfail). exact (empty_excludes_failure _ n n' Hempty Hfail). }
    destruct Hrun as [(b & c & a & m & Hsplit & Hfail & Ho & _) | (users & log & _ & ->)].
    + rewrite Ho. split; [| split; [| split]].
      * split; [discriminate | intros Hf; exfalso; exact (Hno1 Hf)].
      * split; [discriminate | intros H; exfalso; exact (Hno2 H)].
      * intros _. split; [exact Hteam |]. exists n, b, c, a, m. auto.
      * intros H. apply Hcodes in H. lia.
    + assert (Hnot : forall c : Z, c <> 0 -> c <> 4 -> c <> 5 ->
                outcome (writeOutput world (strings_ToUpper world (OutputFileType flags))
                           (resolved environ flags) users log) <> Exit c).
      { intros c H0 H4 H5 Ho.
        destruct (writeOutput_exit_code world
                    (strings_ToUpper world (OutputFileType flags))
                    (resolved environ flags) users log) as [H | [H | H]];
          rewrite H in Ho; injection Ho as <-; lia. }
      split; [| split; [| split]].
      * split; [intros Ho; exfalso; apply (Hnot 1 ltac:(lia) ltac:(lia) ltac:(lia) Ho) |].
        intros Hf. exfalso. exact (Hno1 Hf).
      * split; [intros Ho; exfalso; apply (Hnot 2 ltac:(lia) ltac:(lia) ltac:(lia) Ho) |].
        intros H. exfalso. exact (Hno2 H).
      * intros Ho. exfalso. apply (Hnot 3 ltac:(lia) ltac:(lia) ltac:(lia) Ho).
      * intros _. split; [exact Hteam | exists n; exact Hempty].
Qed.

Lemma exit_code_names_the_failed_stage_witness :
  exists r,
    main 3 (statusWorld 204) (empty : gmap string string) exampleFlags = Some r /\
    failed (GetTeamByName (statusClient 204) "engineering" "") /\
    outcome r = Exit 1.
Proof.
  eexists. split; [reflexivity |].
  assert (Hf : failed (GetTeamByName (statusClient 204) "engineering" ""))
    by (right; discriminate).
  split; [exact Hf |].
  refine (proj2 (proj1 (exit_code_names_the_failed_stage 3 (statusWorld 204)
                          (empty : gmap string string) exampleFlags _ eq_refl _ _ eq_refl))
            Hf).
  - right. reflexivity.
  - intros [H | [H | [H | [H | [H _]]]]]; first [discriminate H | apply H; reflexivity].
Defined.

(** X6.  The requests of a run come stage by stage: none at all, or one
    team lookup for the [-team] name, then only pages of channels, then only
    pages of members.  [main] never looks the team up twice and never lists
    channels once it has started on the members. *)
Theorem requests_go_stage_by_stage
    (fuel : nat) (world : World) (environ : gmap string string) (flags : Flags)
    (r : MainResult) :
  main fuel world environ flags = Some r ->
  requests r = [] \/
  exists channelRequests userRequests,
    requests r =
      ReqGetTeamByName (MattermostTeam flags) "" :: channelRequests ++ userRequests /\
    Forall isChannelRequest channelRequests /\
    Forall isUserRequest userRequests.
Proof.
  intros Hrun. apply main_cases in Hrun.
  destruct Hrun as [(_ & ->) | [(_ & _ & _ & ->) | [(_ & _ & _ & ->) | (_ & _ & _ & Hrun)]]];
    [left; reflexivity | left; reflexivity | left; reflexivity | right].
  apply traverse_requests in Hrun. destruct Hrun as [_ Hrun]. exact Hrun.
Qed.

Lemma requests_go_stage_by_stage_witness :
  main 3 exampleWorld (empty : gmap string string) exampleFlags = Some exampleRun /\
  exists channelRequests userRequests,
    requests exampleRun =
      ReqGetTeamByName "engineering" "" :: channelRequests ++ userRequests /\
    Forall isChannelRequest channelRequests /\
    Forall isUserRequest userRequests.
Proof.
  assert (Hrun : main 3 exampleWorld (empty : gmap string string) exampleFlags
                 = Some exampleRun) by reflexivity.
  split; [exact Hrun |].
  destruct (requests_go_stage_by_stage 3 exampleWorld (empty : gmap string string)
              exampleFlags exampleRun Hrun) as [H | H].
  - discriminate H.
  - exact H.
Defined.

(** X7.  End to end.  When [main] exits with code 0 (and [-version] is not
    given), the team has a first empty page of channels, and what was
    written is the serialization of exactly these records, in this order:
    for every channel of the pages before it, in arrival order, the accounts
    the remote system lists for the channel that are not deactivated and,
    unless [-includebots], not bots.  For CSV the text reads back as the
    header and one row per such record; for JSON the document is the
    grouping of these records. *)
Theorem main_writes_the_listed_members
    (fuel : nat) (world : World) (environ : gmap string string) (flags : Flags)
    (r : MainResult) :
  VersionFlag flags = false ->
  main fuel world environ flags = Some r ->
  outcome r = Exit 0 ->
  let mmClient := clientOf world environ flags in
  let teamID :=
    model.Team.Id (payload (GetTeamByName mmClient (MattermostTeam flags) "")) in
  exists n,
    firstEmptyAt (channelPage mmClient teamID) n /\
    let users :=
      map recordOf
        (List.filter (fun p => passes (IncludeBotsFlag flags) (snd p))
           (membership fuel mmClient
              (map toChannel (pagesBefore (channelPage mmClient teamID) n)))) in
    (strings_ToUpper world (OutputFileType flags) = "CSV" ->
     jsonFiles r = [] /\
     exists text,
       csvFiles r = [(sinkOf (OutputFileName flags), text)] /\
       parseCSV text = Some (header :: map rowOf users))
    /\
    (strings_ToUpper world (OutputFileType flags) = "JSON" ->
     csvFiles r = [] /\
     jsonFiles r =
       [(sinkOf (OutputFileName flags),
         marshalJSONOutput (encodedOutput (mapRange world) users))]).
Proof.
  intros Hv Hrun Ho mmClient teamID.
  apply main_cases in Hrun.
  destruct Hrun as [(Hv' & _) | [(_ & _ & _ & ->) | [(_ & _ & _ & ->) | (_ & _ & _ & Hrun)]]];
    [congruence | discriminate Ho | discriminate Ho |].
  apply traverse_cases_of_main in Hrun.
  fold mmClient in Hrun. fold teamID in Hrun.
  destruct Hrun as [(_ & Ho' & _) | [(_ & n & _ & Ho' & _) | (_ & n & Hempty & Hrun)]];
    [congruence | congruence |].
  destruct Hrun as [(b & c & a & m & _ & _ & Ho' & _) | (users & log & Hel & ->)];
    [congruence |].
  exists n. split; [exact Hempty |].
  destruct (writeOutput_cases world (strings_ToUpper world (OutputFileType flags))
              (resolved environ flags) users log)
    as [(_ & Hc & Hj) | [(Ho' & _) | (Ho' & _)]]; [| congruence | congruence].
  simpl OutputFileName in Hc, Hj. simpl IncludeBotsFlag in Hel.
  rewrite Hel in Hc, Hj. rewrite Hc, Hj.
  split; intros Ht; rewrite Ht; simpl.
  - split; [reflexivity |]. eexists. split; [reflexivity |].
    apply parse_csvDocument.
  - split; reflexivity.
Qed.

Lemma main_writes_the_listed_members_witness :
  main 3 exampleWorld (empty : gmap string string) exampleFlags = Some exampleRun /\
  exists text rows,
    csvFiles exampleRun = [(Stdout, text)] /\
    parseCSV text = Some (header :: rows).
Proof.
  assert (Hrun : main 3 exampleWorld (empty : gmap string string) exampleFlags
                 = Some exampleRun) by reflexivity.
  split; [exact Hrun |].
  destruct (main_writes_the_listed_members 3 exampleWorld (empty : gmap string string)
              exampleFlags exampleRun eq_refl Hrun eq_refl) as (n & _ & Hcsv & _).
  destruct (Hcsv eq_refl) as (_ & text & Hfile & Hparse).
  exists text. eexists. split; [exact Hfile | exact Hparse].
Defined.

Lemma encodedOutput_nil runtime :
  encodedOutput runtime [] = {| JSONOutput.Channels := nilSlice |}.
Proof.
  assert (Hvisits : rangeOrder runtime (groupUsers []) = []).
  { apply Permutation_nil. symmetry.
    rewrite (rangeOrder_each_once runtime (groupUsers [])).
    unfold groupUsers. simpl. rewrite map_to_list_empty. reflexivity. }
  unfold encodedOutput. rewrite Hvisits. reflexivity.
Qed.

(** X8.  A team without public channels.  When the parameters pass the
    checks, the team lookup succeeds, the first page of channels succeeds
    and is empty, and the output can be written, [main] issues two requests
    (the lookup and page 0), exits with code 0 and writes a CSV file that
    holds the header line only, or a JSON document whose [Channels] is
    [null]. *)
Theorem team_without_public_channels
    (fuel : nat) (world : World) (environ : gmap string string) (flags : Flags) :
  VersionFlag flags = false ->
  debugResolves environ flags ->
  ~ invalid world environ flags ->
  let mmClient := clientOf world environ flags in
  let team := GetTeamByName mmClient (MattermostTeam flags) "" in
  let teamID := model.Team.Id (payload team) in
  succeeded team ->
  succeeded (channelPage mmClient teamID 0) ->
  payload (channelPage mmClient teamID 0) = [] ->
  sinkWorks (opsys world) (OutputFileName flags) ->
  (0 < fuel)%nat ->
  exists r,
    main fuel world environ flags = Some r /\
    outcome r = Exit 0 /\
    requests r =
      [ReqGetTeamByName (MattermostTeam flags) "";
       ReqGetPublicChannelsForTeam teamID 0 50 ""] /\
    (strings_ToUpper world (OutputFileType flags) = "CSV" ->
     csvFiles r =
       [(sinkOf (OutputFileName flags),
         ("ChannelName,UserID,Username,Email,FirstName,LastName,Nickname"
          ++ byte LF)%string)] /\
     jsonFiles r = []) /\
    (strings_ToUpper world (OutputFileType flags) = "JSON" ->
     csvFiles r = [] /\
     jsonFiles r = [(sinkOf (OutputFileName flags), JObject [("Channels", JNull)])]).
Proof.
  intros Hv Hd Hvalid mmClient team teamID Hteam Hs Hnil Hsink Hfuel.
  rewrite main_of_valid by assumption.
  unfold traverse.
  set (c := NewAPIv4Client world _ _). change c with mmClient. clear c.
  change (MattermostTeam (resolved environ flags)) with (MattermostTeam flags).
  destruct (getTeamID_cases mmClient (MattermostTeam flags) [])
    as [[_ Heq] | [Hf _]]; [| exfalso; exact (succeeded_not_failed _ Hteam Hf)].
  rewrite Heq. clear Heq. fold team. fold teamID.
  destruct (lister_returns_at_empty mmClient teamID
              ([] ++ [ReqGetTeamByName (MattermostTeam flags) ""])
              0 fuel) as (channels & Hlist & Hel);
    [split; [intros i Hi; lia | split; assumption] | exact Hfuel |].
  rewrite Hlist. unfold getUsersInChannels. rewrite Hel. simpl.
  eexists. split; [reflexivity |].
  unfold writeOutput. simpl elems. simpl OutputFileName.
  destruct (valid_file_type world environ flags Hvalid) as [Ht | Ht]; rewrite Ht; simpl.
  - rewrite (outputCSV_succeeds _ _ _ _ Hsink). simpl.
    split; [reflexivity | split; [reflexivity | split; [| discriminate]]].
    intros _. split; reflexivity.
  - rewrite (outputJSON_succeeds _ _ _ _ Hsink), encodedOutput_nil. simpl.
    split; [reflexivity | split; [reflexivity | split; [discriminate |]]].
    intros _. split; reflexivity.
Qed.

Lemma team_without_public_channels_witness :
  exists r,
    main 1 emptyTeamWorld (empty : gmap string string) exampleFlags = Some r /\
    outcome r = Exit 0 /\
    requests r = [ReqGetTeamByName "engineering" "";
                  ReqGetPublicChannelsForTeam "t-new" 0 50 ""] /\
    csvFiles r =
      [(Stdout,
        ("ChannelName,UserID,Username,Email,FirstName,LastName,Nickname"
         ++ byte LF)%string)].
Proof.
  destruct (team_without_public_channels 1 emptyTeamWorld (empty : gmap string string)
              exampleFlags) as (r & Hrun & Ho & Hreq & Hcsv & _).
  - reflexivity.
  - right. reflexivity.
  - intros [H | [H | [H | [H | [H _]]]]]; first [discriminate H | apply H; reflexivity].
  - split; reflexivity.
  - split; reflexivity.
  - reflexivity.
  - split; [left; reflexivity | intros n; reflexivity].
  - lia.
  - exists r. split; [exact Hrun | split; [exact Ho | split; [exact Hreq |]]].
    apply Hcsv. reflexivity.
Defined.

(** ** Further properties of the lister and the collector *)

(** X9.  Whatever the lister returns, it has requested the pages
    [0, 1, ..., n] in this order, each once, with page size 50, where [n] is
    the first page that is empty or fails: it never asks for a page beyond
    that one, and on success it returns as many channels as the pages before
    [n] hold. *)
Theorem lister_requests_consecutive_pages
    (mmClient : Client4) (teamID : string) (log : Log) (fuel : nat)
    (allChannels : slice Channel.t) (e : option error) (log' : Log) :
  getPublicChannelsForTeam fuel mmClient teamID log = Some ((allChannels, e), log') ->
  exists n,
    (n < fuel)%nat /\
    log' = log ++ map (channelRequest teamID) (seq 0 (S n)) /\
    fullBefore (channelPage mmClient teamID) n /\
    (failed (channelPage mmClient teamID n) \/
     payload (channelPage mmClient teamID n) = []) /\
    (e = None ->
     len allChannels =
       list_sum (map (fun i => length (payload (channelPage mmClient teamID i)))
                   (seq 0 n))).
Proof.
  intros Hrun. apply lister_returns_inv in Hrun. simpl in Hrun.
  destruct Hrun as (n & Hn & Hfull & Hlog & Hcase).
  exists n. split; [exact Hn | split; [exact Hlog | split; [exact Hfull |]]].
  destruct Hcase as [[Hf Heq] | (Hs & Hnil & He & Hel)].
  - split; [left; exact Hf |]. injection Heq as _ ->. discriminate.
  - split; [right; exact Hnil |]. intros _. unfold len. rewrite Hel, length_map.
    unfold pagesBefore. clear. induction (seq 0 n) as [|i l IH]; simpl; [reflexivity |].
    rewrite length_app, IH. reflexivity.
Qed.

Lemma lister_requests_consecutive_pages_witness :
  exists n,
    [ReqGetPublicChannelsForTeam "t-eng" 0 50 "";
     ReqGetPublicChannelsForTeam "t-eng" 1 50 ""] =
      [] ++ map (channelRequest "t-eng") (seq 0 (S n)) /\
    (failed (channelPage (statusClient 503) "t-eng" n) \/
     payload (channelPage (statusClient 503) "t-eng" n) = []).
Proof.
  destruct (lister_requests_consecutive_pages (statusClient 503) "t-eng" [] 5
              nilSlice (Some "bad HTTP response")
              [ReqGetPublicChannelsForTeam "t-eng" 0 50 "";
               ReqGetPublicChannelsForTeam "t-eng" 1 50 ""] eq_refl)
    as (n & _ & Hlog & _ & Hstop & _).
  exists n. split; [exact Hlog | exact Hstop].
Defined.

Lemma pages_returns_exact mmClient includeBots channel acc log fuel exit log' :
  getUsersInChannels_pages fuel mmClient includeBots 50 "" channel acc 0 log =
    Some (exit, log') ->
  exists n, (n < fuel)%nat /\
    log' = log ++ map (userRequest channel) (seq 0 (S n)) /\
    (firstFailureAt (userPage mmClient channel) n /\
       exit = ExitReturn (nilSlice, Some (failure (userPage mmClient channel n)))
     \/
     firstEmptyAt (userPage mmClient channel) n /\
       exists acc', exit = ExitBreak acc' /\
         elems acc' =
           elems acc ++
           map (toUser channel)
             (List.filter (passes includeBots)
                (pagesBefore (userPage mmClient channel) n))).
Proof.
  intros Hrun.
  destruct (first_stop (userPage mmClient channel) fuel)
    as [Hfull | (n & Hn & Hfull & [Hf | [Hs Hnil]])].
  - rewrite pages_out_of_fuel in Hrun by assumption. discriminate.
  - exists n. split; [exact Hn |].
    assert (Hfail : firstFailureAt (userPage mmClient channel) n) by (split; assumption).
    rewrite (pages_returns_at_failure mmClient includeBots channel acc log n fuel Hfail Hn)
      in Hrun.
    injection Hrun as <- <-. split; [reflexivity | left; split; [exact Hfail | reflexivity]].
  - exists n. split; [exact Hn |].
    assert (Hk : firstEmptyAt (userPage mmClient channel) n)
      by (split; [assumption | split; assumption]).
    destruct (pages_returns_at_empty mmClient includeBots channel acc log n fuel Hk Hn)
      as (acc' & Hr & Hacc).
    rewrite Hr in Hrun. injection Hrun as <- <-.
    split; [reflexivity | right; split; [exact Hk |]].
    exists acc'. split; [reflexivity | exact Hacc].
Qed.

Lemma range_returns_exact fuel mmClient includeBots (channels : list Channel.t) :
  forall acc log allUsers log',
    getUsersInChannels_range fuel mmClient includeBots 50 "" channels acc log =
      Some ((allUsers, None), log') ->
    exists ns,
      Forall2 (fun channel n =>
                 (n < fuel)%nat /\ firstEmptyAt (userPage mmClient channel) n)
              channels ns /\
      elems allUsers = elems acc ++ collectorRecords mmClient includeBots channels ns /\
      log' = log ++ collectorRequests channels ns.
Proof.
  induction channels as [|channel channels IH]; intros acc log allUsers log' Hrun;
    simpl in Hrun.
  - injection Hrun as <- <-. exists []. unfold collectorRecords, collectorRequests.
    simpl. rewrite !app_nil_r. split; [constructor | split; reflexivity].
  - destruct (getUsersInChannels_pages fuel mmClient includeBots 50 "" channel acc 0 log)
      as [[exit log1]|] eqn:Hpages; [| discriminate].
    apply pages_returns_exact in Hpages.
    destruct Hpages as (n & Hn & -> & [[_ ->] | [Hempty (acc' & -> & Hacc)]]);
      [discriminate |].
    apply IH in Hrun. destruct Hrun as (ns & Hall & Hel & ->).
    exists (n :: ns). unfold collectorRecords, collectorRequests in *.
    cbn [zip_with concat].
    split; [constructor; [split; assumption | exact Hall] |].
    split; [rewrite Hel, Hacc, <- app_assoc; reflexivity | now rewrite <- app_assoc].
Qed.

Lemma length_collectorRequests (channels : list Channel.t) : forall ns,
  length channels = length ns ->
  length (collectorRequests channels ns) = (list_sum ns + length ns)%nat.
Proof.
  unfold collectorRequests.
  induction channels as [|channel channels IH]; intros [|n ns] Hlen;
    try discriminate; [reflexivity |].
  simpl in Hlen. injection Hlen as Hlen.
  cbn [zip_with concat].
  rewrite length_app, length_map, length_seq, (IH ns Hlen). simpl. lia.
Qed.

(** X10.  When the collector returns without error, every channel has a
    first empty page [n], and the collector returns, channel by channel in
    the order of its argument and page by page in arrival order, the record
    of every listed account that passes the two checks: nothing is sorted
    and nothing is merged, so an account listed for two channels gives two
    records.  It has requested pages [0 .. n] of each channel in turn, the
    sum of the [n] plus one request per channel in all. *)
Theorem collector_returns_records_in_channel_and_page_order
    (mmClient : Client4) (fuel : nat) (channels : slice Channel.t)
    (includeBots : bool) (log : Log) (allUsers : slice User.t) (log' : Log) :
  getUsersInChannels fuel mmClient channels includeBots log =
    Some ((allUsers, None), log') ->
  exists ns,
    Forall2 (fun channel n =>
               (n < fuel)%nat /\ firstEmptyAt (userPage mmClient channel) n)
            (elems channels) ns /\
    elems allUsers = collectorRecords mmClient includeBots (elems channels) ns /\
    log' = log ++ collectorRequests (elems channels) ns /\
    length (collectorRequests (elems channels) ns) = (list_sum ns + len channels)%nat.
Proof.
  intros Hrun. apply range_returns_exact in Hrun.
  destruct Hrun as (ns & Hall & Hel & Hlog).
  exists ns. split; [exact Hall | split; [exact Hel | split; [exact Hlog |]]].
  pose proof (Forall2_length _ _ _ Hall) as Hlen.
  rewrite length_collectorRequests by exact Hlen. unfold len. lia.
Qed.

Lemma collector_returns_records_in_channel_and_page_order_witness :
  exists ns,
    [toUser (toChannel random) alice; toUser (toChannel general) alice;
     toUser (toChannel general) bob] =
      collectorRecords exampleClient true [toChannel random; toChannel general] ns /\
    [ReqGetUsersInChannel "c-random" 0 50 ""; ReqGetUsersInChannel "c-random" 1 50 "";
     ReqGetUsersInChannel "c-general" 0 50 ""; ReqGetUsersInChannel "c-general" 1 50 ""] =
      [] ++ collectorRequests [toChannel random; toChannel general] ns.
Proof.
  destruct (collector_returns_records_in_channel_and_page_order exampleClient 2
              (Slice [toChannel random; toChannel general]) true []
              (Slice [toUser (toChannel random) alice; toUser (toChannel general) alice;
                      toUser (toChannel general) bob])
              [ReqGetUsersInChannel "c-random" 0 50 "";
               ReqGetUsersInChannel "c-random" 1 50 "";
               ReqGetUsersInChannel "c-general" 0 50 "";
               ReqGetUsersInChannel "c-general" 1 50 ""] eq_refl)
    as (ns & _ & Hel & Hlog & _).
  exists ns. split; [exact Hel | exact Hlog].
Defined.

Lemma sublist_filter_mono {A} (f g : A -> bool) (l : list A) :
  (forall x, f x = true -> g x = true) ->
  sublist (List.filter f l) (List.filter g l).
Proof.
  intros Hfg. induction l as [|x l IH]; simpl; [constructor |].
  destruct (f x) eqn:Hf.
  - rewrite (Hfg x Hf). apply sublist_skip, IH.
  - destruct (g x); [apply sublist_cons, IH | exact IH].
Qed.

Lemma sublist_map {A B} (f : A -> B) (l k : list A) :
  sublist l k -> sublist (map f l) (map f k).
Proof.
  induction 1; simpl; [constructor | apply sublist_skip | apply sublist_cons];
    assumption.
Qed.

Lemma passes_without_bots_passes_with user :
  passes false user = true -> passes true user = true.
Proof.
  unfold passes. rewrite !andb_true_iff, !negb_true_iff, !andb_false_iff.
  intros [H _]. split; [exact H | right; reflexivity].
Qed.

(** The pagination of one channel with and without bots: the same exit and
    the same requests, and without bots a sublist of the records. *)
Lemma pages_with_and_without_bots mmClient channel fuel accWith accWithout log :
  sublist (elems accWithout) (elems accWith) ->
  match getUsersInChannels_pages fuel mmClient true 50 "" channel accWith 0 log,
        getUsersInChannels_pages fuel mmClient false 50 "" channel accWithout 0 log with
  | None, None => True
  | Some (ExitReturn r1, log1), Some (ExitReturn r2, log2) => r1 = r2 /\ log1 = log2
  | Some (ExitBreak acc1, log1), Some (ExitBreak acc2, log2) =>
      log1 = log2 /\ sublist (elems acc2) (elems acc1)
  | _, _ => False
  end.
Proof.
  intros Hsub.
  destruct (first_stop (userPage mmClient channel) fuel)
    as [Hfull | (n & Hn & Hfull & [Hf | [Hs Hnil]])].
  - rewrite !pages_out_of_fuel by assumption. exact I.
  - assert (Hfail : firstFailureAt (userPage mmClient channel) n) by (split; assumption).
    rewrite !(pages_returns_at_failure mmClient _ channel _ log n fuel Hfail Hn).
    split; reflexivity.
  - assert (Hk : firstEmptyAt (userPage mmClient channel) n)
      by (split; [assumption | split; assumption]).
    destruct (pages_returns_at_empty mmClient true channel accWith log n fuel Hk Hn)
      as (acc1 & -> & Hacc1).
    destruct (pages_returns_at_empty mmClient false channel accWithout log n fuel Hk Hn)
      as (acc2 & -> & Hacc2).
    split; [reflexivity |]. rewrite Hacc1, Hacc2.
    apply sublist_app; [exact Hsub |].
    apply sublist_map, sublist_filter_mono, passes_without_bots_passes_with.
Qed.

Lemma range_with_and_without_bots mmClient fuel (channels : list Channel.t) :
  forall accWith accWithout log,
    sublist (elems accWithout) (elems accWith) ->
    match getUsersInChannels_range fuel mmClient true 50 "" channels accWith log,
          getUsersInChannels_range fuel mmClient false 50 "" channels accWithout log with
    | None, None => True
    | Some ((users1, e1), log1), Some ((users2, e2), log2) =>
        e1 = e2 /\ log1 = log2 /\ sublist (elems users2) (elems users1)
    | _, _ => False
    end.
Proof.
  induction channels as [|channel channels IH]; intros accWith accWithout log Hsub; simpl.
  - split; [reflexivity | split; [reflexivity | exact Hsub]].
  - pose proof (pages_with_and_without_bots mmClient channel fuel accWith accWithout
                  log Hsub) as Hpages.
    destruct (getUsersInChannels_pages fuel mmClient true 50 "" channel accWith 0 log)
      as [[[r1 | acc1] log1]|];
      destruct (getUsersInChannels_pages fuel mmClient false 50 "" channel accWithout 0 log)
        as [[[r2 | acc2] log2]|]; try contradiction; try exact I.
    + destruct Hpages as [-> ->]. destruct r2 as [users e]. auto.
    + destruct Hpages as [-> Hsub']. apply IH, Hsub'.
Qed.

(** X11.  The bot flag changes the records and nothing else.  With and
    without bots the collector issues the same requests, returns the same
    error and returns for the same fuel; the records without bots are a
    sublist, in the same order, of the records with bots. *)
Theorem bot_flag_changes_only_the_records
    (mmClient : Client4) (fuel : nat) (channels : slice Channel.t) (log : Log) :
  (getUsersInChannels fuel mmClient channels true log = None <->
   getUsersInChannels fuel mmClient channels false log = None)
  /\
  (forall usersWith e1 log1 usersWithout e2 log2,
     getUsersInChannels fuel mmClient channels true log =
       Some ((usersWith, e1), log1) ->
     getUsersInChannels fuel mmClient channels false log =
       Some ((usersWithout, e2), log2) ->
     e1 = e2 /\ log1 = log2 /\ sublist (elems usersWithout) (elems usersWith)).
Proof.
  pose proof (range_with_and_without_bots mmClient fuel (elems channels)
                nilSlice nilSlice log (sublist_nil_l [])) as H.
  unfold getUsersInChannels.
  destruct (getUsersInChannels_range fuel mmClient true 50 "" (elems channels) nilSlice log)
    as [[[users1 e1] log1]|];
    destruct (getUsersInChannels_range fuel mmClient false 50 "" (elems channels)
                nilSlice log) as [[[users2 e2] log2]|]; try contradiction.
  - split; [split; discriminate |].
    intros ? ? ? ? ? ? [= <- <- <-] [= <- <- <-]. exact H.
  - split; [split; reflexivity |]. discriminate.
Qed.

Lemma bot_flag_changes_only_the_records_witness :
  sublist
    [toUser (toChannel general) alice; toUser (toChannel random) alice]
    [toUser (toChannel general) alice; toUser (toChannel general) bob;
     toUser (toChannel random) alice].
Proof.
  destruct (bot_flag_changes_only_the_records exampleClient 2
              (Slice [toChannel general; toChannel random]) []) as [_ H].
  refine (proj2 (proj2 (H (Slice _) None _ (Slice _) None _ eq_refl eq_refl))).
Defined.

(** X12.  Every record the collector returns carries the name of one of the
    channels it was given, and there are at most as many records as the
    remote system listed accounts for these channels. *)
Theorem collected_records_name_given_channels
    (mmClient : Client4) (fuel : nat) (channels : slice Channel.t)
    (includeBots : bool) (log : Log)
    (allUsers : slice User.t) (e : option error) (log' : Log) :
  getUsersInChannels fuel mmClient channels includeBots log =
    Some ((allUsers, e), log') ->
  Forall (fun u => exists channel,
                     In channel (elems channels) /\
                     User.ChannelName u = Channel.Name channel)
         (elems allUsers)
  /\ (len allUsers <= length (membership fuel mmClient (elems channels)))%nat.
Proof.
  intros Hrun. apply collector_returns_kept in Hrun.
  destruct e as [e|].
  { rewrite (nil_length_inv (elems allUsers)) by (rewrite Hrun; reflexivity).
    split; [constructor |]. unfold len. rewrite Hrun. simpl. lia. }
  unfold len. rewrite Hrun. split.
  - apply List.Forall_forall. intros u Hu. apply in_map_iff in Hu.
    destruct Hu as ([channel user] & <- & Hin). apply List.filter_In in Hin.
    destruct Hin as [Hin _]. exists channel. split; [| reflexivity].
    unfold membership in Hin. apply in_flat_map in Hin.
    destruct Hin as (channel' & Hch & Hin). apply in_map_iff in Hin.
    destruct Hin as (user' & [= <- <-] & _). exact Hch.
  - rewrite length_map. apply List.filter_length_le.
Qed.

Lemma collected_records_name_given_channels_witness :
  Forall (fun u => exists channel,
                     In channel [toChannel general; toChannel random] /\
                     User.ChannelName u = Channel.Name channel)
         [toUser (toChannel general) alice; toUser (toChannel random) alice].
Proof.
  refine (proj1 (collected_records_name_given_channels exampleClient 2
                   (Slice [toChannel general; toChannel random]) false []
                   (Slice [toUser (toChannel general) alice;
                           toUser (toChannel random) alice])
                   None _ eq_refl)).
Defined.

(** ** Further properties of the serializers *)

Lemma writeRows_no_error multibyteSpace os file (users : list User.t) :
  forall n written,
    fst (writeRows multibyteSpace os file n users written) = None <->
    forall i, (i < length users)%nat -> Write_error os file (n + i) = None.
Proof.
  induction users as [|user users IH]; intros n written; simpl.
  - split; [intros _ i Hi; lia | reflexivity].
  - destruct (Write_error os file n) as [e|] eqn:Hn; simpl.
    + split; [discriminate |]. intros H. specialize (H 0%nat ltac:(lia)).
      rewrite Nat.add_0_r in H. congruence.
    + rewrite IH. split; intros H i Hi.
      * destruct i as [|i]; [now rewrite Nat.add_0_r |].
        replace (n + S i)%nat with (S n + i)%nat by lia. apply H. lia.
      * replace (S n + i)%nat with (n + S i)%nat by lia. apply H. lia.
Qed.

(** The first failing write: the rows before it were handed to the writer,
    and its error is returned as it is. *)
Lemma writeRows_fails_at multibyteSpace os file (before : list User.t) :
  forall n written user after e,
    (forall i, (i < length before)%nat -> Write_error os file (n + i) = None) ->
    Write_error os file (n + length before) = Some e ->
    writeRows multibyteSpace os file n (before ++ user :: after) written =
      (Some e,
       fold_left (fun text u => (text ++ csv_Write multibyteSpace (rowOf u))%string)
         before written).
Proof.
  induction before as [|u before IH]; intros n written user after e Hok Hfail; simpl.
  - simpl in Hfail. rewrite Nat.add_0_r in Hfail. rewrite Hfail. reflexivity.
  - pose proof (Hok 0%nat ltac:(simpl; lia)) as H0. rewrite Nat.add_0_r in H0.
    rewrite H0. apply IH.
    + intros i Hi. replace (S n + i)%nat with (n + S i)%nat by lia.
      apply Hok. simpl. lia.
    + replace (S n + length before)%nat with (n + length (u :: before))%nat
        by (simpl; lia).
      exact Hfail.
Qed.

(** X13.  [outputCSV] returns no error exactly when the output can be
    opened (no file name, or [os.Create] succeeds) and the header and every
    row are written without error.  The error of [os.Create] is returned as
    it is, with nothing written; the error of the header is wrapped as
    "failed to write CSV header: ...". *)
Theorem outputCSV_returns_no_error_iff
    (multibyteSpace : string -> bool) (os : OS) (users : list User.t)
    (filename : string) :
  (fst (outputCSV multibyteSpace os users filename) = None <->
   (filename = "" \/ os_Create os filename = None) /\
   forall n, (n <= length users)%nat -> Write_error os (sinkOf filename) n = None)
  /\
  (forall e, filename <> "" -> os_Create os filename = Some e ->
     outputCSV multibyteSpace os users filename = (Some e, []))
  /\
  (forall e, filename = "" \/ os_Create os filename = None ->
     Write_error os (sinkOf filename) 0 = Some e ->
     outputCSV multibyteSpace os users filename =
       (Some ("failed to write CSV header: " ++ e)%string,
        [(sinkOf filename, EmptyString)])).
Proof.
  assert (Hrows : forall file,
             fst (writeRows multibyteSpace os file 1 users
                    (csv_Write multibyteSpace header)) = None <->
             forall n, (1 <= n <= length users)%nat -> Write_error os file n = None).
  { intros file. rewrite writeRows_no_error. split; intros H n Hn.
    - replace n with (1 + (n - 1))%nat by lia. apply H. lia.
    - apply H. lia. }
  unfold outputCSV, sinkOf.
  destruct (String.eqb_spec filename "") as [-> | Hne]; simpl.
  - split; [| split].
    + destruct (Write_error os Stdout 0) as [e|] eqn:H0; simpl.
      * split; [discriminate |]. intros [_ H]. specialize (H 0%nat ltac:(lia)). congruence.
      * rewrite Hrows. split.
        -- intros H. split; [left; reflexivity |]. intros n Hn.
           destruct n as [|n]; [exact H0 | apply H; lia].
        -- intros [_ H] n Hn. apply H. lia.
    + intros e Hcontra. contradiction.
    + intros e _ ->. reflexivity.
  - destruct (os_Create os filename) as [ec|] eqn:Hc; simpl.
    + split; [| split].
      * split; [discriminate |]. intros [[H | H] _]; [contradiction | discriminate].
      * intros e _ [= ->]. reflexivity.
      * intros e [H | H]; [contradiction | discriminate].
    + split; [| split].
      * destruct (Write_error os (Created filename) 0) as [e|] eqn:H0; simpl.
        -- split; [discriminate |]. intros [_ H].
           specialize (H 0%nat ltac:(lia)). congruence.
        -- rewrite Hrows. split.
           ++ intros H. split; [right; reflexivity |]. intros n Hn.
              destruct n as [|n]; [exact H0 | apply H; lia].
           ++ intros [_ H] n Hn. apply H. lia.
      * intros e _ H. discriminate H.
      * intros e _ ->. reflexivity.
Qed.

Lemma outputCSV_returns_no_error_iff_witness :
  outputCSV (fun field => false) readOnlyOS [record "general" "u-alice"] "users.csv" =
    (Some "permission denied", []).
Proof.
  destruct (outputCSV_returns_no_error_iff (fun field => false) readOnlyOS
              [record "general" "u-alice"] "users.csv") as (_ & H & _).
  apply H; [discriminate | reflexivity].
Defined.

(** X14.  When the output is open and the write of row [i] is the first to
    fail, [outputCSV] stops there: it returns that error as it is, and what
    it has handed to the writer is the header and the rows before [i], no
    row after it. *)
Theorem outputCSV_stops_at_first_failed_row
    (multibyteSpace : string -> bool) (os : OS)
    (before : list User.t) (user : User.t) (after : list User.t)
    (filename : string) (e : error) :
  (filename = "" \/ os_Create os filename = None) ->
  (forall n, (n <= length before)%nat -> Write_error os (sinkOf filename) n = None) ->
  Write_error os (sinkOf filename) (S (length before)) = Some e ->
  outputCSV multibyteSpace os (before ++ user :: after) filename =
    (Some e, [(sinkOf filename, csvDocument multibyteSpace before)]).
Proof.
  intros Hopen Hok Hfail.
  assert (Hrows : writeRows multibyteSpace os (sinkOf filename) 1
                    (before ++ user :: after) (csv_Write multibyteSpace header) =
                  (Some e, csvDocument multibyteSpace before)).
  { apply writeRows_fails_at.
    - intros i Hi. apply Hok. lia.
    - exact Hfail. }
  pose proof (Hok 0%nat ltac:(lia)) as H0.
  unfold outputCSV. unfold sinkOf in *.
  destruct (String.eqb_spec filename "") as [-> | Hne]; simpl.
  - rewrite H0, Hrows. reflexivity.
  - destruct Hopen as [-> | Hopen]; [contradiction |].
    rewrite Hopen, H0, Hrows. reflexivity.
Qed.

Lemma outputCSV_stops_at_first_failed_row_witness :
  outputCSV (fun field => false) fullDiskOS
    [record "general" "u-alice"; record "general" "u-bob"; record "random" "u-alice"]
    "users.csv" =
    (Some "no space left on device",
     [(Created "users.csv",
       ("ChannelName,UserID,Username,Email,FirstName,LastName,Nickname" ++ byte LF ++
        "general,u-alice,u-alice,,,," ++ byte LF)%string)]).
Proof.
  apply (outputCSV_stops_at_first_failed_row (fun field => false) fullDiskOS
           [record "general" "u-alice"] (record "general" "u-bob")
           [record "random" "u-alice"] "users.csv" "no space left on device").
  - right. reflexivity.
  - intros n Hn. simpl in Hn.
    destruct n as [|[|n]]; [reflexivity | reflexivity | lia].
  - reflexivity.
Defined.

(** X15.  [outputJSON] returns no error exactly when the output can be
    opened and the one write of the encoder succeeds.  The error of
    [os.Create] comes back wrapped as "failed to create file: ..." and the
    error of the encoder as "failed to encode JSON: ..."; in both cases no
    document is written. *)
Theorem outputJSON_returns_no_error_iff
    (os : OS) (runtime : MapRange) (users : list User.t) (filename : string) :
  (fst (outputJSON os runtime users filename) = None <->
   (filename = "" \/ os_Create os filename = None) /\
   Write_error os (sinkOf filename) 0 = None)
  /\
  (forall e, filename <> "" -> os_Create os filename = Some e ->
     outputJSON os runtime users filename =
       (Some ("failed to create file: " ++ e)%string, []))
  /\
  (forall e, filename = "" \/ os_Create os filename = None ->
     Write_error os (sinkOf filename) 0 = Some e ->
     outputJSON os runtime users filename =
       (Some ("failed to encode JSON: " ++ e)%string, [])).
Proof.
  unfold outputJSON, sinkOf.
  destruct (String.eqb_spec filename "") as [-> | Hne]; simpl.
  - split; [| split].
    + destruct (Write_error os Stdout 0) as [e|]; simpl.
      * split; [discriminate | intros [_ H]; discriminate].
      * split; [intros _; split; [left |]; reflexivity | reflexivity].
    + intros e Hcontra. contradiction.
    + intros e _ ->. reflexivity.
  - destruct (os_Create os filename) as [ec|]; simpl.
    + split; [| split].
      * split; [discriminate |]. intros [[H | H] _]; [contradiction | discriminate].
      * intros e _ [= ->]. reflexivity.
      * intros e [H | H]; [contradiction | discriminate].
    + split; [| split].
      * destruct (Write_error os (Created filename) 0) as [e|]; simpl.
        -- split; [discriminate | intros [_ H]; discriminate].
        -- split; [intros _; split; [right |]; reflexivity | reflexivity].
      * intros e _ H. discriminate H.
      * intros e _ ->. reflexivity.
Qed.

Lemma outputJSON_returns_no_error_iff_witness :
  outputJSON readOnlyOS keyOrder [record "general" "u-alice"] "users.json" =
    (Some "failed to create file: permission denied", []).
Proof.
  destruct (outputJSON_returns_no_error_iff readOnlyOS keyOrder
              [record "general" "u-alice"] "users.json") as (_ & H & _).
  apply H; [discriminate | reflexivity].
Defined.

Lemma rowOf_injective (u v : User.t) : rowOf u = rowOf v -> u = v.
Proof.
  destruct u, v. unfold rowOf. simpl. intros [= -> -> -> -> -> -> ->]. reflexivity.
Qed.

Lemma map_rowOf_injective (us : list User.t) : forall vs,
  map rowOf us = map rowOf vs -> us = vs.
Proof.
  induction us as [|u us IH]; intros [|v vs] H; try discriminate H;
    [reflexivity |].
  assert (Hrow : rowOf u = rowOf v) by exact (f_equal (hd []) H).
  assert (Hrest : map rowOf us = map rowOf vs) by exact (f_equal (@tl _) H).
  apply rowOf_injective in Hrow. subst v.
  f_equal. apply IH, Hrest.
Qed.

(** X16.  Two different lists of records never give the same CSV text: the
    file determines the records, their order and every field of each. *)
Theorem csv_text_determines_the_records
    (multibyteSpace : string -> bool) (users users' : list User.t) :
  csvDocument multibyteSpace users = csvDocument multibyteSpace users' ->
  users = users'.
Proof.
  intros Htext.
  pose proof (parse_csvDocument multibyteSpace users) as H.
  rewrite Htext, parse_csvDocument in H.
  injection H as H. symmetry. apply map_rowOf_injective, H.
Qed.

Lemma csv_text_determines_the_records_witness :
  [record "general" "u-alice"] = [record "general" "u-alice"].
Proof.
  apply (csv_text_determines_the_records (fun field => false)). reflexivity.
Defined.

Lemma groups_of_nonempty_input runtime (users : list User.t) :
  users <> [] ->
  rangeOrder runtime (groupUsers users) <> [].
Proof.
  destruct users as [|u users]; [congruence | intros _ Hnil].
  assert (Hin : In (User.ChannelName u,
                    Slice (usersOf (User.ChannelName u) (u :: users)))
                  (rangeOrder runtime (groupUsers (u :: users)))).
  { apply In_rangeOrder. simpl. split; [reflexivity |].
    unfold usersOf. simpl. rewrite String.eqb_refl. discriminate. }
  rewrite Hnil in Hin. exact Hin.
Qed.

(** X17.  For at least one record, the [Channels] of the JSON document is an
    array (never [null]) of at least one group, there are as many groups as
    the input has distinct channel names, and the [Users] of every group is
    an array of at least one record: no group is empty or [null]. *)
Theorem json_groups_are_never_empty
    (runtime : MapRange) (users : list User.t) :
  users <> [] ->
  exists groups,
    groups <> [] /\
    JSONOutput.Channels (encodedOutput runtime users) =
      Slice (map (fun g => {| JSONChannel.Channel := g |}) groups) /\
    length groups = length (firstSeen (map User.ChannelName users)) /\
    Forall (fun g => exists u rest,
                       ChannelWithUsers.Users g = Slice (u :: rest))
           groups.
Proof.
  intros Hne.
  pose proof (groups_of_nonempty_input runtime users Hne) as Hvisits.
  exists (groupsOf (encodedOutput runtime users)).
  rewrite groups_of_encodedOutput.
  split; [| split; [| split]].
  - destruct (rangeOrder runtime (groupUsers users)); [congruence | discriminate].
  - unfold encodedOutput, buildJSONOutput. rewrite buildJSONOutput_fold.
    destruct (rangeOrder runtime (groupUsers users)) as [|entry visits];
      [congruence |].
    simpl. rewrite map_map. reflexivity.
  - rewrite <- groups_of_encodedOutput.
    rewrite <- (length_map ChannelWithUsers.ChannelName).
    apply Permutation_length, NoDup_Permutation.
    + rewrite group_names. apply NoDup_rangeOrder_names.
    + apply NoDup_firstSeen.
    + intros name.
      rewrite !list_elem_of_In, In_firstSeen, <- usersOf_nonempty, in_map_iff. split.
      * intros (g & <- & Hg). apply In_groups in Hg. tauto.
      * intros Hn.
        exists {| ChannelWithUsers.ChannelName := name;
                  ChannelWithUsers.Users := Slice (usersOf name users) |}.
        split; [reflexivity | apply In_groups; simpl; auto].
  - apply List.Forall_forall. intros g Hg. apply in_map_iff in Hg.
    destruct Hg as (entry & <- & Hin). apply In_rangeOrder in Hin.
    destruct Hin as [Hus Hnonempty]. simpl. rewrite Hus.
    destruct (usersOf (fst entry) users) as [|u rest]; [congruence |].
    exists u, rest. reflexivity.
Qed.

Lemma json_groups_are_never_empty_witness :
  exists groups,
    groups <> [] /\
    JSONOutput.Channels (encodedOutput reverseKeyOrder randomFirst) =
      Slice (map (fun g => {| JSONChannel.Channel := g |}) groups) /\
    length groups = 2%nat.
Proof.
  destruct (json_groups_are_never_empty reverseKeyOrder randomFirst ltac:(discriminate))
    as (groups & Hne & Hch & Hlen & _).
  exists groups. split; [exact Hne | split; [exact Hch | exact Hlen]].
Defined.

Lemma usersOf_all (name : string) (users : list User.t) :
  (forall u, In u users -> User.ChannelName u = name) ->
  usersOf name users = users.
Proof.
  unfold usersOf. induction users as [|u users IH]; intros Hall; simpl; [reflexivity |].
  rewrite (Hall u (or_introl eq_refl)), String.eqb_refl.
  f_equal. apply IH. intros v Hv. apply Hall. right. exact Hv.
Qed.

(** X18.  When all records have the same channel name, the order in which
    the runtime ranges over the map plays no part: for at least one record
    the document is the one group of that name with all the records in
    input order, whatever the runtime. *)
Theorem json_of_one_channel_is_determined
    (runtime : MapRange) (users : list User.t) (name : string) :
  users <> [] ->
  (forall u, In u users -> User.ChannelName u = name) ->
  encodedOutput runtime users =
    {| JSONOutput.Channels :=
         Slice [ {| JSONChannel.Channel :=
                      {| ChannelWithUsers.ChannelName := name;
                         ChannelWithUsers.Users := Slice users |} |} ] |}.
Proof.
  intros Hne Hall.
  assert (Hentry : forall entry,
             In entry (rangeOrder runtime (groupUsers users)) ->
             entry = (name, Slice users)).
  { intros [k v] Hin. apply In_rangeOrder in Hin. simpl in Hin.
    destruct Hin as [-> Hnonempty].
    apply usersOf_nonempty, in_map_iff in Hnonempty.
    destruct Hnonempty as (u & <- & Hu). rewrite (Hall u Hu).
    rewrite (usersOf_all name users Hall). reflexivity. }
  pose proof (NoDup_rangeOrder_names runtime (groupUsers users)) as Hnodup.
  pose proof (groups_of_nonempty_input runtime users Hne) as Hvisits.
  unfold encodedOutput.
  destruct (rangeOrder runtime (groupUsers users)) as [|e1 [|e2 visits]];
    [congruence | |].
  - rewrite (Hentry e1 (or_introl eq_refl)). reflexivity.
  - exfalso.
    rewrite (Hentry e1 (or_introl eq_refl)),
      (Hentry e2 (or_intror (or_introl eq_refl))) in Hnodup.
    simpl in Hnodup. apply NoDup_cons in Hnodup. destruct Hnodup as [Hnotin _].
    apply Hnotin. left.
Qed.

Lemma json_of_one_channel_is_determined_witness :
  encodedOutput reverseKeyOrder [record "general" "u-alice"; record "general" "u-bob"] =
    {| JSONOutput.Channels :=
         Slice [ {| JSONChannel.Channel :=
                      {| ChannelWithUsers.ChannelName := "general";
                         ChannelWithUsers.Users :=
                           Slice [record "general" "u-alice";
                                  record "general" "u-bob"] |} |} ] |}.
Proof.
  apply json_of_one_channel_is_determined; [discriminate |].
  intros u [<- | [<- | []]]; reflexivity.
Defined.

(** X19.  Two runs of [outputJSON] on the same records can differ in the
    order of the channel groups and in nothing else: the groups of one
    document are a permutation of the groups of the other. *)
Theorem json_documents_differ_in_group_order_only
    (runtime runtime' : MapRange) (users : list User.t) :
  Permutation (groupsOf (encodedOutput runtime users))
              (groupsOf (encodedOutput runtime' users)).
Proof.
  rewrite !groups_of_encodedOutput. apply Permutation_map.
  rewrite (rangeOrder_each_once runtime (groupUsers users)).
  symmetry. apply rangeOrder_each_once.
Qed.
